(** * doc-harvester: site tree, link classifier, orchestrator and XML store

    A shallow embedding of the Go packages [node], [tree], [crawler],
    [extractor], [storage] and [harvester], followed by the properties of
    the design specification that were checked against them.

    Conventions.
    - Go strings are [string] (sequences of bytes); Go [int] is [Z].
    - A [*node.WebNode] is an index into an arena of nodes ([node.heap]);
      the nil pointer is [None].  Nodes are shared between the tree, the
      orchestrator and the store exactly as the pointers are in the source.
    - A Go [error] result is [Err e] (or [Failed e] for a call that can do
      nothing but return); [Fault] is a run that does not return: a panic, a
      pointer outside the arena, or a recursion that does not end.
    - The standard library and the network are collaborators: what the
      repository calls of [net/url] is the class [NetURL]; the HTTP client,
      the HTML parser and renderer, the clock and the file system are the
      class [World]. *)

From Stdlib Require Import ZArith String Ascii List Lia Bool.
From stdpp Require Import base list strings gmap sets.

Set Warnings "-register-all".

Open Scope string_scope.
Open Scope list_scope.
Open Scope Z_scope.

(* ================================================================== *)
(** * Results and errors *)

Inductive error : Type :=
| ErrMsg (msg : string)
| ErrWrap (msg : string) (cause : error).

Inductive result (A : Type) : Type :=
| Ok (a : A)
| Err (e : error)
| Fault.
Arguments Ok {A} a.
Arguments Err {A} e.
Arguments Fault {A}.

(** The outcome of a call that returns a value or an error and nothing
    else: a call into a library or to the world outside. *)
Inductive reply (A : Type) : Type :=
| Done (a : A)
| Failed (e : error).
Arguments Done {A} a.
Arguments Failed {A} e.

Definition is_Ok {A} (r : result A) : bool :=
  match r with Ok _ => true | _ => false end.

Definition is_Err {A} (r : result A) : bool :=
  match r with Err _ => true | _ => false end.

(* ================================================================== *)
(** * Package [strings] (the functions the repository calls) *)

Arguments Ascii.eqb : simpl never.

Module Strings.

Fixpoint IndexByte (s : string) (c : ascii) : bool :=
  match s with
  | EmptyString => false
  | String a s' => Ascii.eqb a c || IndexByte s' c
  end.

(** [strings.TrimRight(s, cutset)]: [s] without its trailing bytes that
    are in [cutset]. *)
Fixpoint TrimRight (s cutset : string) : string :=
  match s with
  | EmptyString => EmptyString
  | String a s' =>
      match TrimRight s' cutset with
      | EmptyString =>
          if IndexByte cutset a then EmptyString else String a EmptyString
      | r => String a r
      end
  end.

(** [strings.HasPrefix(s, prefix)]. *)
Fixpoint HasPrefix (s prefix : string) {struct prefix} : bool :=
  match prefix, s with
  | EmptyString, _ => true
  | String _ _, EmptyString => false
  | String b prefix', String a s' => Ascii.eqb a b && HasPrefix s' prefix'
  end.

(** [strings.Contains(s, substr)]. *)
Fixpoint Contains (s substr : string) : bool :=
  HasPrefix s substr ||
  match s with
  | EmptyString => false
  | String _ s' => Contains s' substr
  end.

(** [strings.LastIndex(s, substr)], counted from offset [i]: the index of
    the last occurrence of [substr], or -1. *)
Fixpoint LastIndex_from (i : Z) (s substr : string) : Z :=
  match s with
  | EmptyString => if HasPrefix EmptyString substr then i else -1
  | String _ s' =>
      let r := LastIndex_from (i + 1) s' substr in
      if 0 <=? r then r
      else if HasPrefix s substr then i else -1
  end.

Definition LastIndex (s substr : string) : Z := LastIndex_from 0 s substr.

(** The slice expression [s[:n]] for [0 <= n <= len(s)]. *)
Definition slice_to (s : string) (n : Z) : string :=
  String.substring 0 (Z.to_nat n) s.

(** [strings.Cut(s, sep)] for a one-byte separator: the text before the
    first [sep], the text after it, and whether [sep] was found. *)
Fixpoint Cut (s : string) (sep : ascii) : string * string * bool :=
  match s with
  | EmptyString => (EmptyString, EmptyString, false)
  | String a s' =>
      if Ascii.eqb a sep then (EmptyString, s', true)
      else let '(b, r, f) := Cut s' sep in (String a b, r, f)
  end.

(** [strings.Repeat(s, count)]: [None] is the panic on a negative
    count or on a result longer than an [int] can count. *)
Definition Repeat (s : string) (count : Z) : option string :=
  if (count <? 0) || (2 ^ 63 <=? Z.of_nat (String.length s) * count)
  then None
  else Some (String.concat EmptyString (repeat s (Z.to_nat count))).

(** [strings.ReplaceAll(s, old, new)] for a non-empty [old], as in the
    calls of the repository: the occurrences of [old] are replaced from
    left to right, without overlap.  The argument [skip] counts the bytes
    of the occurrence being replaced that are still to pass over. *)
Fixpoint ReplaceAll_from (skip : nat) (s old new : string) : string :=
  match s with
  | EmptyString => EmptyString
  | String a s' =>
      match skip with
      | S skip' => ReplaceAll_from skip' s' old new
      | O =>
          if HasPrefix s old
          then String.append new
                 (ReplaceAll_from (String.length old - 1) s' old new)
          else String a (ReplaceAll_from O s' old new)
      end
  end.

Definition ReplaceAll (s old new : string) : string :=
  ReplaceAll_from O s old new.

End Strings.

(* ================================================================== *)
(** * Package [net/url] *)

Module url.

(** The fields of [url.URL]. *)
Record URL : Type := mkURL {
  Scheme : string;
  Opaque : string;
  User : option string;
  Host : string;
  Path : string;
  RawPath : string;
  OmitHost : bool;
  ForceQuery : bool;
  RawQuery : string;
  Fragment : string;
  RawFragment : string
}.

(** [u.Fragment = f] on a copy of [u]. *)
Definition set_Fragment (u : URL) (f : string) : URL :=
  mkURL (Scheme u) (Opaque u) (User u) (Host u) (Path u) (RawPath u)
        (OmitHost u) (ForceQuery u) (RawQuery u) f (RawFragment u).

(** [u.Path = p] on a copy of [u]. *)
Definition set_Path (u : URL) (p : string) : URL :=
  mkURL (Scheme u) (Opaque u) (User u) (Host u) p (RawPath u)
        (OmitHost u) (ForceQuery u) (RawQuery u) (Fragment u) (RawFragment u).

End url.

(** What the repository uses of [net/url]:
    [url.Parse] ([None] is a parse error), [URL.String] and
    [URL.ResolveReference]. *)
Class NetURL : Type := {
  url_Parse : string -> option url.URL;
  url_String : url.URL -> string;
  url_ResolveReference : url.URL -> url.URL -> url.URL
}.

(* ================================================================== *)
(** * Package [golang.org/x/net/html]: the parsed document *)

Module html.

Inductive NodeType : Type :=
| ErrorNode | TextNode | DocumentNode | ElementNode | CommentNode
| DoctypeNode.

Definition NodeType_eqb (a b : NodeType) : bool :=
  match a, b with
  | ErrorNode, ErrorNode | TextNode, TextNode
  | DocumentNode, DocumentNode | ElementNode, ElementNode
  | CommentNode, CommentNode | DoctypeNode, DoctypeNode => true
  | _, _ => false
  end.

Record Attribute : Type := mkAttr { Key : string; Val : string }.

(** [html.Node]; the [FirstChild]/[NextSibling] chain is the list of
    children. *)
Inductive Node : Type :=
| mkNode (Type_ : NodeType) (Data : string) (Attr : list Attribute)
         (children : list Node).

Definition Type_ (n : Node) : NodeType :=
  match n with mkNode t _ _ _ => t end.
Definition Data (n : Node) : string :=
  match n with mkNode _ d _ _ => d end.
Definition Attr (n : Node) : list Attribute :=
  match n with mkNode _ _ a _ => a end.
Definition children (n : Node) : list Node :=
  match n with mkNode _ _ _ c => c end.

Definition is_element (n : Node) (tag : string) : bool :=
  NodeType_eqb (Type_ n) ElementNode && String.eqb (Data n) tag.

End html.

(* ================================================================== *)
(** * Go [int]: 64-bit two's complement *)

Definition int_wrap (z : Z) : Z := (z + 2 ^ 63) mod 2 ^ 64 - 2 ^ 63.

Definition int_add (a b : Z) : Z := int_wrap (a + b).

(* ================================================================== *)
(** * Package [node] *)

Module node.

(** A [*WebNode]: the index of the node in the arena. *)
Abbreviation ptr := nat.

Record WebNode : Type := mkWebNode {
  URL : option url.URL;
  Title : string;
  ContentType : string;
  Children : list ptr;
  Parent : option ptr;
  Depth : Z;
  Metadata : gmap string string
}.

(** The arena. *)
Abbreviation heap := (list WebNode).

Definition set_Children (n : WebNode) (cs : list ptr) : WebNode :=
  mkWebNode (URL n) (Title n) (ContentType n) cs (Parent n) (Depth n)
            (Metadata n).

Definition set_Title (n : WebNode) (t : string) : WebNode :=
  mkWebNode (URL n) t (ContentType n) (Children n) (Parent n) (Depth n)
            (Metadata n).

Section with_url.
Context {U : NetURL}.

(** [NewWebNode]: the new node is allocated at the end of the arena. *)
Definition NewWebNode (h : heap) (urlStr : string) (parent : option ptr)
  : result ptr * heap :=
  match url_Parse urlStr with
  | None => (Err (ErrMsg "parse"), h)
  | Some parsedURL =>
      let depth :=
        match parent with
        | None => Ok 0
        | Some p =>
            match h !! p with
            | Some pn => Ok (int_add (Depth pn) 1)
            | None => Fault
            end
        end in
      match depth with
      | Ok depth =>
          (Ok (length h),
           h ++ [mkWebNode (Some parsedURL) "" "text/html" [] parent
                           depth ∅])
      | Err e => (Err e, h)
      | Fault => (Fault, h)
      end
  end.

(** [n.AddChild(child)]. *)
Definition AddChild (h : heap) (n : ptr) (child : option ptr)
  : result unit * heap :=
  match child with
  | None => (Ok tt, h)
  | Some c =>
      match h !! n with
      | Some nd =>
          (Ok tt, <[n := set_Children nd (Children nd ++ [c])]> h)
      | None => (Fault, h)
      end
  end.

(** [n.URLWithoutFragment()]. *)
Definition URLWithoutFragment (n : WebNode) : string :=
  match URL n with
  | None => ""
  | Some u => url_String (url.set_Fragment u "")
  end.

End with_url.

(** ** The path helpers *)

(** The loop of [trimRight], [n] being [end + 1]: [end] goes down while
    [s[end] == c]. *)
Fixpoint trimRight_end (s : string) (c : ascii) (n : nat) : nat :=
  match n with
  | O => O
  | S end_ =>
      match String.get end_ s with
      | Some a => if Ascii.eqb a c then trimRight_end s c end_ else n
      | None => n
      end
  end.

Definition trimRight (s : string) (c : ascii) : string :=
  if (String.length s =? 0)%nat then s
  else String.substring 0 (trimRight_end s c (String.length s)) s.

(** [trimLeft]: the loop moves [start] up while [s[start] == c]; the
    argument is [s[start:]]. *)
Fixpoint trimLeft (s : string) (c : ascii) : string :=
  match s with
  | EmptyString => EmptyString
  | String a s' => if Ascii.eqb a c then trimLeft s' c else s
  end.

Definition trimRightSlash (s : string) : string := trimRight s "/".

Definition trimLeftSlash (s : string) : string := trimLeft s "/".

(** The slice expression [s[n:]] for [0 <= n <= len(s)]. *)
Definition slice_from (s : string) (n : nat) : string :=
  String.substring n (String.length s - n) s.

Definition isPathPrefixed (path prefix : string) : bool :=
  if String.eqb prefix "" then true
  else if (String.length path <? String.length prefix)%nat then false
  else String.eqb (String.substring 0 (String.length prefix) path) prefix.

(** The loop of [getParentPath], [n] being [i + 1]: the index of the
    last [/] below [n], or -1. *)
Fixpoint lastSlash (path : string) (n : nat) : Z :=
  match n with
  | O => -1
  | S i =>
      match String.get i path with
      | Some a => if Ascii.eqb a "/" then Z.of_nat i else lastSlash path i
      | None => lastSlash path i
      end
  end.

Definition getParentPath (path : string) : string :=
  let lastSlash := lastSlash path (String.length path) in
  if lastSlash <? 0 then "/" else Strings.slice_to path lastSlash.

(** The loop of [countPathSegments]: the number of [/] in the path; it
    is at most [len(path)], so the additions do not wrap. *)
Fixpoint count_slashes (path : string) : Z :=
  match path with
  | EmptyString => 0
  | String a path' =>
      (if Ascii.eqb a "/" then 1 else 0) + count_slashes path'
  end.

Definition countPathSegments (path : string) : Z :=
  if String.eqb path "" then 0
  else
    let count := count_slashes path in
    if (0 <? String.length path)%nat
       && negb (match String.get (String.length path - 1) path with
                | Some a => Ascii.eqb a "/"
                | None => false
                end)
    then count + 1
    else count.

(** [n.IsSameOrNextLevel(other)]; the slices [targetPath[len(prefix):]]
    are taken where [isPathPrefixed] holds, and are in range there. *)
Definition IsSameOrNextLevel (n : WebNode) (other : option url.URL) : bool :=
  match URL n, other with
  | Some nURL, Some other =>
      if negb (String.eqb (url.Host nURL) (url.Host other)) then false
      else
        let basePath := trimRightSlash (url.Path nURL) in
        let targetPath := trimRightSlash (url.Path other) in
        let parentPath := getParentPath basePath in
        if isPathPrefixed targetPath parentPath
           && (countPathSegments
                 (trimLeftSlash
                    (slice_from targetPath (String.length parentPath)))
               =? 0)
        then true
        else if isPathPrefixed targetPath basePath
        then countPathSegments
               (trimLeftSlash
                  (slice_from targetPath (String.length basePath)))
             =? 0
        else false
  | _, _ => false
  end.

Section anchors.
Context {U : NetURL}.

(** [n.IsAnchorOfSamePage(other)]. *)
Definition IsAnchorOfSamePage (n : WebNode) (other : option url.URL) : bool :=
  match URL n, other with
  | Some nURL, Some other =>
      String.eqb (url_String (url.set_Fragment other ""))
                 (url_String (url.set_Fragment nURL ""))
      && negb (String.eqb (url.Fragment other) "")
  | _, _ => false
  end.

End anchors.

End node.

(* ================================================================== *)
(** * Package [tree] *)

Module tree.

Record WebTree : Type := mkWebTree {
  RootNode : option node.ptr;
  MaxDepth : Z;
  VisitedURLs : gmap string bool
}.

(** The index expression [m[k]] on a [map[string]bool]: [false] when the
    key is absent. *)
Definition map_get (m : gmap string bool) (k : string) : bool :=
  default false (m !! k).

Definition set_VisitedURLs (t : WebTree) (v : gmap string bool) : WebTree :=
  mkWebTree (RootNode t) (MaxDepth t) v.

Section with_url.
Context {U : NetURL}.

Definition NewWebTree (h : node.heap) (rootURL : string) (maxDepth : Z)
  : result WebTree * node.heap :=
  match node.NewWebNode h rootURL None with
  | (Ok rootNode, h') => (Ok (mkWebTree (Some rootNode) maxDepth ∅), h')
  | (Err e, h') => (Err (ErrWrap "failed to create root node" e), h')
  | (Fault, h') => (Fault, h')
  end.

(** [normalizeURL]: the key of the visited set. *)
Definition normalizeURL (u : option url.URL) : string :=
  match u with
  | None => ""
  | Some u =>
      let result := url.set_Fragment u "" in
      let path := Strings.TrimRight (url.Path result) "/" in
      url_String (url.set_Path result path)
  end.

(** [AddURL]: [Ok None] is the pair (nil, nil) of the source,
    [Ok (Some p)] the pair (p, nil), [Err e] the pair (nil, e). *)
Definition AddURL (h : node.heap) (t : WebTree) (urlStr : string)
           (parentNode : option node.ptr)
  : result (option node.ptr) * node.heap * WebTree :=
  match url_Parse urlStr with
  | None => (Err (ErrMsg "parse"), h, t)
  | Some parsedURL =>
      let urlKey := normalizeURL (Some parsedURL) in
      if map_get (VisitedURLs t) urlKey then (Ok None, h, t)
      else
        match node.NewWebNode h urlStr parentNode with
        | (Err e, h1) => (Err e, h1, t)
        | (Fault, h1) => (Fault, h1, t)
        | (Ok newNode, h1) =>
            let '(r, h2) :=
              match parentNode with
              | Some p => node.AddChild h1 p (Some newNode)
              | None => (Ok tt, h1)
              end in
            match r with
            | Ok _ =>
                (Ok (Some newNode), h2,
                 set_VisitedURLs t (<[urlKey := true]> (VisitedURLs t)))
            | Err e => (Err e, h2, t)
            | Fault => (Fault, h2, t)
            end
        end
  end.

Definition IsVisited (t : WebTree) (urlStr : string) : bool :=
  match url_Parse urlStr with
  | None => false
  | Some parsedURL =>
      map_get (VisitedURLs t) (normalizeURL (Some parsedURL))
  end.

Definition IsAllowedDepth (t : WebTree) (depth : Z) : bool :=
  (MaxDepth t <=? 0) || (depth <=? MaxDepth t).

(** The comparison of [findNodeRecursive]: both URLs rendered with the
    fragment cleared. *)
Definition same_page (current : node.WebNode) (target : url.URL) : bool :=
  match node.URL current with
  | Some currentURL =>
      String.eqb (url_String (url.set_Fragment currentURL ""))
                 (url_String (url.set_Fragment target ""))
  | None => false
  end.

(** [findNodeRecursive]; the recursion follows pointers, so it is
    bounded by [fuel], and [Fault] is returned when the bound is
    reached. *)
Fixpoint findNodeRecursive (fuel : nat) (h : node.heap)
         (current : option node.ptr) (target : url.URL)
  : result (option node.ptr) :=
  match fuel with
  | O => Fault
  | S fuel' =>
      match current with
      | None => Ok None
      | Some c =>
          match h !! c with
          | None => Fault
          | Some cur =>
              if same_page cur target then Ok (Some c)
              else
                (fix range (cs : list node.ptr)
                   : result (option node.ptr) :=
                   match cs with
                   | [] => Ok None
                   | child :: cs' =>
                       match findNodeRecursive fuel' h (Some child)
                                               target with
                       | Ok (Some found) => Ok (Some found)
                       | Ok None => range cs'
                       | Err e => Err e
                       | Fault => Fault
                       end
                   end) (node.Children cur)
          end
      end
  end.

(** [FindNode]; a tree of [length h] nodes is never deeper than
    [length h]. *)
Definition FindNode (h : node.heap) (t : WebTree) (urlStr : string)
  : result (option node.ptr) :=
  match url_Parse urlStr with
  | None => Ok None
  | Some targetURL =>
      findNodeRecursive (length h) h (RootNode t) targetURL
  end.

(** [printNode]: the lines printed, in order; the recursion follows
    pointers and is bounded as in [findNodeRecursive]. *)
Fixpoint printNode (fuel : nat) (h : node.heap) (n : option node.ptr)
         (depth : Z) : result (list string) :=
  match fuel with
  | O => Fault
  | S fuel' =>
      match n with
      | None => Ok []
      | Some p =>
          match h !! p with
          | None => Fault
          | Some nd =>
              match Strings.Repeat "  " depth with
              | None => Fault
              | Some indent =>
                  let line :=
                    match node.URL nd with
                    | Some u =>
                        String.concat EmptyString
                          [indent; "- "; url_String u]
                    | None => String.append indent "- [Invalid URL]"
                    end in
                  match
                    (fix range (cs : list node.ptr)
                       : result (list string) :=
                       match cs with
                       | [] => Ok []
                       | child :: cs' =>
                           match printNode fuel' h (Some child)
                                           (int_add depth 1) with
                           | Ok ls =>
                               match range cs' with
                               | Ok ls' => Ok (ls ++ ls')
                               | r => r
                               end
                           | r => r
                           end
                       end) (node.Children nd)
                  with
                  | Ok ls => Ok (line :: ls)
                  | r => r
                  end
              end
          end
      end
  end.

(** [Print]: the lines of the tree, each without its final newline. *)
Definition Print (h : node.heap) (t : WebTree) : result (list string) :=
  printNode (length h) h (RootNode t) 0.

End with_url.

End tree.

(* ================================================================== *)
(** * The world outside the process *)

(** [http_NewRequest] and [http_Do] are the two calls of [net/http] in
    [FetchPage]; the reply to a request may depend on when it is made, so
    [http_Do] takes the number of steps the run has made so far.
    [http_Do] answers with the status code and the body. *)
Class World : Type := {
  http_NewRequest : string -> reply unit;
  http_Do : nat -> string -> reply (Z * string);
  html_Parse : string -> reply html.Node;
  html_Render : html.Node -> reply string;
  time_Now : nat -> string;
  filepath_Dir : string -> string;
  os_MkdirAll : string -> reply unit;
  xml_MarshalIndent :
    string -> string -> list (string * string * string * string * string
                              * list string) -> reply string;
  os_WriteFile : nat -> string -> string -> reply unit
}.

(** What the process does that can be seen from outside: the pages it
    requests and the lines it prints. *)
Inductive event : Type :=
| FetchPage_call (urlStr : string)
| Print_href (cleanLink : string)
| Print_filtered_duplicated (link : string)
| Print_filtered_not_parent (link : string)
| Print_current_path (p : string)
| Print_parent_path (p : string)
| Print_link_path (p : string)
| Print_downloading (rootURL : string)
| Print_found_links (n : nat)
| Print_failed_fetch (urlStr : string) (e : error)
| Print_failed_extract (urlStr : string) (e : error)
| Print_failed_save (urlStr : string) (e : error)
| Print_failed_index (e : error)
| Print_cleanup_error (e : error).

(* ================================================================== *)
(** * Package [crawler] *)

Module crawler.

Section with_world.
Context {U : NetURL} {W : World}.

(** [FetchPage], made at step [now] of the run. *)
Definition FetchPage (now : nat) (urlStr : string) : reply html.Node :=
  match http_NewRequest urlStr with
  | Failed e => Failed (ErrWrap "failed to create HTTP request" e)
  | Done _ =>
      match http_Do now urlStr with
      | Failed e => Failed (ErrWrap "failed to fetch the URL" e)
      | Done (StatusCode, Body) =>
          if negb (StatusCode =? 200)
          then Failed (ErrMsg "received non-200 response")
          else
            match html_Parse Body with
            | Failed e => Failed (ErrWrap "failed to parse HTML" e)
            | Done doc => Done doc
            end
      end
  end.

(** The loop over [n.Attr] in [ExtractLinks]: an [href] that does not
    parse is passed over, the first one that parses ends the loop. *)
Fixpoint first_href (baseURL : url.URL) (attrs : list html.Attribute)
  : list string :=
  match attrs with
  | [] => []
  | attr :: rest =>
      if String.eqb (html.Key attr) "href" then
        match url_Parse (html.Val attr) with
        | None => first_href baseURL rest
        | Some hrefURL =>
            [url_String (url_ResolveReference baseURL hrefURL)]
        end
      else first_href baseURL rest
  end.

(** [extractFunc]: the links appended while visiting [n]. *)
Fixpoint extractFunc (baseURL : url.URL) (n : html.Node) : list string :=
  match n with
  | html.mkNode ty data attrs cs =>
      (if html.NodeType_eqb ty html.ElementNode && String.eqb data "a"
       then first_href baseURL attrs else [])
      ++ flat_map (extractFunc baseURL) cs
  end.

Definition ExtractLinks (doc : html.Node) (baseURLStr : string)
  : reply (list string) :=
  match url_Parse baseURLStr with
  | None => Failed (ErrMsg "invalid base URL")
  | Some baseURL => Done (extractFunc baseURL doc)
  end.

(** [extractTitleFunc]: the value of [title] when the visit of [n]
    returns, [title] being empty when it starts. *)
Fixpoint extractTitleFunc (n : html.Node) : string :=
  match n with
  | html.mkNode ty data attrs cs =>
      let found :=
        if html.NodeType_eqb ty html.ElementNode && String.eqb data "title"
        then
          match cs with
          | c :: _ =>
              if html.NodeType_eqb (html.Type_ c) html.TextNode
              then Some (html.Data c) else None
          | [] => None
          end
        else None in
      match found with
      | Some title => title
      | None =>
          (fix range (cs : list html.Node) : string :=
             match cs with
             | [] => ""
             | child :: cs' =>
                 let title := extractTitleFunc child in
                 if negb (String.eqb title "") then title else range cs'
             end) cs
      end
  end.

Definition ExtractTitle (doc : html.Node) : string := extractTitleFunc doc.

Definition IsSameDomain (url1 url2 : string) : bool :=
  match url_Parse url1, url_Parse url2 with
  | Some u1, Some u2 => String.eqb (url.Host u1) (url.Host u2)
  | _, _ => false
  end.

End with_world.

End crawler.

(* ================================================================== *)
(** * Package [extractor] *)

Module extractor.

Section with_world.
Context {W : World}.

(** [findNode]: the first element named [tagName], in document order. *)
Fixpoint findNode (n : html.Node) (tagName : string) : option html.Node :=
  if html.is_element n tagName then Some n
  else
    match n with
    | html.mkNode _ _ _ cs =>
        (fix range (cs : list html.Node) : option html.Node :=
           match cs with
           | [] => None
           | child :: cs' =>
               match findNode child tagName with
               | Some found => Some found
               | None => range cs'
               end
           end) cs
    end.

Definition removable (tagNames : list string) (child : html.Node) : bool :=
  html.NodeType_eqb (html.Type_ child) html.ElementNode
  && existsb (String.eqb (html.Data child)) tagNames.

(** [removeNodes]: the node [n] after the call. *)
Fixpoint removeNodes (n : html.Node) (tagNames : list string) : html.Node :=
  match n with
  | html.mkNode ty data attrs cs =>
      html.mkNode ty data attrs
        (List.filter (fun child => negb (removable tagNames child))
                     (List.map (fun child => removeNodes child tagNames) cs))
  end.

(** The document after a function has been applied, in place, to the
    node that [findNode] returns. *)
Fixpoint update_found (n : html.Node) (tagName : string)
         (f : html.Node -> html.Node) : option html.Node :=
  if html.is_element n tagName then Some (f n)
  else
    match n with
    | html.mkNode ty data attrs cs =>
        option_map (html.mkNode ty data attrs)
          ((fix range (cs : list html.Node) : option (list html.Node) :=
              match cs with
              | [] => None
              | child :: cs' =>
                  match update_found child tagName f with
                  | Some child' => Some (child' :: cs')
                  | None => option_map (cons child) (range cs')
                  end
              end) cs)
    end.

Definition renderNode (n : html.Node) : string :=
  match html_Render n with
  | Done s => s
  | Failed _ => ""
  end.

Definition unwanted : list string :=
  ["nav"; "header"; "footer"; "aside"; "script"; "style"; "iframe";
   "noscript"].

(** [ExtractContent]: the content, and the document as the call leaves
    it (the unwanted elements are removed from its body in place). *)
Definition ExtractContent (doc : html.Node) : reply string * html.Node :=
  match findNode doc "body" with
  | None => (Failed (ErrMsg "no body tag found in HTML"), doc)
  | Some body =>
      let body' := removeNodes body unwanted in
      (Done (renderNode body'),
       default doc (update_found doc "body"
                                 (fun b => removeNodes b unwanted)))
  end.

(** [findNodes]: the elements named [tagName], in document order. *)
Fixpoint findNodes (n : html.Node) (tagName : string) : list html.Node :=
  (if html.is_element n tagName then [n] else [])
  ++ match n with
     | html.mkNode _ _ _ cs =>
         flat_map (fun child => findNodes child tagName) cs
     end.

(** The loop of [ExtractMetadata] over the attributes of a [meta]
    element: the values of [name] and [content] after it. *)
Definition meta_entry (attrs : list html.Attribute) : string * string :=
  fold_left
    (fun (nc : string * string) (attr : html.Attribute) =>
       if String.eqb (html.Key attr) "name"
          || String.eqb (html.Key attr) "property"
       then (html.Val attr, snd nc)
       else if String.eqb (html.Key attr) "content"
       then (fst nc, html.Val attr)
       else nc)
    attrs ("", "").

(** [ExtractMetadata]: the map returned. *)
Definition ExtractMetadata (doc : html.Node) : gmap string string :=
  let metadata : gmap string string :=
    match findNode doc "title" with
    | Some titleNode =>
        match html.children titleNode with
        | c :: _ => <["title" := html.Data c]> ∅
        | [] => ∅
        end
    | None => ∅
    end in
  fold_left
    (fun (metadata : gmap string string) (meta : html.Node) =>
       let '(name, content) := meta_entry (html.Attr meta) in
       if negb (String.eqb name "") && negb (String.eqb content "")
       then <[name := content]> metadata
       else metadata)
    (findNodes doc "meta") metadata.

(** The byte 0x0A. *)
Definition nl : string := String (Ascii.ascii_of_nat 10) EmptyString.

(** The replacements of [ConvertToMarkdown], in their order. *)
Definition replacements : list (string * string) :=
  [("<h1>", "# "); ("</h1>", String.append nl nl);
   ("<h2>", "## "); ("</h2>", String.append nl nl);
   ("<h3>", "### "); ("</h3>", String.append nl nl);
   ("<h4>", "#### "); ("</h4>", String.append nl nl);
   ("<h5>", "##### "); ("</h5>", String.append nl nl);
   ("<h6>", "###### "); ("</h6>", String.append nl nl);
   ("<p>", ""); ("</p>", String.append nl nl);
   ("<strong>", "**"); ("</strong>", "**");
   ("<b>", "**"); ("</b>", "**");
   ("<em>", "_"); ("</em>", "_");
   ("<i>", "_"); ("</i>", "_");
   ("<code>", "`"); ("</code>", "`");
   ("<pre>", String.append "```" nl);
   ("</pre>", String.concat EmptyString [nl; "```"; nl]);
   ("<blockquote>", "> "); ("</blockquote>", String.append nl nl);
   ("<ul>", nl); ("</ul>", nl);
   ("<ol>", nl); ("</ol>", nl);
   ("<li>", "- "); ("</li>", nl)].

Definition ConvertToMarkdown (htmlContent : string) : string :=
  fold_left (fun md r => Strings.ReplaceAll md (fst r) (snd r))
            replacements htmlContent.

End with_world.

End extractor.

(* ================================================================== *)
(** * Package [storage] *)

Module storage.

Record XMLPage : Type := mkXMLPage {
  URL : string;
  Title : string;
  Path : string;
  LastFetched : string;
  Content : string;
  Links : list string
}.

Record XMLDocument : Type := mkXMLDocument {
  RootURL : string;
  CreatedAt : string;
  Pages : list XMLPage;
  pagesByURL : gmap string Z
}.

Record XMLStorage : Type := mkXMLStorage {
  FilePath : string;
  Document : XMLDocument
}.

Definition set_Document (s : XMLStorage) (d : XMLDocument) : XMLStorage :=
  mkXMLStorage (FilePath s) d.

Definition page_fields (p : XMLPage)
  : string * string * string * string * string * list string :=
  (URL p, Title p, Path p, LastFetched p, Content p, Links p).

(** The byte 0x22. *)
Definition quote : string := String (Ascii.ascii_of_nat 34) EmptyString.

Definition newline : string := String (Ascii.ascii_of_nat 10) EmptyString.

(** [xml.Header]. *)
Definition xml_Header : string :=
  String.concat EmptyString
    ["<?xml version="; quote; "1.0"; quote; " encoding="; quote; "UTF-8";
     quote; "?>"; newline].

Definition prompt_reference_tag : string :=
  String.append
    "<!-- PROMPT_REFERENCE_DATA: Web documentation harvested by DocHarvester, intended for use as reference material in prompts and context windows -->"
    newline.

Section with_world.
Context {U : NetURL} {W : World}.

Definition NewXMLStorage (now : nat) (filePath rootURL : string)
  : reply XMLStorage :=
  match os_MkdirAll (filepath_Dir filePath) with
  | Failed e => Failed (ErrWrap "failed to create directory" e)
  | Done _ =>
      Done (mkXMLStorage filePath
              (mkXMLDocument rootURL (time_Now now) [] ∅))
  end.

(** The loop of [SaveNodeContent] over the children of the node. *)
Fixpoint child_links (h : node.heap) (cs : list node.ptr)
  : result (list string) :=
  match cs with
  | [] => Ok []
  | child :: cs' =>
      match h !! child with
      | None => Fault
      | Some c =>
          match child_links h cs' with
          | Ok links =>
              Ok (match node.URL c with
                  | Some u => url_String u :: links
                  | None => links
                  end)
          | r => r
          end
      end
  end.

(** The assignment [Pages[idx] = page]; an index out of range panics. *)
Definition store_page (pages : list XMLPage) (idx : Z) (page : XMLPage)
  : result (list XMLPage) :=
  if (0 <=? idx) && (idx <? Z.of_nat (length pages))
  then Ok (<[Z.to_nat idx := page]> pages)
  else Fault.

(** [SaveNodeContent], called at step [now] of the run. *)
Definition SaveNodeContent (h : node.heap) (now : nat) (s : XMLStorage)
           (webNode : option node.ptr) (content : string)
  : result unit * XMLStorage :=
  match webNode with
  | None => (Err (ErrMsg "invalid node or URL"), s)
  | Some p =>
      match h !! p with
      | None => (Fault, s)
      | Some n =>
          match node.URL n with
          | None => (Err (ErrMsg "invalid node or URL"), s)
          | Some u =>
              let urlStr := url_String u in
              let path := url.Path u in
              match child_links h (node.Children n) with
              | Err e => (Err e, s)
              | Fault => (Fault, s)
              | Ok links =>
                  let page :=
                    mkXMLPage urlStr (node.Title n) path (time_Now now)
                              content links in
                  let d := Document s in
                  match pagesByURL d !! urlStr with
                  | Some idx =>
                      match store_page (Pages d) idx page with
                      | Ok pages =>
                          (Ok tt,
                           set_Document s
                             (mkXMLDocument (RootURL d) (CreatedAt d)
                                            pages (pagesByURL d)))
                      | Err e => (Err e, s)
                      | Fault => (Fault, s)
                      end
                  | None =>
                      let pages := Pages d ++ [page] in
                      (Ok tt,
                       set_Document s
                         (mkXMLDocument (RootURL d) (CreatedAt d) pages
                            (<[urlStr := Z.of_nat (length pages) - 1]>
                               (pagesByURL d))))
                  end
              end
          end
      end
  end.

(** [SaveToFile]: the file system maps a path to the bytes written. *)
Definition SaveToFile (now : nat) (s : XMLStorage)
           (files : gmap string string)
  : reply unit * gmap string string :=
  let d := Document s in
  match xml_MarshalIndent (RootURL d) (CreatedAt d)
                          (List.map page_fields (Pages d)) with
  | Failed e => (Failed (ErrWrap "failed to marshal XML" e), files)
  | Done xmlData =>
      let xmlData :=
        String.append xml_Header
                      (String.append prompt_reference_tag xmlData) in
      match os_WriteFile now (FilePath s) xmlData with
      | Failed e => (Failed (ErrWrap "failed to write XML file" e), files)
      | Done _ => (Done tt, <[FilePath s := xmlData]> files)
      end
  end.

Definition CreateIndexFile (s : XMLStorage) (path : string) : reply unit :=
  Done tt.

End with_world.

End storage.

(* ================================================================== *)
(** * Package [harvester] *)

Module harvester.

(** The two implementations of the interface [Storage]. *)
Inductive Storage : Type :=
| NullStorage
| XMLStorage (s : storage.XMLStorage).

(** [HarvesterContext]; the crawler and the extractor hold no state that
    changes and are not represented. *)
Record HarvesterContext : Type := mkContext {
  WebTree : tree.WebTree;
  Storage_ : Storage;
  RootURL : string;
  BaseURL : string;
  MaxDepth : Z;
  Debug : bool;
  DownloadAll : bool;
  PrintedURLs : gmap string bool
}.

(** The context together with what it points to and what it acts on: the
    arena of nodes, the events so far, the number of steps made (requests
    and readings of the clock), and the file system. *)
Record State : Type := mkState {
  hc : HarvesterContext;
  mem : node.heap;
  trace : list event;
  clock : nat;
  files : gmap string string
}.

Definition set_hc (s : State) (c : HarvesterContext) : State :=
  mkState c (mem s) (trace s) (clock s) (files s).
Definition set_mem (s : State) (h : node.heap) : State :=
  mkState (hc s) h (trace s) (clock s) (files s).
Definition emit (s : State) (es : list event) : State :=
  mkState (hc s) (mem s) (trace s ++ es) (clock s) (files s).
Definition tick (s : State) : State :=
  mkState (hc s) (mem s) (trace s) (S (clock s)) (files s).
Definition set_files (s : State) (f : gmap string string) : State :=
  mkState (hc s) (mem s) (trace s) (clock s) f.

Definition set_WebTree (c : HarvesterContext) (t : tree.WebTree)
  : HarvesterContext :=
  mkContext t (Storage_ c) (RootURL c) (BaseURL c) (MaxDepth c) (Debug c)
            (DownloadAll c) (PrintedURLs c).
Definition set_Storage (c : HarvesterContext) (st : Storage)
  : HarvesterContext :=
  mkContext (WebTree c) st (RootURL c) (BaseURL c) (MaxDepth c) (Debug c)
            (DownloadAll c) (PrintedURLs c).
Definition set_DownloadAll (c : HarvesterContext) (b : bool)
  : HarvesterContext :=
  mkContext (WebTree c) (Storage_ c) (RootURL c) (BaseURL c) (MaxDepth c)
            (Debug c) b (PrintedURLs c).
Definition set_PrintedURLs (c : HarvesterContext) (m : gmap string bool)
  : HarvesterContext :=
  mkContext (WebTree c) (Storage_ c) (RootURL c) (BaseURL c) (MaxDepth c)
            (Debug c) (DownloadAll c) m.

(** The keyword of the fallback rule of [isParentURL]. *)
Definition topicKeyword : string := "prompt-engineering".

Section with_world.
Context {U : NetURL} {W : World}.

Definition NewExplorerContext (rootURL : string) (maxDepth : Z)
           (debug : bool) : result State :=
  match tree.NewWebTree [] rootURL maxDepth with
  | (Err e, _) => Err (ErrWrap "failed to create web tree" e)
  | (Fault, _) => Fault
  | (Ok webTree, h) =>
      Ok (mkState (mkContext webTree NullStorage rootURL rootURL maxDepth
                             debug false ∅)
                  h [] 0%nat ∅)
  end.

Definition NewXMLDownloaderContext (rootURL xmlFilePath baseURL : string)
           (maxDepth : Z) (debug : bool) : result State :=
  match tree.NewWebTree [] rootURL maxDepth with
  | (Err e, _) => Err (ErrWrap "failed to create web tree" e)
  | (Fault, _) => Fault
  | (Ok webTree, h) =>
      match storage.NewXMLStorage 0 xmlFilePath rootURL with
      | Failed e => Err (ErrWrap "failed to create XML storage" e)
      | Done s =>
          Ok (mkState (mkContext webTree (XMLStorage s) rootURL baseURL
                                 maxDepth debug false ∅)
                      h [] 1%nat ∅)
      end
  end.

Definition NewDownloaderContext (rootURL outputFilePath baseURL : string)
           (maxDepth : Z) (debug : bool) : result State :=
  NewXMLDownloaderContext rootURL outputFilePath baseURL maxDepth debug.

(** [hc.Crawler.FetchPage(urlStr)]: the request is an event and a step
    of the run. *)
Definition FetchPage (s : State) (urlStr : string)
  : reply html.Node * State :=
  (crawler.FetchPage (clock s) urlStr,
   tick (emit s [FetchPage_call urlStr])).

(** [hc.Storage.SaveNodeContent(node, content)]. *)
Definition SaveNodeContent (s : State) (webNode : option node.ptr)
           (content : string) : result unit * State :=
  match Storage_ (hc s) with
  | NullStorage => (Ok tt, s)
  | XMLStorage x =>
      let '(r, x') :=
        storage.SaveNodeContent (mem s) (clock s) x webNode content in
      (r, tick (set_hc s (set_Storage (hc s) (XMLStorage x'))))
  end.

(** [hc.Storage.CreateIndexFile(path)]. *)
Definition CreateIndexFile (s : State) (path : string) : reply unit :=
  match Storage_ (hc s) with
  | NullStorage => Done tt
  | XMLStorage x => storage.CreateIndexFile x path
  end.

(** [n.Title = title]; [None] when the pointer is not in the arena. *)
Definition assign_Title (s : State) (n : node.ptr) (title : string)
  : option State :=
  match mem s !! n with
  | Some nd => Some (set_mem s (<[n := node.set_Title nd title]> (mem s)))
  | None => None
  end.

(** [isParentURL]: the answer and the lines printed under [Debug]. *)
Definition isParentURL (c : HarvesterContext) (link : string)
  : bool * list event :=
  match url_Parse (RootURL c) with
  | None => (false, [])
  | Some currentURL =>
      match url_Parse link with
      | None => (false, [])
      | Some linkURL =>
          if negb (String.eqb (url.Host currentURL) (url.Host linkURL))
          then (false, [])
          else
            let currentPath :=
              Strings.TrimRight (url.Path currentURL) "/" in
            let linkPath := Strings.TrimRight (url.Path linkURL) "/" in
            let lastSlash := Strings.LastIndex currentPath "/" in
            if lastSlash =? -1 then (false, [])
            else
              let parentPath := Strings.slice_to currentPath lastSlash in
              let printed :=
                if Debug c
                then [Print_current_path currentPath;
                      Print_parent_path parentPath;
                      Print_link_path linkPath]
                else [] in
              if String.eqb linkPath parentPath then (true, printed)
              else if Strings.Contains parentPath topicKeyword
                      && Strings.Contains linkPath topicKeyword
              then (true, printed)
              else (false, printed)
      end
  end.

Definition removeFragment (c : HarvesterContext) (linkStr : string)
  : string :=
  match url_Parse linkStr with
  | None => linkStr
  | Some parsedURL => url_String (url.set_Fragment parsedURL "")
  end.

(** The report of an accepted link, the same in both modes. *)
Definition report (s : State) (cleanLink : string) : State :=
  if negb (tree.map_get (PrintedURLs (hc s)) cleanLink)
  then
    set_hc (emit s [Print_href cleanLink])
           (set_PrintedURLs (hc s)
              (<[cleanLink := true]> (PrintedURLs (hc s))))
  else s.

(** The report of a rejected link, under [Debug]. *)
Definition report_filtered (s : State) (link : string) : State :=
  if Debug (hc s) then
    if tree.IsVisited (WebTree (hc s)) link
    then emit s [Print_filtered_duplicated link]
    else emit s [Print_filtered_not_parent link]
  else s.

Definition processLink (s : State) (link : string) : State :=
  let '(accepted, printed) := isParentURL (hc s) link in
  let s := emit s printed in
  if accepted then
    let cleanLink := removeFragment (hc s) link in
    report s cleanLink
  else report_filtered s link.

(** [Explore]: [Ok tt] is the nil error. *)
Definition Explore (s : State) : result unit * State :=
  let '(r, s) := FetchPage s (RootURL (hc s)) in
  match r with
  | Failed e => (Err (ErrWrap "failed to fetch the URL" e), s)
  | Done doc =>
      let title := crawler.ExtractTitle doc in
      match tree.RootNode (WebTree (hc s)) with
      | None => (Fault, s)
      | Some rootNode =>
          match assign_Title s rootNode title with
          | None => (Fault, s)
          | Some s =>
              match crawler.ExtractLinks doc (RootURL (hc s)) with
              | Failed e => (Err (ErrWrap "failed to extract links" e), s)
              | Done links => (Ok tt, fold_left processLink links s)
              end
          end
      end
  end.

(** The body of [processLinkAndDownload] under [DownloadAll]; [Ok tt]
    when the function returns. *)
Definition downloadLink (s : State) (link : string) : result unit * State :=
  match tree.FindNode (mem s) (WebTree (hc s)) (RootURL (hc s)) with
  | Err e => (Err e, s)
  | Fault => (Fault, s)
  | Ok parsedURL =>
      let '(parsedLink, h, t) :=
        tree.AddURL (mem s) (WebTree (hc s)) link parsedURL in
      let s := set_hc (set_mem s h) (set_WebTree (hc s) t) in
      match parsedLink with
      | Fault => (Fault, s)
      | Err _ | Ok None => (Ok tt, s)
      | Ok (Some p) =>
          match mem s !! p with
          | None => (Fault, s)
          | Some nd =>
              match node.URL nd with
              | None => (Ok tt, s)
              | Some u =>
                  let '(r, s) := FetchPage s (url_String u) in
                  match r with
                  | Failed e =>
                      (Ok tt, emit s [Print_failed_fetch (url_String u) e])
                  | Done doc =>
                      let title := crawler.ExtractTitle doc in
                      match assign_Title s p title with
                      | None => (Fault, s)
                      | Some s =>
                          let '(c, _) := extractor.ExtractContent doc in
                          match c with
                          | Failed e =>
                              (Ok tt,
                               emit s [Print_failed_extract
                                         (url_String u) e])
                          | Done content =>
                              let '(r, s) :=
                                SaveNodeContent s (Some p) content in
                              match r with
                              | Err e =>
                                  (Ok tt,
                                   emit s [Print_failed_save
                                             (url_String u) e])
                              | Fault => (Fault, s)
                              | Ok _ => (Ok tt, s)
                              end
                          end
                      end
                  end
              end
          end
      end
  end.

Definition processLinkAndDownload (s : State) (link : string)
  : result unit * State :=
  let '(accepted, printed) := isParentURL (hc s) link in
  let s := emit s printed in
  if accepted then
    let cleanLink := removeFragment (hc s) link in
    let s := report s cleanLink in
    if DownloadAll (hc s) then downloadLink s link else (Ok tt, s)
  else (Ok tt, report_filtered s link).

(** The loop [for _, link := range links] of [Download]. *)
Fixpoint range_links (links : list string) (s : State)
  : result unit * State :=
  match links with
  | [] => (Ok tt, s)
  | link :: rest =>
      match processLinkAndDownload s link with
      | (Ok _, s) => range_links rest s
      | (r, s) => (r, s)
      end
  end.

(** [Download]: [Ok tt] is the nil error. *)
Definition Download (s : State) : result unit * State :=
  let s := emit s [Print_downloading (RootURL (hc s))] in
  let '(r, s) := FetchPage s (RootURL (hc s)) in
  match r with
  | Failed e => (Err (ErrWrap "failed to fetch the URL" e), s)
  | Done doc =>
      let title := crawler.ExtractTitle doc in
      match tree.RootNode (WebTree (hc s)) with
      | None => (Fault, s)
      | Some rootNode =>
          match assign_Title s rootNode title with
          | None => (Fault, s)
          | Some s =>
              let '(c, doc) := extractor.ExtractContent doc in
              match c with
              | Failed e =>
                  (Err (ErrWrap "failed to extract content" e), s)
              | Done content =>
                  let '(r, s) :=
                    SaveNodeContent s (Some rootNode) content in
                  match r with
                  | Err e => (Err (ErrWrap "failed to save content" e), s)
                  | Fault => (Fault, s)
                  | Ok _ =>
                      match crawler.ExtractLinks doc (RootURL (hc s)) with
                      | Failed e =>
                          (Err (ErrWrap "failed to extract links" e), s)
                      | Done links =>
                          let s :=
                            emit s [Print_found_links (length links)] in
                          match range_links links s with
                          | (Ok _, s) =>
                              match mem s !! rootNode with
                              | None => (Fault, s)
                              | Some root =>
                                  match node.URL root with
                                  | None => (Ok tt, s)
                                  | Some u =>
                                      match CreateIndexFile s (url.Path u)
                                      with
                                      | Failed e =>
                                          (Ok tt,
                                           if Debug (hc s)
                                           then emit s
                                                  [Print_failed_index e]
                                           else s)
                                      | Done _ => (Ok tt, s)
                                      end
                                  end
                              end
                          | (r, s) => (r, s)
                          end
                      end
                  end
              end
          end
      end
  end.

(** [Cleanup]: the background task is stopped and the document is
    written once more. *)
Definition Cleanup (s : State) : State :=
  match Storage_ (hc s) with
  | NullStorage => s
  | XMLStorage x =>
      let '(r, f) := storage.SaveToFile (clock s) x (files s) in
      let s := tick (set_files s f) in
      match r with
      | Failed e => emit s [Print_cleanup_error e]
      | Done _ => s
      end
  end.

End with_world.

End harvester.

(* ================================================================== *)
(** * An instance of [NetURL] for plain URLs

    [plain.Parse], [plain.String_] and [plain.ResolveReference] follow
    [net/url] on the URLs written with letters, digits and the bytes
    [- . _ ~ / : ? # = &], whose authority is a host name without user
    information or port and whose path has no dot segment: on these
    [net/url] neither escapes nor unescapes anything.  Every other string is
    outside the instance and is not parsed.  The instance is used to
    evaluate the program on concrete URLs; the general results hold for
    every instance of [NetURL]. *)

Module plain.

Definition is_letter (c : ascii) : bool :=
  let n := nat_of_ascii c in
  ((97 <=? n) && (n <=? 122) || (65 <=? n) && (n <=? 90))%nat.

Definition is_digit (c : ascii) : bool :=
  let n := nat_of_ascii c in ((48 <=? n) && (n <=? 57))%nat.

Definition plain_byte (c : ascii) : bool :=
  is_letter c || is_digit c || Strings.IndexByte "-._~/:?#=&" c.

Fixpoint all_bytes (p : ascii -> bool) (s : string) : bool :=
  match s with
  | EmptyString => true
  | String a s' => p a && all_bytes p s'
  end.

Definition lower (c : ascii) : ascii :=
  let n := nat_of_ascii c in
  if ((65 <=? n) && (n <=? 90))%nat then ascii_of_nat (n + 32) else c.

Fixpoint ToLower (s : string) : string :=
  match s with
  | EmptyString => EmptyString
  | String a s' => String (lower a) (ToLower s')
  end.

Inductive scheme_result : Type :=
| SchemeError
| SchemeRest (scheme rest : string).

(** [getScheme]: the loop over the bytes of [rawURL], [i = 0] being
    [first]. *)
Fixpoint getScheme_loop (first : bool) (rawURL : string)
  : option scheme_result :=
  match rawURL with
  | EmptyString => None
  | String c s' =>
      if is_letter c then
        match getScheme_loop false s' with
        | Some (SchemeRest sc rest) => Some (SchemeRest (String c sc) rest)
        | r => r
        end
      else if is_digit c || Strings.IndexByte "+-." c then
        if first then None
        else
          match getScheme_loop false s' with
          | Some (SchemeRest sc rest) => Some (SchemeRest (String c sc) rest)
          | r => r
          end
      else if Ascii.eqb c ":" then
        if first then Some SchemeError
        else Some (SchemeRest EmptyString s')
      else None
  end.

Definition getScheme (rawURL : string) : scheme_result :=
  match getScheme_loop true rawURL with
  | Some r => r
  | None => SchemeRest EmptyString rawURL
  end.

Fixpoint Count (s : string) (c : ascii) : nat :=
  match s with
  | EmptyString => O
  | String a s' => ((if Ascii.eqb a c then 1 else 0) + Count s' c)%nat
  end.

Fixpoint ends_with (s : string) (c : ascii) : bool :=
  match s with
  | EmptyString => false
  | String a EmptyString => Ascii.eqb a c
  | String _ s' => ends_with s' c
  end.

Definition drop_last (s : string) : string :=
  String.substring 0 (String.length s - 1) s.

Definition drop2 (s : string) : string :=
  String.substring 2 (String.length s - 2) s.

(** The text from the first [/] on, or the empty text. *)
Fixpoint from_slash (s : string) : string :=
  match s with
  | EmptyString => EmptyString
  | String a s' => if Ascii.eqb a "/" then s else from_slash s'
  end.

Definition Parse (rawURL : string) : option url.URL :=
  if negb (all_bytes plain_byte rawURL) then None
  else
    let '(u, frag, _) := Strings.Cut rawURL "#" in
    match getScheme u with
    | SchemeError => None
    | SchemeRest scheme rest =>
        let scheme := ToLower scheme in
        let '(rest, forceQuery, rawQuery) :=
          if ends_with rest "?" && (Count rest "?" =? 1)%nat
          then (drop_last rest, true, EmptyString)
          else let '(r, q, _) := Strings.Cut rest "?" in (r, false, q) in
        if negb (Strings.HasPrefix rest "/") && negb (String.eqb scheme "")
        then Some (url.mkURL scheme rest None "" "" "" false forceQuery
                             rawQuery frag "")
        else if negb (Strings.HasPrefix rest "/")
                && Strings.IndexByte (fst (fst (Strings.Cut rest "/"))) ":"
        then None
        else if (negb (String.eqb scheme "") || negb (Strings.HasPrefix rest "///"))
                && Strings.HasPrefix rest "//"
        then
          let authority := fst (fst (Strings.Cut (drop2 rest) "/")) in
          let rest := from_slash (drop2 rest) in
          if Strings.IndexByte authority ":" then None
          else Some (url.mkURL scheme "" None authority rest "" false
                               forceQuery rawQuery frag "")
        else
          Some (url.mkURL scheme "" None "" rest ""
                          (negb (String.eqb scheme "") && Strings.HasPrefix rest "/")
                          forceQuery rawQuery frag "")
    end.

Definition nonempty (s : string) : bool := negb (String.eqb s "").

Definition String_ (u : url.URL) : string :=
  String.concat EmptyString
    [ if nonempty (url.Scheme u) then String.append (url.Scheme u) ":"
      else "";
      if nonempty (url.Opaque u) then url.Opaque u
      else
        String.concat EmptyString
          [ if nonempty (url.Scheme u) || nonempty (url.Host u)
            then
              if url.OmitHost u && negb (nonempty (url.Host u)) then ""
              else
                String.append
                  (if nonempty (url.Host u) || nonempty (url.Path u)
                   then "//" else "")
                  (url.Host u)
            else "";
            if nonempty (url.Path u) && negb (Strings.HasPrefix (url.Path u) "/")
               && nonempty (url.Host u)
            then "/" else "";
            if negb (nonempty (url.Scheme u)) && negb (nonempty (url.Host u))
               && Strings.IndexByte
                    (fst (fst (Strings.Cut (url.Path u) "/"))) ":"
            then "./" else "";
            url.Path u ];
      if url.ForceQuery u || nonempty (url.RawQuery u)
      then String.append "?" (url.RawQuery u) else "";
      if nonempty (url.Fragment u)
      then String.append "#" (url.Fragment u) else "" ].

(** The directory of a path: the text up to and with its last [/]. *)
Definition dir (p : string) : string :=
  String.substring 0 (Z.to_nat (Strings.LastIndex p "/" + 1)) p.

Definition ResolveReference (u ref : url.URL) : url.URL :=
  if nonempty (url.Scheme ref) then ref
  else if nonempty (url.Host ref) then
    url.mkURL (url.Scheme u) (url.Opaque ref) (url.User ref) (url.Host ref)
              (url.Path ref) "" (url.OmitHost ref) (url.ForceQuery ref)
              (url.RawQuery ref) (url.Fragment ref) ""
  else if nonempty (url.Opaque ref) then
    url.mkURL (url.Scheme u) (url.Opaque ref) None "" "" ""
              (url.OmitHost ref) (url.ForceQuery ref) (url.RawQuery ref)
              (url.Fragment ref) ""
  else if negb (nonempty (url.Path ref)) && negb (url.ForceQuery ref)
          && negb (nonempty (url.RawQuery ref))
  then
    url.mkURL (url.Scheme u) "" (url.User u) (url.Host u) (url.Path u) ""
              (url.OmitHost ref) (url.ForceQuery ref) (url.RawQuery u)
              (if nonempty (url.Fragment ref) then url.Fragment ref
               else url.Fragment u) ""
  else
    url.mkURL (url.Scheme u) "" (url.User u) (url.Host u)
              (if Strings.HasPrefix (url.Path ref) "/" then url.Path ref
               else String.append (dir (url.Path u)) (url.Path ref))
              "" (url.OmitHost ref) (url.ForceQuery ref) (url.RawQuery ref)
              (url.Fragment ref) "".

#[export] Instance net_url : NetURL :=
  {| url_Parse := Parse;
     url_String := String_;
     url_ResolveReference := ResolveReference |}.

End plain.

(* ================================================================== *)
(** * The statements of the specification *)

Module Spec.

Section with_url.
Context {U : NetURL}.

(** The parent-path of a path: the path with its final [/]-segment
    removed. *)
Definition parent_path (p : string) : string :=
  Strings.slice_to p (Strings.LastIndex p "/").

(** The path has a [/] separator. *)
Definition has_separator (p : string) : bool := Strings.Contains p "/".

(** The link classifier in the words of the specification: the
    parent-path is that of the root path. *)
Definition accepts (rootURL link : string) : bool :=
  match url_Parse rootURL, url_Parse link with
  | Some root, Some candidate =>
      String.eqb (url.Host root) (url.Host candidate)
      && has_separator (url.Path root)
      && (String.eqb (Strings.TrimRight (url.Path candidate) "/")
                     (parent_path (url.Path root))
          || Strings.Contains (parent_path (url.Path root))
                              harvester.topicKeyword
             && Strings.Contains (url.Path candidate)
                                 harvester.topicKeyword)
  | _, _ => false
  end.

(** The canonical form of a URL string: fragment dropped and trailing
    path slashes stripped; [None] when the string does not parse. *)
Definition canonical (urlStr : string) : option string :=
  match url_Parse urlStr with
  | Some u => Some (tree.normalizeURL (Some u))
  | None => None
  end.

(** A pointer that a caller of [AddURL] can hold: nil, or a node made
    before. *)
Definition valid_parent (h : node.heap) (parent : option node.ptr) : Prop :=
  match parent with
  | None => True
  | Some q => (q < length h)%nat
  end.

(** The trees built via [NewWebTree] and [AddURL], with their arena. *)
Inductive built : node.heap -> tree.WebTree -> Prop :=
| built_new rootURL maxDepth t h :
    tree.NewWebTree [] rootURL maxDepth = (Ok t, h) ->
    built h t
| built_add h t urlStr parent r h' t' :
    built h t ->
    valid_parent h parent ->
    tree.AddURL h t urlStr parent = (r, h', t') ->
    built h' t'.

(** The shape of the arena of a tree, node by node: a node with a
    parent was made after it, is one level deeper and is among its
    children; a node without parent is at depth 0; the depth of a node
    is at most its index as long as indices fit in an [int]; children
    were made after their parent and point back to it. *)
Definition node_ok (h : node.heap) (p : node.ptr) (n : node.WebNode)
  : Prop :=
  match node.Parent n with
  | Some q =>
      (q < p)%nat
      /\ exists pn, h !! q = Some pn
                    /\ node.Depth n = int_add (node.Depth pn) 1
                    /\ p ∈ node.Children pn
  | None => node.Depth n = 0
  end
  /\ (Z.of_nat p < 2 ^ 63 -> 0 <= node.Depth n <= Z.of_nat p)
  /\ Forall (fun c => (p < c)%nat
                      /\ exists cn, h !! c = Some cn
                                    /\ node.Parent cn = Some p)
            (node.Children n).

Definition wf_heap (h : node.heap) : Prop :=
  forall p n, h !! p = Some n -> node_ok h p n.

(** The nodes under [p] in depth-first order, parents before children
    and children in the order of [Children]. *)
Inductive preorder (h : node.heap) : node.ptr -> list node.ptr -> Prop :=
| preorder_node p n ls :
    h !! p = Some n ->
    preorder_list h (node.Children n) ls ->
    preorder h p (p :: ls)
with preorder_list (h : node.heap)
  : list node.ptr -> list node.ptr -> Prop :=
| preorder_nil : preorder_list h [] []
| preorder_cons c cs l ls :
    preorder h c l ->
    preorder_list h cs ls ->
    preorder_list h (c :: cs) (l ++ ls).

(** The first node of a list that a predicate on nodes holds of. *)
Fixpoint first_match (h : node.heap) (P : node.WebNode -> bool)
         (l : list node.ptr) : option node.ptr :=
  match l with
  | [] => None
  | p :: l' =>
      match h !! p with
      | Some n => if P n then Some p else first_match h P l'
      | None => first_match h P l'
      end
  end.

(** Equality of canonical forms, the comparison the specification
    gives to [FindNode]. *)
Definition same_canonical (target : url.URL) (n : node.WebNode) : bool :=
  String.eqb (tree.normalizeURL (node.URL n))
             (tree.normalizeURL (Some target)).

End with_url.

Section with_world.
Context {U : NetURL} {W : World}.

(** The stores made by [NewXMLStorage] and changed by
    [SaveNodeContent] only. *)
Inductive saved : storage.XMLStorage -> Prop :=
| saved_new now filePath rootURL s :
    storage.NewXMLStorage now filePath rootURL = Done s ->
    saved s
| saved_save s h now webNode content r s' :
    saved s ->
    storage.SaveNodeContent h now s webNode content = (r, s') ->
    saved s'.

(** The index and the sequence of records agree. *)
Definition store_ok (d : storage.XMLDocument) : Prop :=
  (forall u idx,
      storage.pagesByURL d !! u = Some idx ->
      0 <= idx
      /\ exists pg, storage.Pages d !! Z.to_nat idx = Some pg
                    /\ storage.URL pg = u)
  /\ (forall i pg,
         storage.Pages d !! i = Some pg ->
         storage.pagesByURL d !! storage.URL pg = Some (Z.of_nat i)).

(** The URL string of the node behind a pointer, the key of its
    record. *)
Definition node_url (h : node.heap) (webNode : option node.ptr)
  : option string :=
  match webNode with
  | Some p =>
      match h !! p with
      | Some n => option_map url_String (node.URL n)
      | None => None
      end
  | None => None
  end.

(** The records of a store. *)
Definition records (s : storage.XMLStorage) : list storage.XMLPage :=
  storage.Pages (storage.Document s).

(** The records with a given URL. *)
Definition records_of (s : storage.XMLStorage) (urlStr : string)
  : list storage.XMLPage :=
  List.filter (fun pg => String.eqb (storage.URL pg) urlStr) (records s).

(** The report lines of accepted links among the events, in order. *)
Fixpoint hrefs (tr : list event) : list string :=
  match tr with
  | [] => []
  | Print_href u :: tr' => u :: hrefs tr'
  | _ :: tr' => hrefs tr'
  end.

(** The pages requested among the events, in order. *)
Fixpoint fetches (tr : list event) : list string :=
  match tr with
  | [] => []
  | FetchPage_call u :: tr' => u :: fetches tr'
  | _ :: tr' => fetches tr'
  end.

(** The distinct elements of a list, in the order of their first
    occurrence. *)
Fixpoint distinct (l : list string) : list string :=
  match l with
  | [] => []
  | x :: l' =>
      x :: List.filter (fun y => negb (String.eqb y x)) (distinct l')
  end.

(** The reports not yet printed, as the orchestrator goes through a
    list of them with its map of printed URLs. *)
Fixpoint unprinted (printed : gmap string bool) (l : list string)
  : list string :=
  match l with
  | [] => []
  | x :: l' =>
      if tree.map_get printed x then unprinted printed l'
      else x :: unprinted (<[x := true]> printed) l'
  end.

(** The links that the classifier accepts. *)
Definition accepted (c : harvester.HarvesterContext) (links : list string)
  : list string :=
  List.filter (fun link => fst (harvester.isParentURL c link)) links.

(** The state with another maximum depth, in the context and in the
    tree. *)
Definition with_MaxDepth_tree (maxDepth : Z) (t : tree.WebTree)
  : tree.WebTree :=
  tree.mkWebTree (tree.RootNode t) maxDepth (tree.VisitedURLs t).

Definition with_MaxDepth (maxDepth : Z) (s : harvester.State)
  : harvester.State :=
  let c := harvester.hc s in
  harvester.mkState
    (harvester.mkContext
       (with_MaxDepth_tree maxDepth (harvester.WebTree c))
       (harvester.Storage_ c) (harvester.RootURL c) (harvester.BaseURL c)
       maxDepth (harvester.Debug c) (harvester.DownloadAll c)
       (harvester.PrintedURLs c))
    (harvester.mem s) (harvester.trace s) (harvester.clock s)
    (harvester.files s).

(** What can be observed of a state: everything but the maximum
    depth. *)
Definition observe (s : harvester.State) :=
  (harvester.trace s, harvester.Storage_ (harvester.hc s),
   harvester.files s, harvester.mem s,
   harvester.PrintedURLs (harvester.hc s),
   tree.VisitedURLs (harvester.WebTree (harvester.hc s)),
   tree.RootNode (harvester.WebTree (harvester.hc s))).

(** A run of [Explore] from the command line: the context is made,
    then explored. *)
Definition explore_run (rootURL : string) (maxDepth : Z) (debug : bool)
  : result (result unit * harvester.State) :=
  match harvester.NewExplorerContext rootURL maxDepth debug with
  | Ok s => Ok (harvester.Explore s)
  | Err e => Err e
  | Fault => Fault
  end.

(** A run of [Download] from the command line: the context is made,
    [DownloadAll] is set, and the site is downloaded. *)
Definition download_run (rootURL xmlFilePath baseURL : string)
           (maxDepth : Z) (debug downloadAll : bool)
  : result (result unit * harvester.State) :=
  match harvester.NewXMLDownloaderContext rootURL xmlFilePath baseURL
                                          maxDepth debug with
  | Ok s =>
      Ok (harvester.Download
            (harvester.set_hc s
               (harvester.set_DownloadAll (harvester.hc s) downloadAll)))
  | Err e => Err e
  | Fault => Fault
  end.

(** What can be observed of a run. *)
Definition observe_run (r : result (result unit * harvester.State)) :=
  match r with
  | Ok (res, s) => Ok (res, observe s)
  | Err e => Err e
  | Fault => Fault
  end.

(** Every child pointer of the arena is in the arena. *)
Definition pointers_ok (h : node.heap) : Prop :=
  forall p n, h !! p = Some n ->
              Forall (fun c => (c < length h)%nat) (node.Children n).

(** The states of a downloader at work: the root node is the first of
    the arena and holds the parsed root URL, the child pointers are in
    the arena, and the index of the store agrees with its records. *)
Definition good (s : harvester.State) : Prop :=
  (exists rn ru,
      tree.RootNode (harvester.WebTree (harvester.hc s)) = Some 0%nat
      /\ harvester.mem s !! 0%nat = Some rn
      /\ node.URL rn = Some ru
      /\ url_Parse (harvester.RootURL (harvester.hc s)) = Some ru)
  /\ pointers_ok (harvester.mem s)
  /\ match harvester.Storage_ (harvester.hc s) with
     | harvester.XMLStorage x => store_ok (storage.Document x)
     | harvester.NullStorage => True
     end.

(** The loop of [Download] when no step of it is a fault: every link
    is gone through, in order. *)
Definition process_all (links : list string) (s : harvester.State)
  : harvester.State :=
  fold_left (fun s link => snd (harvester.processLinkAndDownload s link))
            links s.

(** The links found on the root page by [Download]: those of the
    document as the extraction of the content leaves it. *)
Definition root_links (s : harvester.State) : list string :=
  match crawler.FetchPage (harvester.clock s)
                          (harvester.RootURL (harvester.hc s)) with
  | Done doc =>
      match crawler.ExtractLinks (snd (extractor.ExtractContent doc))
                                 (harvester.RootURL (harvester.hc s)) with
      | Done links => links
      | Failed _ => []
      end
  | Failed _ => []
  end.

(** The canonical form [k] is marked visited in the state. *)
Definition visited_in (s : harvester.State) (k : string) : bool :=
  tree.map_get (tree.VisitedURLs (harvester.WebTree (harvester.hc s))) k.

(** What a step from [s] to [s'] adds: the pages requested, each with
    the canonical form that the step marked visited before requesting
    it, and the link, among those that [P] holds of, that it is the
    page of. *)
Definition adds (P : string -> Prop) (s s' : harvester.State)
           (new : list (string * string)) : Prop :=
  fetches (harvester.trace s')
  = fetches (harvester.trace s) ++ List.map snd new
  /\ harvester.RootURL (harvester.hc s')
     = harvester.RootURL (harvester.hc s)
  /\ harvester.Debug (harvester.hc s') = harvester.Debug (harvester.hc s)
  /\ (forall k, visited_in s k = true -> visited_in s' k = true)
  /\ (forall k u, (k, u) ∈ new ->
                  visited_in s k = false /\ visited_in s' k = true
                  /\ exists link pu,
                      P link /\ url_Parse link = Some pu
                      /\ k = tree.normalizeURL (Some pu)
                      /\ u = url_String pu).

(** The canonical forms of a list of links that parse. *)
Definition canonicals (links : list string) : list string :=
  omap canonical links.

End with_world.

End Spec.

(* ================================================================== *)
(** * Concrete runs *)

Module Examples.

Section with_url.
Context {U : NetURL}.

(** The tree and the arena that [NewWebTree] makes for a root that
    parses. *)
Definition root_tree (maxDepth : Z) : tree.WebTree :=
  tree.mkWebTree (Some 0%nat) maxDepth ∅.

Definition root_heap (rootURL : string) : node.heap :=
  match url_Parse rootURL with
  | Some u => [node.mkWebNode (Some u) "" "text/html" [] None 0 ∅]
  | None => []
  end.

(** The context that [NewExplorerContext] makes for a root that
    parses. *)
Definition explorer (rootURL : string) (maxDepth : Z) (debug : bool)
  : harvester.State :=
  harvester.mkState
    (harvester.mkContext
       (root_tree maxDepth) harvester.NullStorage
       rootURL rootURL maxDepth debug false ∅)
    (root_heap rootURL) [] 0%nat ∅.

(** A tree with the root [https://x.test/docs] and one child. *)
Definition docs_root : string := "https://x.test/docs".

Definition docs_child : string := "https://x.test/docs/a/".

Definition docs_step :=
  tree.AddURL (root_heap docs_root) (root_tree 2) docs_child (Some 0%nat).

Definition docs_heap : node.heap := snd (fst docs_step).

Definition docs_tree : tree.WebTree := snd docs_step.

(** A tree whose root and child have the same canonical form. *)
Definition slash_step :=
  tree.AddURL (root_heap docs_root) (root_tree 2) "https://x.test/docs/"
              (Some 0%nat).

Definition slash_heap : node.heap := snd (fst slash_step).

End with_url.

(** A page with a title and a list of anchors. *)
Definition anchor (href : string) : html.Node :=
  html.mkNode html.ElementNode "a" [html.mkAttr "href" href]
              [html.mkNode html.TextNode "link" [] []].

Definition page (title : string) (hrefs : list string) : html.Node :=
  html.mkNode html.DocumentNode "" []
    [html.mkNode html.ElementNode "html" []
       [html.mkNode html.ElementNode "head" []
          [html.mkNode html.ElementNode "title" []
             [html.mkNode html.TextNode title [] []]];
        html.mkNode html.ElementNode "body" [] (List.map anchor hrefs)]].

(** The site of the scenarios of the specification: the root page has
    five links, two of them in scope and duplicates of each other up to
    the trailing slash, one more a duplicate up to the fragment. *)
Definition site_root : string := "https://x.test/docs/guide/page".

Definition site_links : list string :=
  ["https://x.test/docs/guide";
   "https://x.test/docs/guide/";
   "https://x.test/docs/guide#top";
   "https://x.test/docs/guide/page/sub";
   "https://other.test/docs/guide"].

(** A world in which the site is served, except for the pages in
    [down]; the body of a reply is the URL asked for. *)
Definition world (down : list string) : World :=
  {| http_NewRequest := fun _ => Done tt;
     http_Do := fun _ urlStr =>
       if existsb (String.eqb urlStr) down
       then Failed (ErrMsg "connection refused")
       else Done (200, urlStr);
     html_Parse := fun body =>
       Done (if String.eqb body site_root then page "Page" site_links
             else page "Other" []);
     html_Render := fun n => Done (html.Data n);
     time_Now := fun _ => "2025-04-03T10:15:30Z";
     filepath_Dir := fun _ => ".";
     os_MkdirAll := fun _ => Done tt;
     xml_MarshalIndent := fun _ _ _ => Done "<document></document>";
     os_WriteFile := fun _ _ _ => Done tt |}.

(** The world in which every page is served. *)
Definition up : World := world [].

(** The world in which the parent page of the root is not served. *)
Definition parent_down : World := world ["https://x.test/docs/guide"].

(** The world in which the root page is not served. *)
Definition root_down : World := world [site_root].

Section with_world.
Context {U : NetURL} {W : World}.

(** The store after the root and the child of [slash_heap] are
    saved. *)
Definition store0 : storage.XMLStorage :=
  storage.mkXMLStorage "docs.xml"
    (storage.mkXMLDocument docs_root (time_Now 0) [] ∅).

Definition store1 : storage.XMLStorage :=
  snd (storage.SaveNodeContent slash_heap 1 store0 (Some 0%nat) "root").

Definition store2 : storage.XMLStorage :=
  snd (storage.SaveNodeContent slash_heap 2 store1 (Some 1%nat) "child").

Definition store3 : storage.XMLStorage :=
  snd (storage.SaveNodeContent slash_heap 3 store2 (Some 1%nat) "again").

(** The context that [NewXMLDownloaderContext] makes for a root that
    parses and a directory that can be made, with [DownloadAll] set as
    the command line sets it. *)
Definition downloader (rootURL : string) (maxDepth : Z) (debug : bool)
  : harvester.State :=
  harvester.mkState
    (harvester.mkContext
       (root_tree maxDepth)
       (harvester.XMLStorage
          (storage.mkXMLStorage "docs.xml"
             (storage.mkXMLDocument rootURL (time_Now 0) [] ∅)))
       rootURL rootURL maxDepth debug true ∅)
    (root_heap rootURL) [] 1%nat ∅.

End with_world.

End Examples.

(* ================================================================== *)
(** * The store under concurrent calls

    [SaveNodeContent] and [SaveToFile] run in different goroutines: the
    foreground saves, the loop of [autoSaveLoop] flushes.  A goroutine is
    the list of the calls it has still to make and the place it has
    reached in the call it is in.  A step is one statement of one
    goroutine.  The struct assignment [Pages[idx] = page] is one step per
    field and the serialization reads one record per step, so that a flush
    that runs during an assignment sees a record that is half old and half
    new.  Both functions start with [s.Document.mutex.Lock()] and defer
    [Unlock]. *)

Module Concurrent.

(** A call of [SaveNodeContent], with the record that it builds from its
    node, the clock and the content (none of which a flush reads), or a
    call of [SaveToFile]. *)
Inductive call : Type :=
| Upsert (page : storage.XMLPage)
| Flush.

(** The place of a goroutine in the call it is in: before [Lock] of the
    next call ([Idle]); in [SaveNodeContent] at the lookup in
    [pagesByURL], at field [k] of the assignment [Pages[idx] = page], at
    the assignment to [pagesByURL] after the append, at the deferred
    [Unlock]; in [SaveToFile] at the serialization with the records [buf]
    read, at [os.WriteFile], at the deferred [Unlock]. *)
Inductive pc : Type :=
| Idle
| SaveLookup (page : storage.XMLPage)
| SaveAssign (page : storage.XMLPage) (idx : Z) (k : nat)
| SaveIndex (page : storage.XMLPage)
| SaveUnlock
| FlushRead (buf : list storage.XMLPage)
| FlushWrite (buf : list storage.XMLPage)
| FlushUnlock.

Record goroutine : Type := mkGoroutine {
  at_ : pc;
  todo : list call
}.

(** The mutex with the goroutine that holds it, the document, the contents
    written to the file so far (the latest first), and the goroutines. *)
Record config : Type := mkConfig {
  mutex : option nat;
  Pages : list storage.XMLPage;
  pagesByURL : gmap string Z;
  written : list (list storage.XMLPage);
  goroutines : list goroutine
}.

Definition set_mutex (c : config) (m : option nat) : config :=
  mkConfig m (Pages c) (pagesByURL c) (written c) (goroutines c).

Definition set_Pages (c : config) (pages : list storage.XMLPage) : config :=
  mkConfig (mutex c) pages (pagesByURL c) (written c) (goroutines c).

Definition set_pagesByURL (c : config) (index : gmap string Z) : config :=
  mkConfig (mutex c) (Pages c) index (written c) (goroutines c).

Definition set_written (c : config) (w : list (list storage.XMLPage))
  : config :=
  mkConfig (mutex c) (Pages c) (pagesByURL c) w (goroutines c).

(** Goroutine [i] moves to [p]. *)
Definition goto (c : config) (i : nat) (g : goroutine) (p : pc) : config :=
  mkConfig (mutex c) (Pages c) (pagesByURL c) (written c)
           (<[i := mkGoroutine p (todo g)]> (goroutines c)).

Definition fields : nat := 6.

(** The assignment of field number [k] of [new] to [old]. *)
Definition assign_field (k : nat) (new old : storage.XMLPage)
  : storage.XMLPage :=
  storage.mkXMLPage
    (if (k =? 0)%nat then storage.URL new else storage.URL old)
    (if (k =? 1)%nat then storage.Title new else storage.Title old)
    (if (k =? 2)%nat then storage.Path new else storage.Path old)
    (if (k =? 3)%nat then storage.LastFetched new
     else storage.LastFetched old)
    (if (k =? 4)%nat then storage.Content new else storage.Content old)
    (if (k =? 5)%nat then storage.Links new else storage.Links old).

(** Field [k] of [Pages[idx] = page]; an index out of range panics. *)
Definition store_field (pages : list storage.XMLPage) (idx : Z) (k : nat)
           (page : storage.XMLPage) : result (list storage.XMLPage) :=
  if (0 <=? idx) && (idx <? Z.of_nat (length pages))
  then Ok (alter (assign_field k page) (Z.to_nat idx) pages)
  else Fault.

(** [sync.Mutex]: [Lock] by goroutine [i] is no step while the mutex is
    held; [Unlock] of a free mutex is a fatal error. *)
Definition Lock (i : nat) (c : config) : option config :=
  match mutex c with
  | None => Some (set_mutex c (Some i))
  | Some _ => None
  end.

Definition Unlock (c : config) : option config :=
  match mutex c with
  | Some _ => Some (set_mutex c None)
  | None => None
  end.

(** The first statement after [Lock]. *)
Definition enter (c : call) : pc :=
  match c with
  | Upsert page => SaveLookup page
  | Flush => FlushRead []
  end.

Section with_mutex.
Variable lock : nat -> config -> option config.
Variable unlock : config -> option config.

(** One step of goroutine [i]; [fail] is the answer of the library call
    of the step, if it has one ([xml.MarshalIndent], [os.WriteFile]).
    There is no step when the goroutine is blocked or has ended, and none
    after a panic, which ends the program. *)
Definition next_with (i : nat) (fail : bool) (c : config) : option config :=
  match goroutines c !! i with
  | None => None
  | Some g =>
      match at_ g with
      | Idle =>
          match todo g with
          | [] => None
          | call :: rest =>
              match lock i c with
              | Some c' =>
                  Some (goto c' i (mkGoroutine Idle rest) (enter call))
              | None => None
              end
          end
      | SaveLookup page =>
          match pagesByURL c !! storage.URL page with
          | Some idx => Some (goto c i g (SaveAssign page idx 0))
          | None =>
              Some (goto (set_Pages c (Pages c ++ [page])) i g
                         (SaveIndex page))
          end
      | SaveAssign page idx k =>
          if (k <? fields)%nat then
            match store_field (Pages c) idx k page with
            | Ok pages =>
                Some (goto (set_Pages c pages) i g
                           (SaveAssign page idx (S k)))
            | _ => None
            end
          else Some (goto c i g SaveUnlock)
      | SaveIndex page =>
          Some (goto (set_pagesByURL c
                        (<[storage.URL page
                           := Z.of_nat (length (Pages c)) - 1]>
                           (pagesByURL c)))
                     i g SaveUnlock)
      | SaveUnlock | FlushUnlock =>
          match unlock c with
          | Some c' => Some (goto c' i g Idle)
          | None => None
          end
      | FlushRead buf =>
          if fail then Some (goto c i g FlushUnlock)
          else
            match Pages c !! length buf with
            | Some page => Some (goto c i g (FlushRead (buf ++ [page])))
            | None => Some (goto c i g (FlushWrite buf))
            end
      | FlushWrite buf =>
          if fail then Some (goto c i g FlushUnlock)
          else Some (goto (set_written c (buf :: written c)) i g FlushUnlock)
      end
  end.

(** A run: the goroutine of each step is chosen by the schedule. *)
Fixpoint exec_with (schedule : list (nat * bool)) (c : config)
  : option config :=
  match schedule with
  | [] => Some c
  | (i, fail) :: rest =>
      match next_with i fail c with
      | Some c' => exec_with rest c'
      | None => None
      end
  end.

End with_mutex.

Definition next : nat -> bool -> config -> option config :=
  next_with Lock Unlock.

Definition exec : list (nat * bool) -> config -> option config :=
  exec_with Lock Unlock.

(** The same goroutines without the mutex. *)
Definition exec_unguarded : list (nat * bool) -> config -> option config :=
  exec_with (fun _ c => Some c) (fun c => Some c).

(** The start: an empty document, as [NewXMLStorage] makes it, and no
    goroutine in a call. *)
Definition init (programs : list (list call)) : config :=
  mkConfig None [] ∅ [] (List.map (mkGoroutine Idle) programs).

(** ** Whole upserts *)

(** The document: the records and their index. *)
Definition document : Type := list storage.XMLPage * gmap string Z.

(** What [SaveNodeContent] does to the document with the record it has
    built, as one operation; [None] is the panic. *)
Definition upsert (d : document) (page : storage.XMLPage) : option document :=
  match snd d !! storage.URL page with
  | Some idx =>
      match storage.store_page (fst d) idx page with
      | Ok pages => Some (pages, snd d)
      | _ => None
      end
  | None =>
      let pages := fst d ++ [page] in
      Some (pages,
            <[storage.URL page := Z.of_nat (length pages) - 1]> (snd d))
  end.

(** The document after the upserts of [log], one after the other, from
    the empty document. *)
Definition run (log : list storage.XMLPage) : option document :=
  fold_left (fun d page =>
               match d with
               | Some d => upsert d page
               | None => None
               end)
            log (Some ([], ∅)).

(** The records that the calls of a goroutine save. *)
Definition upserts (calls : list call) : list storage.XMLPage :=
  flat_map (fun c => match c with
                     | Upsert page => [page]
                     | Flush => []
                     end) calls.

Definition pages_of (programs : list (list call)) : list storage.XMLPage :=
  flat_map upserts programs.

(** ** The invariant of the runs *)

(** [old] after the first [k] fields of [new] are assigned to it. *)
Definition assigned (k : nat) (new old : storage.XMLPage) : storage.XMLPage :=
  storage.mkXMLPage
    (if (0 <? k)%nat then storage.URL new else storage.URL old)
    (if (1 <? k)%nat then storage.Title new else storage.Title old)
    (if (2 <? k)%nat then storage.Path new else storage.Path old)
    (if (3 <? k)%nat then storage.LastFetched new
     else storage.LastFetched old)
    (if (4 <? k)%nat then storage.Content new else storage.Content old)
    (if (5 <? k)%nat then storage.Links new else storage.Links old).

Definition in_range (idx : Z) (pages : list storage.XMLPage) : Prop :=
  0 <= idx < Z.of_nat (length pages).

(** The document that the holder of the mutex, at [p], has made of [d],
    the document after the whole upserts so far. *)
Definition holds (p : pc) (d : document) (pages : list storage.XMLPage)
           (index : gmap string Z) : Prop :=
  match p with
  | Idle => False
  | SaveLookup _ | SaveUnlock | FlushUnlock => (pages, index) = d
  | SaveAssign page idx k =>
      index = snd d /\ snd d !! storage.URL page = Some idx
      /\ (k <= fields)%nat
      /\ ((0 < k)%nat -> in_range idx (fst d))
      /\ pages = alter (assigned k page) (Z.to_nat idx) (fst d)
  | SaveIndex page =>
      index = snd d /\ snd d !! storage.URL page = None
      /\ pages = fst d ++ [page]
  | FlushRead buf => (pages, index) = d /\ buf = take (length buf) pages
  | FlushWrite buf => (pages, index) = d /\ buf = pages
  end.

(** Every goroutine but [i] is between calls. *)
Definition quiet (c : config) (i : nat) : Prop :=
  forall j g, j <> i -> goroutines c !! j = Some g -> at_ g = Idle.

Definition locked (d : document) (c : config) : Prop :=
  match mutex c with
  | None =>
      (forall j g, goroutines c !! j = Some g -> at_ g = Idle)
      /\ (Pages c, pagesByURL c) = d
  | Some i =>
      (exists g, goroutines c !! i = Some g
                 /\ holds (at_ g) d (Pages c) (pagesByURL c))
      /\ quiet c i
  end.

(** The records that a goroutine has still to save. *)
Definition pending (g : goroutine) : list storage.XMLPage :=
  match at_ g with
  | SaveLookup page | SaveAssign page _ _ | SaveIndex page => [page]
  | _ => []
  end ++ upserts (todo g).

Definition sourced (programs : list (list call)) (c : config) : Prop :=
  forall i g page,
    goroutines c !! i = Some g -> page ∈ pending g ->
    page ∈ pages_of programs.

(** Every content written is the document after some of the upserts of
    [log], in their order. *)
Definition flushed (log : list storage.XMLPage) (c : config) : Prop :=
  forall doc,
    doc ∈ written c ->
    exists n d, (n <= length log)%nat /\ run (take n log) = Some d
                /\ doc = fst d.

Record inv (programs : list (list call)) (log : list storage.XMLPage)
       (d : document) (c : config) : Prop := mkInv {
  inv_run : run log = Some d;
  inv_log : forall page, page ∈ log -> page ∈ pages_of programs;
  inv_sourced : sourced programs c;
  inv_locked : locked d c;
  inv_flushed : flushed log c
}.

(** At most one goroutine is in a call. *)
Definition exclusive (c : config) : Prop :=
  forall i j gi gj,
    goroutines c !! i = Some gi -> goroutines c !! j = Some gj ->
    at_ gi <> Idle -> at_ gj <> Idle -> i = j.

End Concurrent.

(** ** A foreground that saves a page twice and a loop that flushes *)

Module Race.

Definition page_old : storage.XMLPage :=
  storage.mkXMLPage "https://x.test/docs" "Docs" "/docs" "t1" "old text" [].

Definition page_new : storage.XMLPage :=
  storage.mkXMLPage "https://x.test/docs" "Documentation" "/docs" "t2"
                    "new text" ["https://x.test/docs/a"].

Definition programs : list (list Concurrent.call) :=
  [[Concurrent.Upsert page_old; Concurrent.Upsert page_new];
   [Concurrent.Flush; Concurrent.Flush]].

(** [n] steps of goroutine [i], no library call failing. *)
Definition steps (i n : nat) : list (nat * bool) := repeat (i, false) n.

(** The first save, a flush, the second save, a flush. *)
Definition schedule : list (nat * bool) :=
  steps 0 4 ++ steps 1 5 ++ steps 0 10 ++ steps 1 5.

Definition final : Concurrent.config :=
  Concurrent.mkConfig None [page_new]
    (<["https://x.test/docs" := 0]> ∅)
    [[page_new]; [page_old]]
    [Concurrent.mkGoroutine Concurrent.Idle [];
     Concurrent.mkGoroutine Concurrent.Idle []].

(** The first save, four fields of the second, and a flush. *)
Definition raced : list (nat * bool) :=
  steps 0 4 ++ steps 0 6 ++ steps 1 4.

(** The record with four fields of [page_new] and two of [page_old]. *)
Definition torn : storage.XMLPage :=
  storage.mkXMLPage "https://x.test/docs" "Documentation" "/docs" "t2"
                    "old text" [].

End Race.

(* ================================================================== *)
(** * Notions used to state the properties of the helpers *)

Module Props.

(** [k] copies of the byte [c]. *)
Fixpoint copies (c : ascii) (k : nat) : string :=
  match k with
  | O => EmptyString
  | S k' => String c (copies c k')
  end.

(** The last byte of [s] is [c]. *)
Fixpoint ends_in (s : string) (c : ascii) : bool :=
  match s with
  | EmptyString => false
  | String a EmptyString => Ascii.eqb a c
  | String _ s' => ends_in s' c
  end.

(** The first byte of [s] is [c]. *)
Definition starts_with (s : string) (c : ascii) : bool :=
  match s with
  | EmptyString => false
  | String a _ => Ascii.eqb a c
  end.

(** The nodes below [n], in document order. *)
Fixpoint descendants (n : html.Node) : list html.Node :=
  match n with
  | html.mkNode _ _ _ cs => flat_map (fun c => c :: descendants c) cs
  end.

(** The node [n] and the nodes below it. *)
Definition subtree (n : html.Node) : list html.Node := n :: descendants n.

Section with_url.
Context {U : NetURL}.

(** The line that [Print] writes for the node at [p]: two spaces for
    each level of its depth, then its URL. *)
Definition tree_line (h : node.heap) (p : node.ptr) : string :=
  match h !! p with
  | Some nd =>
      String.concat EmptyString
        [String.concat EmptyString (repeat "  " (Z.to_nat (node.Depth nd)));
         "- ";
         match node.URL nd with
         | Some u => url_String u
         | None => "[Invalid URL]"
         end]
  | None => EmptyString
  end.

End with_url.

(** The path of the file of the store of a context, if it has one. *)
Definition store_path (s : harvester.State) : option string :=
  match harvester.Storage_ (harvester.hc s) with
  | harvester.XMLStorage x => Some (storage.FilePath x)
  | harvester.NullStorage => None
  end.

(** From [s] to [s'] no file is written and the store stays where it
    is. *)
Definition same_disk (s s' : harvester.State) : Prop :=
  harvester.files s' = harvester.files s /\ store_path s' = store_path s.

(** Every record of the store has an empty list of links. *)
Definition no_links (st : harvester.Storage) : Prop :=
  match st with
  | harvester.XMLStorage x =>
      Forall (fun pg => storage.Links pg = [])
             (storage.Pages (storage.Document x))
  | harvester.NullStorage => True
  end.

(** Every node of the arena but the first is a child of the first,
    one level below it, and has no children. *)
Definition one_level (h : node.heap) : Prop :=
  forall p nd,
    (0 < p)%nat -> h !! p = Some nd ->
    node.Children nd = [] /\ node.Parent nd = Some 0%nat
    /\ node.Depth nd = 1.

(** The tree of a downloader has one level below the root, the root is
    at depth 0, and no record has links. *)
Definition flat (s : harvester.State) : Prop :=
  (exists rn, harvester.mem s !! 0%nat = Some rn
              /\ node.Parent rn = None /\ node.Depth rn = 0)
  /\ one_level (harvester.mem s)
  /\ no_links (harvester.Storage_ (harvester.hc s)).

(** From [s] to [s'] no page is requested and no node is added to the
    tree, and [DownloadAll] stays as it is. *)
Definition nothing_added (s s' : harvester.State) : Prop :=
  Spec.fetches (harvester.trace s') = Spec.fetches (harvester.trace s)
  /\ harvester.WebTree (harvester.hc s') = harvester.WebTree (harvester.hc s)
  /\ length (harvester.mem s') = length (harvester.mem s)
  /\ harvester.DownloadAll (harvester.hc s')
     = harvester.DownloadAll (harvester.hc s)
  /\ harvester.RootURL (harvester.hc s') = harvester.RootURL (harvester.hc s).

(** The links reported as filtered duplicates among the events. *)
Fixpoint duplicated (tr : list event) : list string :=
  match tr with
  | [] => []
  | Print_filtered_duplicated link :: tr' => link :: duplicated tr'
  | _ :: tr' => duplicated tr'
  end.

(** The result of a function of [main] without the lines it prints. *)
Definition final_state {A B} (r : result (A * B)) : result B :=
  match r with
  | Ok (_, s) => Ok s
  | Err e => Err e
  | Fault => Fault
  end.

End Props.

(* ================================================================== *)
(** * Package [main] *)

Module main.

(** The lines that the functions of [main] print themselves; the lines
    of the orchestrator are in the trace of its state. *)
Inductive line : Type :=
| Explorer_context_failed (e : error)
| Explore_failed (e : error)
| Using_default_output (xmlFilePath : string)
| Mkdir_failed (e : error)
| Downloader_context_failed (e : error)
| Download_failed (e : error)
| Download_completed (xmlFilePath : string)
| Usage
| Exploring (url : string) (maxDepth : Z)
| Downloading (url xmlFilePath : string) (maxDepth : Z).

Section with_world.
Context {U : NetURL} {W : World}.

(** [getDomain]. *)
Definition getDomain (url : string) : string :=
  match tree.NewWebTree [] url 0 with
  | (Ok webTree, h) =>
      match tree.RootNode webTree with
      | Some rootNode =>
          match h !! rootNode with
          | Some n =>
              match node.URL n with
              | Some u => url.Host u
              | None => ""
              end
          | None => ""
          end
      | None => ""
      end
  | _ => ""
  end.

(** [ExploreWebsite], [debug] being the global flag: the lines printed
    and the context as the function leaves it, if one was made; [Fault]
    is a panic. *)
Definition ExploreWebsite (debug : bool) (urlStr : string) (maxDepth : Z)
  : result (list line * option harvester.State) :=
  match harvester.NewExplorerContext urlStr maxDepth debug with
  | Err e => Ok ([Explorer_context_failed e], None)
  | Fault => Fault
  | Ok explorerCtx =>
      match harvester.Explore explorerCtx with
      | (Err e, s) => Ok ([Explore_failed e], Some s)
      | (Fault, _) => Fault
      | (Ok _, s) => Ok ([], Some s)
      end
  end.

(** [DownloadWebsite]. *)
Definition DownloadWebsite (debug : bool) (url baseURL : string)
           (maxDepth : Z) : result (list line * option harvester.State) :=
  let xmlFilePath := "docs.xml" in
  let dirPath := filepath_Dir xmlFilePath in
  match (if negb (String.eqb dirPath ".") then os_MkdirAll dirPath
         else Done tt) with
  | Failed e => Ok ([Using_default_output xmlFilePath; Mkdir_failed e], None)
  | Done _ =>
      match harvester.NewXMLDownloaderContext url xmlFilePath baseURL
                                              maxDepth debug with
      | Err e =>
          Ok ([Using_default_output xmlFilePath;
               Downloader_context_failed e], None)
      | Fault => Fault
      | Ok downloaderCtx =>
          let downloaderCtx :=
            harvester.set_hc downloaderCtx
              (harvester.set_DownloadAll (harvester.hc downloaderCtx)
                                         true) in
          match harvester.Download downloaderCtx with
          | (Err e, s) =>
              Ok ([Using_default_output xmlFilePath; Download_failed e],
                  Some s)
          | (Fault, _) => Fault
          | (Ok _, s) =>
              Ok ([Using_default_output xmlFilePath;
                   Download_completed xmlFilePath],
                  Some (harvester.Cleanup s))
          end
      end
  end.

(** [main], with the values of the flags and the arguments that are
    left; without an argument it prints the usage and exits. *)
Definition main (exploreOnly : bool) (xmlOutput : string)
           (debugFlag : bool) (maxDepth : Z) (args : list string)
  : result (list line * option harvester.State) :=
  match args with
  | [] => Ok ([Usage], None)
  | url :: _ =>
      let xmlFilePath :=
        if negb (String.eqb xmlOutput "") then xmlOutput else "docs.xml" in
      if exploreOnly then
        match ExploreWebsite debugFlag url maxDepth with
        | Ok (lines, s) => Ok (Exploring url maxDepth :: lines, s)
        | r => r
        end
      else
        match DownloadWebsite debugFlag url url maxDepth with
        | Ok (lines, s) =>
            Ok (Downloading url xmlFilePath maxDepth :: lines, s)
        | r => r
        end
  end.

End with_world.

End main.

(* ================================================================== *)
(** * Facts about the string functions *)

Section string_facts.

Lemma LastIndex_from_range i s :
  Strings.LastIndex_from i s "/" = -1
  \/ i <= Strings.LastIndex_from i s "/".
Proof.
  revert i. induction s as [|a s IH]; intros i; simpl.
  - left. reflexivity.
  - destruct (IH (i + 1)) as [H | H].
    + rewrite H. simpl.
      destruct (Ascii.eqb a "/"); [right; simpl; lia | left; reflexivity].
    + destruct (0 <=? Strings.LastIndex_from (i + 1) s "/") eqn:E.
      * right. lia.
      * destruct (Ascii.eqb a "/"); [right; simpl; lia | left; reflexivity].
Qed.

(** [LastIndex] answers -1 exactly when there is no separator. *)
Lemma LastIndex_from_none i s :
  0 <= i ->
  (Strings.LastIndex_from i s "/" =? -1) = negb (Strings.Contains s "/").
Proof.
  revert i. induction s as [|a s IH]; intros i Hi; simpl.
  - reflexivity.
  - specialize (IH (i + 1) ltac:(lia)).
    destruct (LastIndex_from_range (i + 1) s) as [H | H].
    + rewrite H in *. simpl in *.
      destruct (Strings.Contains s "/"); [discriminate|].
      destruct (Ascii.eqb a "/"); simpl; [|reflexivity].
      apply Z.eqb_neq. lia.
    + destruct (0 <=? Strings.LastIndex_from (i + 1) s "/") eqn:E; [|lia].
      assert (Hne : (Strings.LastIndex_from (i + 1) s "/" =? -1) = false)
        by (apply Z.eqb_neq; lia).
      rewrite Hne in *.
      destruct (Strings.Contains s "/"); [|discriminate].
      now rewrite orb_true_r.
Qed.

Lemma LastIndex_none s :
  (Strings.LastIndex s "/" =? -1) = negb (Strings.Contains s "/").
Proof. apply LastIndex_from_none. lia. Qed.

Lemma TrimRight_cons a s :
  Strings.TrimRight (String a s) "/" =
  if String.eqb (Strings.TrimRight s "/") "" && Ascii.eqb a "/"
  then "" else String a (Strings.TrimRight s "/").
Proof.
  simpl. destruct (Strings.TrimRight s "/") eqn:E; simpl.
  - rewrite Ascii.eqb_sym. now destruct (Ascii.eqb a "/").
  - reflexivity.
Qed.

(** A text without [/] begins [s] exactly when it begins [s] trimmed of
    its trailing slashes. *)
Lemma HasPrefix_TrimRight kw s :
  Strings.IndexByte kw "/" = false ->
  Strings.HasPrefix (Strings.TrimRight s "/") kw = Strings.HasPrefix s kw.
Proof.
  revert kw. induction s as [|a s IH]; intros kw Hkw; [reflexivity|].
  rewrite TrimRight_cons.
  destruct kw as [|k kw]; [now destruct (_ && _)|].
  simpl in Hkw. apply orb_false_iff in Hkw as [Hk Hkw].
  specialize (IH kw Hkw).
  destruct (String.eqb (Strings.TrimRight s "/") "") eqn:E; simpl.
  - apply String.eqb_eq in E.
    destruct (Ascii.eqb a "/") eqn:Ea; simpl.
    + apply Ascii.eqb_eq in Ea. subst a. now rewrite Ascii.eqb_sym, Hk.
    + now rewrite IH.
  - now rewrite IH.
Qed.

Lemma Contains_TrimRight kw s :
  Strings.IndexByte kw "/" = false ->
  Strings.Contains (Strings.TrimRight s "/") kw = Strings.Contains s kw.
Proof.
  intros Hkw. induction s as [|a s IH]; [reflexivity|].
  pose proof (HasPrefix_TrimRight kw (String a s) Hkw) as Hp.
  rewrite TrimRight_cons in *.
  destruct (String.eqb (Strings.TrimRight s "/") "" && Ascii.eqb a "/")
    eqn:E.
  - apply andb_true_iff in E as [E _]. apply String.eqb_eq in E.
    rewrite E in IH.
    change (Strings.Contains (String a s) kw)
      with (Strings.HasPrefix (String a s) kw || Strings.Contains s kw).
    rewrite <- Hp, <- IH. simpl. now destruct (Strings.HasPrefix "" kw).
  - change (Strings.Contains (String a s) kw)
      with (Strings.HasPrefix (String a s) kw || Strings.Contains s kw).
    rewrite <- Hp, <- IH. reflexivity.
Qed.

End string_facts.

(* ================================================================== *)
(** * The site tree *)

Section tree_facts.
Context {U : NetURL}.

(** What [AddURL] does, by cases: the URL does not parse; its canonical
    form is visited; the parent is not in the arena; or a node is made. *)
Lemma AddURL_cases h t urlStr parent r h' t' :
  tree.AddURL h t urlStr parent = (r, h', t') ->
  (url_Parse urlStr = None /\ is_Err r = true /\ h' = h /\ t' = t)
  \/ (exists u, url_Parse urlStr = Some u
      /\ tree.map_get (tree.VisitedURLs t) (tree.normalizeURL (Some u)) = true
      /\ r = Ok None /\ h' = h /\ t' = t)
  \/ (exists u, url_Parse urlStr = Some u
      /\ tree.map_get (tree.VisitedURLs t) (tree.normalizeURL (Some u)) = false
      /\ exists q, parent = Some q /\ h !! q = None
      /\ r = Fault /\ h' = h /\ t' = t)
  \/ (exists u, url_Parse urlStr = Some u
      /\ tree.map_get (tree.VisitedURLs t) (tree.normalizeURL (Some u)) = false
      /\ r = Ok (Some (length h))
      /\ t' = tree.set_VisitedURLs t
                (<[tree.normalizeURL (Some u) := true]> (tree.VisitedURLs t))
      /\ match parent with
         | None =>
             h' = h ++ [node.mkWebNode (Some u) "" "text/html" [] None 0 ∅]
         | Some q =>
             exists pn, h !! q = Some pn
             /\ h' = <[q := node.set_Children pn
                              (node.Children pn ++ [length h])]>
                       (h ++ [node.mkWebNode (Some u) "" "text/html" []
                                (Some q) (int_add (node.Depth pn) 1) ∅])
         end).
Proof.
  unfold tree.AddURL, node.NewWebNode.
  destruct (url_Parse urlStr) as [u|] eqn:Hp.
  2:{ intros [= <- <- <-]. left. auto. }
  destruct (tree.map_get _ _) eqn:Hv.
  { intros [= <- <- <-]. right. left. eauto 10. }
  destruct parent as [q|].
  - destruct (h !! q) as [pn|] eqn:Hq.
    + unfold node.AddChild. cbv beta iota.
      rewrite lookup_app_l by (eapply lookup_lt_Some; eauto).
      rewrite Hq. intros [= <- <- <-].
      right. right. right. exists u. repeat split; eauto.
    + intros [= <- <- <-]. right. right. left. eauto 12.
  - intros [= <- <- <-]. right. right. right. exists u. repeat split; eauto.
Qed.

Lemma map_get_insert (m : gmap string bool) k :
  tree.map_get (<[k := true]> m) k = true.
Proof. unfold tree.map_get. now rewrite lookup_insert_eq. Qed.

Lemma map_get_insert_ne (m : gmap string bool) k k' :
  k <> k' -> tree.map_get (<[k := true]> m) k' = tree.map_get m k'.
Proof. intros. unfold tree.map_get. now rewrite lookup_insert_ne. Qed.

End tree_facts.

Section tree_inv.
Context {U : NetURL}.

Lemma int_add_small d : 0 <= d -> d + 1 < 2 ^ 63 -> int_add d 1 = d + 1.
Proof.
  intros H1 H2. unfold int_add, int_wrap.
  rewrite Z.mod_small; lia.
Qed.

(** A node of the arena keeps its place when a node is appended. *)
Lemma node_ok_app h x p n :
  (p < length h)%nat -> Spec.node_ok h p n -> Spec.node_ok (h ++ [x]) p n.
Proof.
  intros Hp (H1 & H2 & H3). split; [|split].
  - destruct (node.Parent n) as [q|]; [|exact H1].
    destruct H1 as (Hq & pn & Hl & Hd & Hc). split; [exact Hq|].
    exists pn. split; [|auto].
    rewrite lookup_app_l; [exact Hl | lia].
  - exact H2.
  - eapply Forall_impl; [exact H3|]. cbv beta.
    intros c (Hc & cn & Hl & Hpar). split; [exact Hc|].
    exists cn. split; [|exact Hpar].
    rewrite lookup_app_l; [exact Hl|]. eapply lookup_lt_Some; eauto.
Qed.

Lemma wf_heap_app_orphan h u :
  Spec.wf_heap h ->
  Spec.wf_heap (h ++ [node.mkWebNode (Some u) "" "text/html" [] None 0 ∅]).
Proof.
  intros Hwf p n Hl.
  destruct (decide (p < length h)%nat) as [Hp | Hp].
  - rewrite lookup_app_l in Hl by exact Hp.
    apply node_ok_app; auto.
  - rewrite lookup_app_r in Hl by lia.
    destruct (p - length h)%nat eqn:E; [|destruct n0; discriminate].
    injection Hl as <-. split; [|split]; simpl; try lia. constructor.
Qed.

(** The arena stays well formed when a child is made under [q]. *)
Lemma wf_heap_add_child h u q pn :
  Spec.wf_heap h -> h !! q = Some pn ->
  Spec.wf_heap
    (<[q := node.set_Children pn (node.Children pn ++ [length h])]>
       (h ++ [node.mkWebNode (Some u) "" "text/html" [] (Some q)
                             (int_add (node.Depth pn) 1) ∅])).
Proof.
  intros Hwf Hq.
  assert (Hqlt : (q < length h)%nat) by (eapply lookup_lt_Some; eauto).
  set (new := node.mkWebNode _ _ _ _ _ _ _).
  set (pn' := node.set_Children pn _).
  (* every old node is still there, with the same parent and depth and at
     least the same children *)
  assert (Hold : forall x y, h !! x = Some y ->
            exists y', (<[q := pn']> (h ++ [new])) !! x = Some y'
                       /\ node.Parent y' = node.Parent y
                       /\ node.Depth y' = node.Depth y
                       /\ (forall c, c ∈ node.Children y -> c ∈ node.Children y')).
  { intros x y Hx. destruct (decide (x = q)) as [-> | Hne].
    - exists pn'. rewrite list_lookup_insert_eq
        by (rewrite length_app; simpl; lia).
      assert (y = pn) by congruence. subst y.
      repeat split; auto. intros c Hc. subst pn'. simpl.
      apply elem_of_app. now left.
    - exists y. rewrite list_lookup_insert_ne by auto.
      rewrite lookup_app_l by (eapply lookup_lt_Some; eauto). auto. }
  intros p n Hl.
  destruct (decide (p = q)) as [-> | Hne].
  - rewrite list_lookup_insert_eq in Hl by (rewrite length_app; simpl; lia).
    injection Hl as <-.
    destruct (Hwf q pn Hq) as (H1 & H2 & H3). split; [|split].
    + subst pn'. simpl.
      destruct (node.Parent pn) as [g|]; [|exact H1].
      destruct H1 as (Hg & gn & Hgl & Hd & Hc). split; [exact Hg|].
      destruct (Hold g gn Hgl) as (gn' & Hgl' & _ & Hd' & Hc').
      exists gn'. rewrite Hd'. auto.
    + exact H2.
    + subst pn'. simpl. apply Forall_app. split.
      * eapply Forall_impl; [exact H3|]. cbv beta.
        intros c (Hc & cn & Hcl & Hpar). split; [exact Hc|].
        destruct (Hold c cn Hcl) as (cn' & Hcl' & Hpar' & _).
        exists cn'. split; [exact Hcl'|congruence].
      * constructor; [|constructor]. split; [exact Hqlt|].
        exists new. split; [|reflexivity].
        rewrite list_lookup_insert_ne by lia.
        rewrite lookup_app_r by lia. now rewrite Nat.sub_diag.
  - rewrite list_lookup_insert_ne in Hl by auto.
    destruct (decide (p < length h)%nat) as [Hp | Hp].
    + rewrite lookup_app_l in Hl by exact Hp.
      destruct (Hwf p n Hl) as (H1 & H2 & H3). split; [|split].
      * destruct (node.Parent n) as [g|]; [|exact H1].
        destruct H1 as (Hg & gn & Hgl & Hd & Hc). split; [exact Hg|].
        destruct (Hold g gn Hgl) as (gn' & Hgl' & _ & Hd' & Hc').
        exists gn'. rewrite Hd'. auto.
      * exact H2.
      * eapply Forall_impl; [exact H3|]. cbv beta.
        intros c (Hc & cn & Hcl & Hpar). split; [exact Hc|].
        destruct (Hold c cn Hcl) as (cn' & Hcl' & Hpar' & _).
        exists cn'. split; [exact Hcl'|congruence].
    + rewrite lookup_app_r in Hl by lia.
      destruct (p - length h)%nat eqn:E; [|destruct n0; discriminate].
      injection Hl as <-. assert (p = length h) by lia. subst p.
      destruct (Hwf q pn Hq) as (_ & H2 & _).
      split; [|split]; simpl.
      * split; [exact Hqlt|].
        exists pn'. split;
          [apply list_lookup_insert_eq; rewrite length_app; simpl; lia|].
        split; [reflexivity|]. subst pn'. simpl.
        apply elem_of_app. right. apply list_elem_of_singleton. reflexivity.
      * intros Hsmall. rewrite int_add_small; lia.
      * constructor.
Qed.

(** Every tree built via [NewWebTree] and [AddURL] has its root at the
    first place of a well-formed arena. *)
Lemma built_wf h t :
  Spec.built h t ->
  Spec.wf_heap h
  /\ tree.RootNode t = Some 0%nat
  /\ exists rn, h !! 0%nat = Some rn /\ node.Parent rn = None.
Proof.
  induction 1 as [rootURL maxDepth t h Hnew
                 | h t urlStr parent r h' t' Hb IH Hvalid Hadd].
  - unfold tree.NewWebTree, node.NewWebNode in Hnew.
    destruct (url_Parse rootURL) as [u|]; [|discriminate].
    injection Hnew as <- <-. split; [|split].
    + apply (wf_heap_app_orphan [] u). intros p n Hl. discriminate.
    + reflexivity.
    + eexists. split; reflexivity.
  - destruct IH as (Hwf & Hroot & rn & Hrn & Hpar).
    apply AddURL_cases in Hadd
      as [(_ & _ & -> & ->) | [(u & _ & _ & _ & -> & ->)
                              | [(u & _ & _ & q & _ & _ & _ & -> & ->)
                                | (u & _ & _ & _ & -> & Hh')]]];
      try (split; [exact Hwf | split; [exact Hroot | eauto]]).
    destruct parent as [q|].
    + destruct Hh' as (pn & Hq & ->). split; [|split].
      * now apply wf_heap_add_child.
      * exact Hroot.
      * destruct (decide (q = 0)%nat) as [-> | Hne].
        -- eexists. split.
           ++ apply list_lookup_insert_eq. rewrite length_app. simpl. lia.
           ++ simpl. congruence.
        -- exists rn. split; [|exact Hpar].
           rewrite list_lookup_insert_ne by auto.
           rewrite lookup_app_l; [exact Hrn|].
           eapply lookup_lt_Some; eauto.
    + subst h'. split; [|split].
      * now apply wf_heap_app_orphan.
      * exact Hroot.
      * exists rn. split; [|exact Hpar].
        rewrite lookup_app_l; [exact Hrn|]. eapply lookup_lt_Some; eauto.
Qed.
End tree_inv.

Section find_node.
Context {U : NetURL}.

Lemma first_match_app h P l1 l2 :
  Spec.first_match h P (l1 ++ l2) =
  match Spec.first_match h P l1 with
  | Some p => Some p
  | None => Spec.first_match h P l2
  end.
Proof.
  induction l1 as [|p l1 IH]; [reflexivity|]. simpl.
  destruct (h !! p) as [n|]; [|exact IH].
  destruct (P n); [reflexivity | exact IH].
Qed.

(** In a well-formed arena the subtree under every node has a
    depth-first order. *)
Lemma preorder_exists h :
  Spec.wf_heap h ->
  forall k p, (length h - p <= k)%nat -> (p < length h)%nat ->
              exists l, Spec.preorder h p l.
Proof.
  intros Hwf. induction k as [|k IH]; intros p Hk Hp; [lia|].
  destruct (lookup_lt_is_Some_2 h p Hp) as [n Hn].
  destruct (Hwf p n Hn) as (_ & _ & Hc).
  assert (Hl : exists ls, Spec.preorder_list h (node.Children n) ls).
  { induction Hc as [|c cs (Hlt & cn & Hcn & _) _ IHc].
    - exists []. constructor.
    - destruct IHc as [ls Hls].
      destruct (IH c) as [l Hl].
      + lia.
      + eapply lookup_lt_Some; eauto.
      + exists (l ++ ls). now constructor. }
  destruct Hl as [ls Hls]. exists (p :: ls). econstructor; eauto.
Qed.

(** With fuel for the nodes made after [p], [findNodeRecursive] returns
    the first node of the depth-first order under [p] that is the same
    page as the target. *)
Lemma findNodeRecursive_first h target :
  Spec.wf_heap h ->
  forall fuel p l,
    (length h - p <= fuel)%nat -> (p < length h)%nat ->
    Spec.preorder h p l ->
    tree.findNodeRecursive fuel h (Some p) target
    = Ok (Spec.first_match h (fun n => tree.same_page n target) l).
Proof.
  intros Hwf. induction fuel as [|fuel IH]; intros p l Hk Hp Hpre; [lia|].
  inversion Hpre as [p' n ls Hn Hls]; subst p' l.
  cbn [tree.findNodeRecursive Spec.first_match]. rewrite Hn.
  destruct (tree.same_page n target); [reflexivity|].
  destruct (Hwf p n Hn) as (_ & _ & Hc).
  clear Hpre. revert Hc Hls. generalize (node.Children n) as cs. intros cs Hc Hls.
  revert Hc.
  induction Hls as [|c cs l ls' Hl Hls IHls]; intros Hc; [reflexivity|].
  inversion Hc as [|c' cs' (Hlt & cn & Hcn & _) Hc']; subst c' cs'.
  rewrite (IH c l); [|lia|eapply lookup_lt_Some; eauto|exact Hl].
  rewrite first_match_app.
  destruct (Spec.first_match h _ l); [reflexivity|].
  now apply IHls.
Qed.

Lemma FindNode_unparsable h t urlStr :
  url_Parse urlStr = None -> tree.FindNode h t urlStr = Ok None.
Proof. intros H. unfold tree.FindNode. now rewrite H. Qed.

Lemma FindNode_first h t urlStr target l :
  Spec.built h t ->
  url_Parse urlStr = Some target ->
  Spec.preorder h 0%nat l ->
  tree.FindNode h t urlStr
  = Ok (Spec.first_match h (fun n => tree.same_page n target) l).
Proof.
  intros Hb Hp Hpre. destruct (built_wf h t Hb) as (Hwf & Hroot & rn & Hrn & _).
  unfold tree.FindNode. rewrite Hp, Hroot.
  apply findNodeRecursive_first; auto; [lia|].
  eapply lookup_lt_Some; eauto.
Qed.
End find_node.

(* ================================================================== *)
(** * The document store *)

Section store_facts.
Context {U : NetURL} {W : World}.

(** What [SaveNodeContent] does, by cases: it fails and leaves the store
    as it is, or replaces the record of the URL, or appends one. *)
Lemma SaveNodeContent_cases h now s webNode content r s' :
  storage.SaveNodeContent h now s webNode content = (r, s') ->
  (is_Ok r = false /\ s' = s)
  \/ (exists p n u links,
         webNode = Some p /\ h !! p = Some n /\ node.URL n = Some u
         /\ storage.child_links h (node.Children n) = Ok links
         /\ r = Ok tt
         /\ let d := storage.Document s in
            let page := storage.mkXMLPage (url_String u) (node.Title n)
                          (url.Path u) (time_Now now) content links in
            match storage.pagesByURL d !! url_String u with
            | Some idx =>
                0 <= idx < Z.of_nat (length (storage.Pages d))
                /\ s' = storage.set_Document s
                          (storage.mkXMLDocument
                             (storage.RootURL d) (storage.CreatedAt d)
                             (<[Z.to_nat idx := page]> (storage.Pages d))
                             (storage.pagesByURL d))
            | None =>
                s' = storage.set_Document s
                       (storage.mkXMLDocument
                          (storage.RootURL d) (storage.CreatedAt d)
                          (storage.Pages d ++ [page])
                          (<[url_String u :=
                               Z.of_nat (length (storage.Pages d ++ [page]))
                               - 1]> (storage.pagesByURL d)))
            end).
Proof.
  unfold storage.SaveNodeContent.
  destruct webNode as [p|]; [|intros [= <- <-]; left; auto].
  destruct (h !! p) as [n|] eqn:Hn; [|intros [= <- <-]; left; auto].
  destruct (node.URL n) as [u|] eqn:Hu; [|intros [= <- <-]; left; auto].
  destruct (storage.child_links h (node.Children n)) as [links| |] eqn:Hl;
    try (intros [= <- <-]; left; auto; fail).
  cbv zeta.
  destruct (storage.pagesByURL (storage.Document s) !! url_String u)
    as [idx|] eqn:Hi.
  - unfold storage.store_page.
    destruct ((0 <=? idx) && (idx <? Z.of_nat (length _))) eqn:Hr;
      [|intros [= <- <-]; left; auto].
    intros [= <- <-]. right. exists p, n, u, links.
    repeat split; auto. cbv zeta. rewrite Hi.
    apply andb_true_iff in Hr as [H1 H2]. split; [lia|reflexivity].
  - intros [= <- <-]. right. exists p, n, u, links.
    repeat split; auto. cbv zeta. rewrite Hi. reflexivity.
Qed.

Lemma store_ok_save h now s webNode content r s' :
  Spec.store_ok (storage.Document s) ->
  storage.SaveNodeContent h now s webNode content = (r, s') ->
  Spec.store_ok (storage.Document s').
Proof.
  intros [Hidx Hpg] Hs.
  apply SaveNodeContent_cases in Hs
    as [[_ ->] | (p & n & u & links & _ & _ & _ & _ & _ & Hs)];
    [split; auto|].
  cbv zeta in Hs.
  destruct (storage.pagesByURL (storage.Document s) !! url_String u)
    as [idx|] eqn:Hi.
  - destruct Hs as [Hr ->]. unfold Spec.store_ok. cbn [storage.Document storage.set_Document storage.Pages storage.pagesByURL storage.URL].
    destruct (Hidx _ _ Hi) as (_ & pg0 & Hpg0 & Hu0).
    split.
    + intros u' idx' Hl. destruct (Hidx _ _ Hl) as (H0 & pg & Hp & Hu).
      split; [exact H0|].
      destruct (decide (Z.to_nat idx' = Z.to_nat idx)) as [E | E].
      * rewrite E. eexists. split.
        -- apply list_lookup_insert_eq. lia.
        -- cbn [storage.Document storage.set_Document storage.Pages storage.pagesByURL storage.URL].
           rewrite E in Hp.
           assert (Z.to_nat idx = Z.to_nat idx') as E' by lia.
           destruct (Hidx _ _ Hi) as (? & pgi & Hpi & Hui).
           assert (idx' = idx) by lia. subst idx'. congruence.
      * exists pg. rewrite list_lookup_insert_ne by lia. auto.
    + intros i pg Hl.
      destruct (decide (i = Z.to_nat idx)) as [-> | E].
      * rewrite list_lookup_insert_eq in Hl by lia.
        injection Hl as <-. cbn [storage.Document storage.set_Document storage.Pages storage.pagesByURL storage.URL]. rewrite Hi. f_equal. lia.
      * rewrite list_lookup_insert_ne in Hl by lia. auto.
  - subst s'. unfold Spec.store_ok. cbn [storage.Document storage.set_Document storage.Pages storage.pagesByURL storage.URL]. split.
    + intros u' idx' Hl.
      destruct (decide (u' = url_String u)) as [-> | E].
      * rewrite lookup_insert_eq in Hl. injection Hl as <-.
        rewrite length_app. simpl. split; [lia|].
        eexists. split.
        -- rewrite lookup_app_r by lia.
           replace (Z.to_nat _ - length _)%nat with 0%nat by lia.
           reflexivity.
        -- reflexivity.
      * rewrite lookup_insert_ne in Hl by auto.
        destruct (Hidx _ _ Hl) as (H0 & pg & Hp & Hu).
        split; [exact H0|]. exists pg. split; [|exact Hu].
        rewrite lookup_app_l; [exact Hp|]. eapply lookup_lt_Some; eauto.
    + intros i pg Hl.
      destruct (decide (i < length (storage.Pages (storage.Document s)))%nat)
        as [Hlt | Hge].
      * rewrite lookup_app_l in Hl by exact Hlt.
        pose proof (Hpg _ _ Hl) as Hx.
        rewrite lookup_insert_ne; [exact Hx|]. congruence.
      * rewrite lookup_app_r in Hl by lia.
        destruct (i - length _)%nat eqn:E; [|destruct n0; discriminate].
        injection Hl as <-. cbn [storage.Document storage.set_Document storage.Pages storage.pagesByURL storage.URL]. rewrite lookup_insert_eq.
        f_equal. rewrite length_app. simpl. lia.
Qed.

Lemma saved_store_ok s : Spec.saved s -> Spec.store_ok (storage.Document s).
Proof.
  induction 1 as [now filePath rootURL s Hnew | s h now n c r s' _ IH Hs].
  - unfold storage.NewXMLStorage in Hnew.
    destruct (os_MkdirAll _); [|discriminate]. injection Hnew as <-.
    split; simpl.
    + intros u idx Hl. rewrite lookup_empty in Hl. discriminate.
    + intros i pg Hl. destruct i; discriminate.
  - eapply store_ok_save; eauto.
Qed.

(** In a store whose index agrees with its records no two records have
    the same URL. *)
Lemma store_ok_NoDup d :
  Spec.store_ok d -> NoDup (List.map storage.URL (storage.Pages d)).
Proof.
  intros [_ Hpg]. apply NoDup_alt. intros i j x Hi Hj.
  change (List.map storage.URL (storage.Pages d))
    with (storage.URL <$> storage.Pages d) in *.
  rewrite list_lookup_fmap in Hi, Hj.
  destruct (storage.Pages d !! i) as [pi|] eqn:Ei; [|discriminate].
  destruct (storage.Pages d !! j) as [pj|] eqn:Ej; [|discriminate].
  simpl in Hi, Hj. injection Hi as Hi. injection Hj as Hj.
  pose proof (Hpg _ _ Ei) as Hx. pose proof (Hpg _ _ Ej) as Hy.
  rewrite Hi in Hx. rewrite Hj in Hy. rewrite Hx in Hy.
  injection Hy as Hy. lia.
Qed.

Lemma filter_URL_none (l : list storage.XMLPage) key :
  key ∉ List.map storage.URL l ->
  List.filter (fun x => String.eqb (storage.URL x) key) l = [].
Proof.
  induction l as [|x l IH]; intros Hn; [reflexivity|].
  simpl in *. apply not_elem_of_cons in Hn as [Hx Hn].
  destruct (String.eqb_spec (storage.URL x) key); [congruence|auto].
Qed.

Lemma filter_URL_unique (l : list storage.XMLPage) i pg :
  NoDup (List.map storage.URL l) ->
  l !! i = Some pg ->
  List.filter (fun x => String.eqb (storage.URL x) (storage.URL pg)) l = [pg].
Proof.
  revert i. induction l as [|x l IH]; intros i Hnd Hl; [discriminate|].
  simpl in Hnd. apply NoDup_cons in Hnd as [Hx Hnd]. simpl.
  destruct i as [|i]; simpl in Hl.
  - injection Hl as ->. rewrite String.eqb_refl. f_equal.
    now apply filter_URL_none.
  - destruct (String.eqb_spec (storage.URL x) (storage.URL pg)) as [E|E].
    + exfalso. apply Hx. rewrite E.
      change (List.map storage.URL l) with (storage.URL <$> l).
      apply list_elem_of_fmap. exists pg. split; [reflexivity|].
      eapply list_elem_of_lookup_2; eauto.
    + eapply IH; eauto.
Qed.

(** A successful [SaveNodeContent] leaves a record with the URL string
    of the node and the content given, at the place the index gives for
    that URL; the sequence grows by one exactly when the URL had no
    record. *)
Lemma save_record h now s webNode content s' :
  storage.SaveNodeContent h now s webNode content = (Ok tt, s') ->
  exists key i pg,
    Spec.node_url h webNode = Some key
    /\ Spec.records s' !! i = Some pg
    /\ storage.URL pg = key
    /\ storage.Content pg = content
    /\ is_Some (storage.pagesByURL (storage.Document s') !! key)
    /\ length (Spec.records s')
       = match storage.pagesByURL (storage.Document s) !! key with
         | Some _ => length (Spec.records s)
         | None => S (length (Spec.records s))
         end.
Proof.
  intros Hs.
  apply SaveNodeContent_cases in Hs
    as [[? _] | (p & n & u & links & -> & Hn & Hu & _ & _ & Hs)];
    [discriminate|].
  cbv zeta in Hs. exists (url_String u).
  unfold Spec.node_url, Spec.records. rewrite Hn, Hu.
  destruct (storage.pagesByURL (storage.Document s) !! url_String u)
    as [idx|] eqn:Hi.
  - destruct Hs as [Hr ->].
    cbn [storage.Document storage.set_Document storage.Pages
         storage.pagesByURL].
    exists (Z.to_nat idx). eexists. split; [reflexivity|]. split.
    + apply list_lookup_insert_eq. lia.
    + rewrite length_insert, Hi. repeat split; eauto.
  - subst s'.
    cbn [storage.Document storage.set_Document storage.Pages
         storage.pagesByURL].
    exists (length (storage.Pages (storage.Document s))). eexists.
    split; [reflexivity|]. split.
    + rewrite lookup_app_r by lia. rewrite Nat.sub_diag. reflexivity.
    + rewrite lookup_insert_eq, length_app. simpl.
      repeat split; eauto. lia.
Qed.

End store_facts.

(* ================================================================== *)
(** * The reports of the orchestrator *)

Section report_facts.
Context {U : NetURL} {W : World}.

Lemma hrefs_app tr1 tr2 : Spec.hrefs (tr1 ++ tr2) = Spec.hrefs tr1 ++ Spec.hrefs tr2.
Proof.
  induction tr1 as [|e tr1 IH]; [reflexivity|].
  destruct e; simpl; rewrite IH; reflexivity.
Qed.

Lemma fetches_app tr1 tr2 :
  Spec.fetches (tr1 ++ tr2) = Spec.fetches tr1 ++ Spec.fetches tr2.
Proof.
  induction tr1 as [|e tr1 IH]; [reflexivity|].
  destruct e; simpl; rewrite IH; reflexivity.
Qed.

(** [isParentURL] reads the root URL and the debug flag only. *)
Lemma isParentURL_ext c c' link :
  harvester.RootURL c = harvester.RootURL c' ->
  harvester.Debug c = harvester.Debug c' ->
  harvester.isParentURL c link = harvester.isParentURL c' link.
Proof. intros H1 H2. unfold harvester.isParentURL. now rewrite H1, H2. Qed.

(** The lines that [isParentURL] prints are no report lines and no
    requests. *)
Lemma isParentURL_prints c link :
  Spec.hrefs (snd (harvester.isParentURL c link)) = []
  /\ Spec.fetches (snd (harvester.isParentURL c link)) = [].
Proof.
  unfold harvester.isParentURL.
  repeat (case_match; simpl; auto).
Qed.

Lemma processLink_effect s link :
  let s' := harvester.processLink s link in
  let clean := harvester.removeFragment (harvester.hc s) link in
  harvester.RootURL (harvester.hc s') = harvester.RootURL (harvester.hc s)
  /\ harvester.Debug (harvester.hc s') = harvester.Debug (harvester.hc s)
  /\ Spec.fetches (harvester.trace s') = Spec.fetches (harvester.trace s)
  /\ if fst (harvester.isParentURL (harvester.hc s) link)
        && negb (tree.map_get (harvester.PrintedURLs (harvester.hc s)) clean)
     then Spec.hrefs (harvester.trace s')
          = Spec.hrefs (harvester.trace s) ++ [clean]
          /\ harvester.PrintedURLs (harvester.hc s')
             = <[clean := true]> (harvester.PrintedURLs (harvester.hc s))
     else Spec.hrefs (harvester.trace s') = Spec.hrefs (harvester.trace s)
          /\ harvester.PrintedURLs (harvester.hc s')
             = harvester.PrintedURLs (harvester.hc s).
Proof.
  cbv zeta. unfold harvester.processLink.
  pose proof (isParentURL_prints (harvester.hc s) link) as [Hh Hf].
  destruct (harvester.isParentURL (harvester.hc s) link) as [acc printed].
  simpl in Hh, Hf. cbn [fst].
  destruct acc; cbn [andb].
  - unfold harvester.report. cbn [harvester.hc harvester.emit].
    destruct (tree.map_get _ _); cbn [negb];
      cbn; rewrite ?hrefs_app, ?fetches_app, ?Hh, ?Hf, ?app_nil_r; auto.
  - unfold harvester.report_filtered. cbn [harvester.hc harvester.emit].
    repeat case_match;
      cbn; rewrite ?hrefs_app, ?fetches_app, ?Hh, ?Hf, ?app_nil_r; auto.
Qed.
Lemma removeFragment_ext c c' link :
  harvester.removeFragment c link = harvester.removeFragment c' link.
Proof. reflexivity. Qed.

Lemma accepted_ext c c' links :
  harvester.RootURL c = harvester.RootURL c' ->
  harvester.Debug c = harvester.Debug c' ->
  Spec.accepted c links = Spec.accepted c' links.
Proof.
  intros H1 H2. unfold Spec.accepted. apply List.filter_ext.
  intros link. now rewrite (isParentURL_ext c c').
Qed.

(** The loop of [Explore] prints the reports of the accepted links that
    were not printed before, and requests nothing. *)
Lemma fold_processLink links s :
  let s' := fold_left harvester.processLink links s in
  harvester.RootURL (harvester.hc s') = harvester.RootURL (harvester.hc s)
  /\ harvester.Debug (harvester.hc s') = harvester.Debug (harvester.hc s)
  /\ Spec.fetches (harvester.trace s') = Spec.fetches (harvester.trace s)
  /\ Spec.hrefs (harvester.trace s')
     = Spec.hrefs (harvester.trace s)
       ++ Spec.unprinted (harvester.PrintedURLs (harvester.hc s))
            (List.map (harvester.removeFragment (harvester.hc s))
                      (Spec.accepted (harvester.hc s) links)).
Proof.
  cbv zeta. revert s. induction links as [|link links IH]; intros s.
  - simpl. rewrite app_nil_r. auto.
  - cbn [fold_left].
    destruct (IH (harvester.processLink s link)) as (I1 & I2 & I3 & I4).
    destruct (processLink_effect s link) as (E1 & E2 & E3 & E4).
    cbv zeta in E4.
    rewrite I1, I2, I3, I4, E1, E2, E3.
    repeat split; auto.
    rewrite (accepted_ext _ (harvester.hc s)) by auto.
    unfold Spec.accepted at 2. cbn [List.filter].
    destruct (fst (harvester.isParentURL (harvester.hc s) link));
      cbn [andb] in E4.
    + cbn [List.map Spec.unprinted].
      destruct (tree.map_get _ _); cbn [negb] in E4;
        destruct E4 as [-> ->]; [reflexivity|].
      rewrite <- app_assoc. reflexivity.
    + destruct E4 as [-> ->]. reflexivity.
Qed.

Lemma filter_comm {A} (P Q : A -> bool) l :
  List.filter P (List.filter Q l) = List.filter Q (List.filter P l).
Proof.
  induction l as [|x l IH]; [reflexivity|]. simpl.
  destruct (P x) eqn:Ep, (Q x) eqn:Eq; simpl; rewrite ?Ep, ?Eq, IH;
    reflexivity.
Qed.

Lemma filter_implied {A} (P Q : A -> bool) l :
  (forall y, P y = true -> Q y = true) ->
  List.filter P (List.filter Q l) = List.filter P l.
Proof.
  intros H. induction l as [|x l IH]; [reflexivity|]. simpl.
  destruct (P x) eqn:Ep.
  - rewrite (H x Ep). simpl. now rewrite Ep, IH.
  - destruct (Q x); simpl; rewrite ?Ep; exact IH.
Qed.

Lemma filter_distinct P l :
  List.filter P (Spec.distinct l) = Spec.distinct (List.filter P l).
Proof.
  induction l as [|x l IH]; [reflexivity|]. simpl.
  destruct (P x) eqn:Ep; simpl.
  - rewrite filter_comm, IH. reflexivity.
  - rewrite <- IH. apply filter_implied.
    intros y Hy. destruct (String.eqb_spec y x); [congruence|reflexivity].
Qed.

Lemma filter_and {A} (P Q : A -> bool) l :
  List.filter P (List.filter Q l) = List.filter (fun y => P y && Q y) l.
Proof.
  induction l as [|x l IH]; [reflexivity|]. simpl.
  destruct (Q x); simpl; rewrite ?andb_true_r, ?andb_false_r;
    [destruct (P x)|]; now rewrite IH.
Qed.

Lemma unprinted_distinct printed l :
  Spec.unprinted printed l
  = Spec.distinct
      (List.filter (fun x => negb (tree.map_get printed x)) l).
Proof.
  revert printed. induction l as [|x l IH]; intros printed; [reflexivity|].
  simpl. destruct (tree.map_get printed x) eqn:E; simpl; [apply IH|].
  f_equal. rewrite IH, filter_distinct, filter_and. f_equal.
  apply List.filter_ext. intros y.
  destruct (String.eqb_spec y x) as [-> | Hne].
  - now rewrite map_get_insert.
  - rewrite map_get_insert_ne by congruence. reflexivity.
Qed.

Lemma unprinted_empty l : Spec.unprinted ∅ l = Spec.distinct l.
Proof.
  rewrite unprinted_distinct. f_equal.
  induction l as [|x l IH]; [reflexivity|]. simpl. now rewrite IH.
Qed.

Lemma elem_of_distinct x l : x ∈ Spec.distinct l <-> x ∈ l.
Proof.
  induction l as [|y l IH]; [reflexivity|]. simpl.
  rewrite !elem_of_cons, <- IH.
  rewrite !list_elem_of_In, List.filter_In, <- !list_elem_of_In.
  destruct (String.eqb_spec x y); intuition congruence.
Qed.

Lemma NoDup_filter_list {A} (P : A -> bool) l :
  NoDup l -> NoDup (List.filter P l).
Proof.
  induction 1 as [|x l Hx Hl IH]; [constructor|]. simpl.
  destruct (P x); [|exact IH]. constructor; [|exact IH].
  rewrite list_elem_of_In, List.filter_In, <- list_elem_of_In. tauto.
Qed.

Lemma NoDup_distinct l : NoDup (Spec.distinct l).
Proof.
  induction l as [|x l IH]; [constructor|]. simpl. constructor.
  - rewrite list_elem_of_In, List.filter_In. intros [_ H].
    now rewrite String.eqb_refl in H.
  - now apply NoDup_filter_list.
Qed.

(** A list without repetition whose elements are all in [m] is no longer
    than the list of the distinct elements of [m]. *)
Lemma NoDup_length_distinct l m :
  NoDup l -> (forall x, x ∈ l -> x ∈ m) ->
  (length l <= length (Spec.distinct m))%nat.
Proof.
  intros Hnd Hsub. apply submseteq_length, NoDup_submseteq; [exact Hnd|].
  intros x Hx. apply elem_of_distinct. auto.
Qed.

Lemma length_distinct_map (f : string -> string) l :
  (length (Spec.distinct (List.map f l)) <= length (Spec.distinct l))%nat.
Proof.
  rewrite <- (length_map f (Spec.distinct l)).
  apply submseteq_length, NoDup_submseteq; [apply NoDup_distinct|].
  intros x Hx. apply (proj1 (elem_of_distinct _ _)) in Hx.
  change (List.map f l) with (f <$> l) in Hx.
  apply list_elem_of_fmap in Hx as (y & -> & Hy).
  change (List.map f (Spec.distinct l)) with (f <$> Spec.distinct l).
  apply list_elem_of_fmap. exists y. split; [reflexivity|].
  now apply elem_of_distinct.
Qed.
End report_facts.

(* ================================================================== *)
(** * The contexts *)

Section context_facts.
Context {U : NetURL} {W : World}.

(** [NewExplorerContext] succeeds exactly on a root that parses, with
    the state [Examples.explorer]. *)
Lemma NewExplorerContext_Ok rootURL maxDepth debug s0 :
  harvester.NewExplorerContext rootURL maxDepth debug = Ok s0 ->
  exists u, url_Parse rootURL = Some u
            /\ Examples.root_heap rootURL
               = [node.mkWebNode (Some u) "" "text/html" [] None 0 ∅]
            /\ s0 = Examples.explorer rootURL maxDepth debug.
Proof.
  unfold harvester.NewExplorerContext, tree.NewWebTree, node.NewWebNode,
    Examples.explorer, Examples.root_heap, Examples.root_tree.
  destruct (url_Parse rootURL) as [u|]; [|discriminate].
  intros [= <-]. eauto.
Qed.

Lemma Explore_fetch_fails s e :
  crawler.FetchPage (harvester.clock s) (harvester.RootURL (harvester.hc s))
  = Failed e ->
  harvester.Explore s
  = (Err (ErrWrap "failed to fetch the URL" e),
     harvester.tick
       (harvester.emit s [FetchPage_call
                            (harvester.RootURL (harvester.hc s))])).
Proof.
  intros H. unfold harvester.Explore, harvester.FetchPage. now rewrite H.
Qed.

(** [Explore] on a fresh context whose root page is fetched: the title
    is stored in the root node and the links are gone through. *)
Lemma Explore_fresh rootURL maxDepth debug u doc links :
  url_Parse rootURL = Some u ->
  crawler.FetchPage 0 rootURL = Done doc ->
  crawler.ExtractLinks doc rootURL = Done links ->
  exists s1,
    harvester.Explore (Examples.explorer rootURL maxDepth debug)
    = (Ok tt, fold_left harvester.processLink links s1)
    /\ harvester.hc s1
       = harvester.hc (Examples.explorer rootURL maxDepth debug)
    /\ harvester.trace s1 = [FetchPage_call rootURL].
Proof.
  intros Hu Hf Hl.
  unfold harvester.Explore, harvester.FetchPage, harvester.assign_Title,
    Examples.explorer, Examples.root_heap, Examples.root_tree.
  cbn [harvester.hc harvester.RootURL harvester.clock harvester.tick
       harvester.emit harvester.WebTree tree.RootNode harvester.mem
       harvester.trace harvester.files harvester.set_mem].
  rewrite Hf, Hu. cbn [lookup list_lookup].
  cbn [harvester.hc harvester.set_mem harvester.tick harvester.emit
       harvester.RootURL harvester.mem harvester.trace harvester.clock
       harvester.files].
  rewrite Hl.
  eexists. split; [reflexivity|]. split; reflexivity.
Qed.

End context_facts.

(* ================================================================== *)
(** * The maximum depth *)

Create Rewrite HintDb max_depth.

Section max_depth.
Context {U : NetURL} {W : World}.
Implicit Types (s : harvester.State) (md : Z).

Lemma AddURL_MaxDepth md h t urlStr parent :
  tree.AddURL h (Spec.with_MaxDepth_tree md t) urlStr parent
  = (fst (fst (tree.AddURL h t urlStr parent)),
     snd (fst (tree.AddURL h t urlStr parent)),
     Spec.with_MaxDepth_tree md (snd (tree.AddURL h t urlStr parent))).
Proof.
  unfold tree.AddURL, Spec.with_MaxDepth_tree.
  cbn [tree.VisitedURLs tree.RootNode].
  repeat (case_match; try reflexivity).
Qed.

Lemma md_hc_RootURL md s :
  harvester.RootURL (harvester.hc (Spec.with_MaxDepth md s))
  = harvester.RootURL (harvester.hc s).
Proof. reflexivity. Qed.
Lemma md_hc_Debug md s :
  harvester.Debug (harvester.hc (Spec.with_MaxDepth md s))
  = harvester.Debug (harvester.hc s).
Proof. reflexivity. Qed.
Lemma md_hc_DownloadAll md s :
  harvester.DownloadAll (harvester.hc (Spec.with_MaxDepth md s))
  = harvester.DownloadAll (harvester.hc s).
Proof. reflexivity. Qed.
Lemma md_hc_WebTree md s :
  harvester.WebTree (harvester.hc (Spec.with_MaxDepth md s))
  = Spec.with_MaxDepth_tree md (harvester.WebTree (harvester.hc s)).
Proof. reflexivity. Qed.
Lemma md_RootNode md t :
  tree.RootNode (Spec.with_MaxDepth_tree md t) = tree.RootNode t.
Proof. reflexivity. Qed.
Lemma md_mem md s : harvester.mem (Spec.with_MaxDepth md s) = harvester.mem s.
Proof. reflexivity. Qed.
Lemma md_emit md s es :
  harvester.emit (Spec.with_MaxDepth md s) es
  = Spec.with_MaxDepth md (harvester.emit s es).
Proof. reflexivity. Qed.
Lemma md_isParentURL md s link :
  harvester.isParentURL (harvester.hc (Spec.with_MaxDepth md s)) link
  = harvester.isParentURL (harvester.hc s) link.
Proof. reflexivity. Qed.
Lemma md_removeFragment md s link :
  harvester.removeFragment (harvester.hc (Spec.with_MaxDepth md s)) link
  = harvester.removeFragment (harvester.hc s) link.
Proof. reflexivity. Qed.
Lemma md_FindNode md h t urlStr :
  tree.FindNode h (Spec.with_MaxDepth_tree md t) urlStr
  = tree.FindNode h t urlStr.
Proof. reflexivity. Qed.
Lemma md_FetchPage md s urlStr :
  harvester.FetchPage (Spec.with_MaxDepth md s) urlStr
  = (fst (harvester.FetchPage s urlStr),
     Spec.with_MaxDepth md (snd (harvester.FetchPage s urlStr))).
Proof. reflexivity. Qed.
Lemma md_assign_Title md s n title :
  harvester.assign_Title (Spec.with_MaxDepth md s) n title
  = option_map (Spec.with_MaxDepth md) (harvester.assign_Title s n title).
Proof.
  unfold harvester.assign_Title. rewrite md_mem.
  now destruct (harvester.mem s !! n).
Qed.
Lemma md_report md s cleanLink :
  harvester.report (Spec.with_MaxDepth md s) cleanLink
  = Spec.with_MaxDepth md (harvester.report s cleanLink).
Proof.
  unfold harvester.report.
  change (harvester.PrintedURLs (harvester.hc (Spec.with_MaxDepth md s)))
    with (harvester.PrintedURLs (harvester.hc s)).
  now destruct (negb _).
Qed.
Lemma md_report_filtered md s link :
  harvester.report_filtered (Spec.with_MaxDepth md s) link
  = Spec.with_MaxDepth md (harvester.report_filtered s link).
Proof.
  unfold harvester.report_filtered. rewrite md_hc_Debug.
  change (tree.IsVisited
            (harvester.WebTree (harvester.hc (Spec.with_MaxDepth md s))) link)
    with (tree.IsVisited (harvester.WebTree (harvester.hc s)) link).
  destruct (harvester.Debug _); [|reflexivity].
  now destruct (tree.IsVisited _ _).
Qed.
Lemma md_SaveNodeContent md s webNode content :
  harvester.SaveNodeContent (Spec.with_MaxDepth md s) webNode content
  = (fst (harvester.SaveNodeContent s webNode content),
     Spec.with_MaxDepth md (snd (harvester.SaveNodeContent s webNode content))).
Proof.
  unfold harvester.SaveNodeContent.
  change (harvester.Storage_ (harvester.hc (Spec.with_MaxDepth md s)))
    with (harvester.Storage_ (harvester.hc s)).
  destruct (harvester.Storage_ (harvester.hc s)) as [|x]; [reflexivity|].
  change (harvester.mem (Spec.with_MaxDepth md s)) with (harvester.mem s).
  change (harvester.clock (Spec.with_MaxDepth md s)) with (harvester.clock s).
  now destruct (storage.SaveNodeContent _ _ _ _ _).
Qed.
Lemma md_CreateIndexFile md s path :
  harvester.CreateIndexFile (Spec.with_MaxDepth md s) path
  = harvester.CreateIndexFile s path.
Proof. reflexivity. Qed.
Lemma md_set_tree md s h t :
  harvester.set_hc
    (harvester.set_mem (Spec.with_MaxDepth md s) h)
    (harvester.set_WebTree (harvester.hc (Spec.with_MaxDepth md s))
                           (Spec.with_MaxDepth_tree md t))
  = Spec.with_MaxDepth md
      (harvester.set_hc (harvester.set_mem s h)
                        (harvester.set_WebTree (harvester.hc s) t)).
Proof. reflexivity. Qed.

Hint Rewrite md_hc_RootURL md_hc_Debug md_hc_DownloadAll md_hc_WebTree
     md_RootNode md_mem md_emit md_isParentURL md_removeFragment
     md_FindNode md_FetchPage md_assign_Title md_report md_report_filtered
     md_SaveNodeContent md_CreateIndexFile AddURL_MaxDepth md_set_tree
  : max_depth.

Ltac md_step :=
  autorewrite with max_depth; cbn [fst snd option_map]; try reflexivity.

Lemma processLink_MaxDepth md s link :
  harvester.processLink (Spec.with_MaxDepth md s) link
  = Spec.with_MaxDepth md (harvester.processLink s link).
Proof.
  unfold harvester.processLink. md_step.
  destruct (harvester.isParentURL (harvester.hc s) link) as [acc printed].
  md_step. destruct acc; md_step.
Qed.

Lemma fold_processLink_MaxDepth md links s :
  fold_left harvester.processLink links (Spec.with_MaxDepth md s)
  = Spec.with_MaxDepth md (fold_left harvester.processLink links s).
Proof.
  revert s. induction links as [|link links IH]; intros s; [reflexivity|].
  cbn [fold_left]. now rewrite processLink_MaxDepth, IH.
Qed.

Lemma Explore_MaxDepth md s :
  harvester.Explore (Spec.with_MaxDepth md s)
  = (fst (harvester.Explore s),
     Spec.with_MaxDepth md (snd (harvester.Explore s))).
Proof.
  unfold harvester.Explore. md_step.
  destruct (harvester.FetchPage s _) as [r s1]. md_step.
  destruct r as [doc|e]; md_step.
  destruct (tree.RootNode _) as [rootNode|]; md_step.
  destruct (harvester.assign_Title s1 rootNode _) as [s2|]; md_step.
  destruct (crawler.ExtractLinks _ _); md_step.
  now rewrite fold_processLink_MaxDepth.
Qed.

Lemma downloadLink_MaxDepth md s link :
  harvester.downloadLink (Spec.with_MaxDepth md s) link
  = (fst (harvester.downloadLink s link),
     Spec.with_MaxDepth md (snd (harvester.downloadLink s link))).
Proof.
  unfold harvester.downloadLink. md_step.
  destruct (tree.FindNode _ _ _) as [parsedURL|e|]; md_step.
  destruct (tree.AddURL _ _ _ _) as [[parsedLink h] t]. md_step.
  destruct parsedLink as [[p|]|e|]; md_step.
  destruct (_ !! p) as [nd|]; md_step.
  destruct (node.URL nd) as [u|]; md_step.
  destruct (harvester.FetchPage _ _) as [r s1]. md_step.
  destruct r as [doc|e]; md_step.
  destruct (harvester.assign_Title s1 p _) as [s2|]; md_step.
  destruct (extractor.ExtractContent doc) as [c doc'].
  destruct c as [content|e]; md_step.
  destruct (harvester.SaveNodeContent s2 _ _) as [r s3]. md_step.
  destruct r; md_step.
Qed.
Lemma processLinkAndDownload_MaxDepth md s link :
  harvester.processLinkAndDownload (Spec.with_MaxDepth md s) link
  = (fst (harvester.processLinkAndDownload s link),
     Spec.with_MaxDepth md (snd (harvester.processLinkAndDownload s link))).
Proof.
  unfold harvester.processLinkAndDownload. md_step.
  destruct (harvester.isParentURL (harvester.hc s) link) as [acc printed].
  md_step. destruct acc; md_step.
  change (harvester.DownloadAll
            (harvester.hc
               (Spec.with_MaxDepth md
                  (harvester.report (harvester.emit s printed)
                     (harvester.removeFragment (harvester.hc s) link)))))
    with (harvester.DownloadAll
            (harvester.hc
               (harvester.report (harvester.emit s printed)
                  (harvester.removeFragment (harvester.hc s) link)))).
  destruct (harvester.DownloadAll _); md_step.
  apply downloadLink_MaxDepth.
Qed.

Lemma range_links_MaxDepth md links s :
  harvester.range_links links (Spec.with_MaxDepth md s)
  = (fst (harvester.range_links links s),
     Spec.with_MaxDepth md (snd (harvester.range_links links s))).
Proof.
  revert s. induction links as [|link links IH]; intros s; [reflexivity|].
  cbn [harvester.range_links]. rewrite processLinkAndDownload_MaxDepth.
  destruct (harvester.processLinkAndDownload s link) as [r s1].
  cbn [fst snd]. destruct r; try reflexivity. apply IH.
Qed.

Lemma Download_MaxDepth md s :
  harvester.Download (Spec.with_MaxDepth md s)
  = (fst (harvester.Download s),
     Spec.with_MaxDepth md (snd (harvester.Download s))).
Proof.
  unfold harvester.Download. md_step.
  destruct (harvester.FetchPage _ _) as [r s1]. md_step.
  destruct r as [doc|e]; md_step.
  destruct (tree.RootNode _) as [rootNode|]; md_step.
  destruct (harvester.assign_Title s1 rootNode _) as [s2|]; md_step.
  destruct (extractor.ExtractContent doc) as [c doc'].
  destruct c as [content|e]; md_step.
  destruct (harvester.SaveNodeContent s2 _ _) as [r s3]. md_step.
  destruct r; md_step.
  destruct (crawler.ExtractLinks _ _) as [links|e]; md_step.
  rewrite range_links_MaxDepth.
  destruct (harvester.range_links links _) as [r s4]. md_step.
  destruct r; md_step.
  destruct (_ !! rootNode) as [root|]; md_step.
  destruct (node.URL root) as [u|]; md_step.
  destruct (harvester.CreateIndexFile s4 _); md_step.
  destruct (harvester.Debug _); md_step.
Qed.

Lemma observe_MaxDepth md s :
  Spec.observe (Spec.with_MaxDepth md s) = Spec.observe s.
Proof. reflexivity. Qed.

Lemma NewExplorerContext_MaxDepth rootURL md debug :
  harvester.NewExplorerContext rootURL md debug
  = match harvester.NewExplorerContext rootURL 0 debug with
    | Ok s => Ok (Spec.with_MaxDepth md s)
    | Err e => Err e
    | Fault => Fault
    end.
Proof.
  unfold harvester.NewExplorerContext, tree.NewWebTree.
  destruct (node.NewWebNode [] rootURL None) as [[r|e|] h]; reflexivity.
Qed.

Lemma NewXMLDownloaderContext_MaxDepth rootURL file baseURL md debug :
  harvester.NewXMLDownloaderContext rootURL file baseURL md debug
  = match harvester.NewXMLDownloaderContext rootURL file baseURL 0 debug
    with
    | Ok s => Ok (Spec.with_MaxDepth md s)
    | Err e => Err e
    | Fault => Fault
    end.
Proof.
  unfold harvester.NewXMLDownloaderContext, tree.NewWebTree.
  destruct (node.NewWebNode [] rootURL None) as [[r|e|] h]; try reflexivity.
  destruct (storage.NewXMLStorage _ _ _); reflexivity.
Qed.

(** A run does not depend on the maximum depth. *)
Lemma explore_run_MaxDepth rootURL md debug :
  Spec.observe_run (Spec.explore_run rootURL md debug)
  = Spec.observe_run (Spec.explore_run rootURL 0 debug).
Proof.
  unfold Spec.explore_run. rewrite NewExplorerContext_MaxDepth.
  destruct (harvester.NewExplorerContext rootURL 0 debug) as [s|e|];
    try reflexivity.
  rewrite Explore_MaxDepth. cbn [Spec.observe_run].
  destruct (harvester.Explore s) as [r s']. reflexivity.
Qed.

Lemma download_run_MaxDepth rootURL file baseURL md debug dl :
  Spec.observe_run (Spec.download_run rootURL file baseURL md debug dl)
  = Spec.observe_run (Spec.download_run rootURL file baseURL 0 debug dl).
Proof.
  unfold Spec.download_run. rewrite NewXMLDownloaderContext_MaxDepth.
  destruct (harvester.NewXMLDownloaderContext rootURL file baseURL 0 debug)
    as [s|e|]; try reflexivity.
  change (harvester.set_hc (Spec.with_MaxDepth md s)
            (harvester.set_DownloadAll
               (harvester.hc (Spec.with_MaxDepth md s)) dl))
    with (Spec.with_MaxDepth md
            (harvester.set_hc s
               (harvester.set_DownloadAll (harvester.hc s) dl))).
  rewrite Download_MaxDepth. cbn [Spec.observe_run].
  destruct (harvester.Download _) as [r s']. reflexivity.
Qed.
End max_depth.

(* ================================================================== *)
(** * The downloader at work *)

Section good_states.
Context {U : NetURL} {W : World}.
Implicit Types (s : harvester.State).

Ltac proj :=
  cbn [harvester.hc harvester.mem harvester.trace harvester.clock
       harvester.files harvester.WebTree harvester.Storage_
       harvester.RootURL harvester.BaseURL harvester.MaxDepth
       harvester.Debug harvester.DownloadAll harvester.PrintedURLs
       harvester.set_hc harvester.set_mem harvester.emit harvester.tick
       harvester.set_files harvester.set_WebTree harvester.set_Storage
       harvester.set_PrintedURLs harvester.set_DownloadAll
       tree.RootNode tree.MaxDepth tree.VisitedURLs tree.set_VisitedURLs
       fst snd] in *.

Lemma same_page_refl n u : node.URL n = Some u -> tree.same_page n u = true.
Proof. intros H. unfold tree.same_page. rewrite H. apply String.eqb_refl. Qed.

(** In a good state [FindNode] finds the root for the root URL. *)
Lemma FindNode_root s :
  Spec.good s ->
  tree.FindNode (harvester.mem s) (harvester.WebTree (harvester.hc s))
                (harvester.RootURL (harvester.hc s))
  = Ok (Some 0%nat).
Proof.
  intros ((rn & ru & Hroot & Hrn & Hu & Hp) & _).
  unfold tree.FindNode. rewrite Hp, Hroot.
  destruct (harvester.mem s) as [|x h] eqn:E; [discriminate|].
  cbn [length tree.findNodeRecursive]. rewrite Hrn.
  now rewrite (same_page_refl rn ru Hu).
Qed.

Lemma child_links_ok h cs :
  Forall (fun c => (c < length h)%nat) cs ->
  exists links, storage.child_links h cs = Ok links.
Proof.
  induction 1 as [|c cs Hc _ [links IH]]; [eexists; reflexivity|].
  cbn [storage.child_links].
  destruct (lookup_lt_is_Some_2 h c Hc) as [n ->]. rewrite IH.
  eexists; reflexivity.
Qed.

(** With pointers in the arena and an index that agrees with the
    records, saving a node of the arena is no fault, and succeeds when
    the node has a URL. *)
Lemma storage_SaveNodeContent_good h now x p n content :
  Spec.pointers_ok h -> h !! p = Some n ->
  Spec.store_ok (storage.Document x) ->
  exists r x',
    storage.SaveNodeContent h now x (Some p) content = (r, x')
    /\ Spec.store_ok (storage.Document x')
    /\ (is_Some (node.URL n) -> r = Ok tt)
    /\ (node.URL n = None -> is_Err r = true /\ x' = x).
Proof.
  intros Hptr Hn Hok.
  destruct (storage.SaveNodeContent h now x (Some p) content) as [r x'] eqn:E.
  exists r, x'. split; [reflexivity|].
  split; [eapply store_ok_save; eauto|].
  unfold storage.SaveNodeContent in E. rewrite Hn in E.
  destruct (node.URL n) as [u|].
  2:{ injection E as <- <-. split; [intros [? ?]; discriminate | auto]. }
  split; [intros _ | discriminate].
  destruct (child_links_ok h _ (Hptr p n Hn)) as [links Hl].
  rewrite Hl in E. cbv zeta in E.
  destruct (storage.pagesByURL (storage.Document x) !! url_String u)
    as [idx|] eqn:Hi; [|congruence].
  destruct Hok as [Hidx _]. destruct (Hidx _ _ Hi) as (H0 & pg & Hpg & _).
  apply lookup_lt_Some in Hpg.
  unfold storage.store_page in E.
  replace ((0 <=? idx) && (idx <? Z.of_nat (length _))) with true in E
    by (symmetry; apply andb_true_iff; split; lia).
  congruence.
Qed.

Lemma SaveNodeContent_good s p n content :
  Spec.good s -> harvester.mem s !! p = Some n ->
  exists r s',
    harvester.SaveNodeContent s (Some p) content = (r, s')
    /\ Spec.good s'
    /\ (is_Some (node.URL n) -> r = Ok tt)
    /\ (is_Ok r = false ->
        harvester.Storage_ (harvester.hc s')
        = harvester.Storage_ (harvester.hc s))
    /\ harvester.mem s' = harvester.mem s
    /\ harvester.trace s' = harvester.trace s
    /\ harvester.WebTree (harvester.hc s') = harvester.WebTree (harvester.hc s)
    /\ harvester.RootURL (harvester.hc s') = harvester.RootURL (harvester.hc s)
    /\ harvester.Debug (harvester.hc s') = harvester.Debug (harvester.hc s)
    /\ harvester.DownloadAll (harvester.hc s')
       = harvester.DownloadAll (harvester.hc s).
Proof.
  intros (Hroot & Hptr & Hst) Hn. unfold harvester.SaveNodeContent.
  destruct (harvester.Storage_ (harvester.hc s)) as [|x] eqn:Es.
  - exists (Ok tt), s. repeat split; auto. now rewrite Es.
  - destruct (storage_SaveNodeContent_good (harvester.mem s)
                (harvester.clock s) x p n content Hptr Hn Hst)
      as (r & x' & -> & Hok & Hr & He).
    eexists _, _. split; [reflexivity|]. proj.
    split; [split; [exact Hroot | split; [exact Hptr | exact Hok]]|].
    split; [exact Hr|].
    split; [|repeat split; auto].
    intros Hf. destruct (node.URL n) as [url|] eqn:Eu.
    + rewrite Hr in Hf by eauto. discriminate.
    + destruct (He eq_refl) as [_ ->]. reflexivity.
Qed.

Lemma pointers_ok_set_Title h p n title :
  Spec.pointers_ok h -> h !! p = Some n ->
  Spec.pointers_ok (<[p := node.set_Title n title]> h).
Proof.
  intros Hptr Hn q m Hm. rewrite length_insert.
  destruct (decide (q = p)) as [-> | Hne].
  - rewrite list_lookup_insert_eq in Hm by (eapply lookup_lt_Some; eauto).
    injection Hm as <-. exact (Hptr p n Hn).
  - rewrite list_lookup_insert_ne in Hm by auto. exact (Hptr q m Hm).
Qed.

Lemma assign_Title_good s p n title :
  Spec.good s -> harvester.mem s !! p = Some n ->
  exists s',
    harvester.assign_Title s p title = Some s'
    /\ Spec.good s'
    /\ harvester.mem s' !! p = Some (node.set_Title n title)
    /\ harvester.hc s' = harvester.hc s
    /\ harvester.trace s' = harvester.trace s
    /\ harvester.clock s' = harvester.clock s.
Proof.
  intros ((rn & ru & Hroot & Hrn & Hu & Hp) & Hptr & Hst) Hn.
  unfold harvester.assign_Title. rewrite Hn. eexists. split; [reflexivity|].
  assert (Hlt : (p < length (harvester.mem s))%nat)
    by (eapply lookup_lt_Some; eauto).
  unfold Spec.good. proj. repeat split; auto.
  - destruct (decide (p = 0%nat)) as [-> | Hne].
    + exists (node.set_Title rn title), ru.
      assert (n = rn) by congruence. subst n.
      rewrite list_lookup_insert_eq by exact Hlt. auto.
    + exists rn, ru. rewrite list_lookup_insert_ne by auto. auto.
  - now apply pointers_ok_set_Title.
  - now apply list_lookup_insert_eq.
Qed.

(** Adding a link under the root keeps the state good and is no
    fault; the node made holds the parsed link. *)
Lemma AddURL_good s link r h t :
  Spec.good s ->
  tree.AddURL (harvester.mem s) (harvester.WebTree (harvester.hc s)) link
              (Some 0%nat) = (r, h, t) ->
  let s' := harvester.set_hc (harvester.set_mem s h)
              (harvester.set_WebTree (harvester.hc s) t) in
  Spec.good s'
  /\ r <> Fault
  /\ forall p, r = Ok (Some p) ->
               exists u, url_Parse link = Some u
                         /\ h !! p
                            = Some (node.mkWebNode (Some u) "" "text/html" []
                                      (Some 0%nat)
                                      (int_add
                                         (default 0
                                            (node.Depth
                                               <$> harvester.mem s !! 0%nat))
                                         1) ∅).
Proof.
  intros Hgood Hadd. cbv zeta.
  pose proof Hgood as ((rn & ru & Hroot & Hrn & Hu & Hp) & Hptr & Hst).
  apply AddURL_cases in Hadd
    as [(_ & Hr & -> & ->) | [(u & _ & _ & -> & -> & ->)
                            | [(u & _ & _ & q & [= <-] & Hq & _)
                              | (u & Hu' & _ & -> & -> & pn & Hpn & ->)]]].
  - destruct s as [[] ? ? ? ?]. split; [exact Hgood|].
    split; [destruct r; discriminate|]. intros p ->. discriminate.
  - destruct s as [[] ? ? ? ?]. split; [exact Hgood|].
    split; [discriminate|]. intros p. discriminate.
  - congruence.
  - assert (pn = rn) by congruence. subst pn.
    assert (Hlt : (0 < length (harvester.mem s))%nat)
      by (eapply lookup_lt_Some; eauto).
    split; [|split; [discriminate|]].
    + unfold Spec.good. proj. split; [|split].
      * exists (node.set_Children rn
                  (node.Children rn ++ [length (harvester.mem s)])), ru.
        repeat split; auto.
        apply list_lookup_insert_eq. rewrite length_app. lia.
      * intros p n Hn. rewrite length_insert, length_app. cbn [length].
        destruct (decide (p = 0%nat)) as [-> | Hne].
        -- rewrite list_lookup_insert_eq in Hn by (rewrite length_app; lia).
           injection Hn as <-. cbn [node.Children node.set_Children].
           apply Forall_app. split.
           ++ eapply Forall_impl; [exact (Hptr _ _ Hrn)|].
              cbv beta. intros; lia.
           ++ constructor; [lia | constructor].
        -- rewrite list_lookup_insert_ne in Hn by auto.
           destruct (decide (p < length (harvester.mem s))%nat) as [H|H].
           ++ rewrite lookup_app_l in Hn by exact H.
              eapply Forall_impl; [exact (Hptr _ _ Hn)|].
              cbv beta. intros; lia.
           ++ rewrite lookup_app_r in Hn by lia.
              destruct (p - length _)%nat; [|destruct n0; discriminate].
              injection Hn as <-. constructor.
      * exact Hst.
    + intros p [= <-]. exists u. split; [exact Hu'|].
      rewrite list_lookup_insert_ne by lia.
      rewrite lookup_app_r by lia. rewrite Nat.sub_diag, Hrn. reflexivity.
Qed.

(** What [processLinkAndDownload] does, under [DownloadAll], with a link
    that is accepted, in a good state: it returns, the state stays good,
    and a page that cannot be fetched or whose content cannot be extracted
    is reported and nothing is stored for it. *)
Lemma downloadLink_spec s link :
  Spec.good s ->
  exists s',
    harvester.downloadLink s link = (Ok tt, s')
    /\ Spec.good s'
    /\ harvester.RootURL (harvester.hc s') = harvester.RootURL (harvester.hc s)
    /\ harvester.Debug (harvester.hc s') = harvester.Debug (harvester.hc s)
    /\ harvester.DownloadAll (harvester.hc s')
       = harvester.DownloadAll (harvester.hc s)
    /\ match url_Parse link with
       | None =>
           harvester.trace s' = harvester.trace s
           /\ harvester.Storage_ (harvester.hc s')
              = harvester.Storage_ (harvester.hc s)
       | Some u =>
           if tree.map_get
                (tree.VisitedURLs (harvester.WebTree (harvester.hc s)))
                (tree.normalizeURL (Some u))
           then harvester.trace s' = harvester.trace s
                /\ harvester.Storage_ (harvester.hc s')
                   = harvester.Storage_ (harvester.hc s)
           else
             match crawler.FetchPage (harvester.clock s) (url_String u) with
             | Failed e =>
                 harvester.trace s'
                 = harvester.trace s
                   ++ [FetchPage_call (url_String u);
                       Print_failed_fetch (url_String u) e]
                 /\ harvester.Storage_ (harvester.hc s')
                    = harvester.Storage_ (harvester.hc s)
             | Done doc =>
                 match fst (extractor.ExtractContent doc) with
                 | Failed e =>
                     harvester.trace s'
                     = harvester.trace s
                       ++ [FetchPage_call (url_String u);
                           Print_failed_extract (url_String u) e]
                     /\ harvester.Storage_ (harvester.hc s')
                        = harvester.Storage_ (harvester.hc s)
                 | Done content =>
                     harvester.trace s'
                     = harvester.trace s ++ [FetchPage_call (url_String u)]
                 end
             end
       end.
Proof.
  intros Hgood. unfold harvester.downloadLink.
  rewrite (FindNode_root s Hgood).
  destruct (tree.AddURL _ _ _ _) as [[r h] t] eqn:Hadd.
  destruct (AddURL_good s link r h t Hgood Hadd) as (Hg1 & Hnf & Hnode).
  cbv zeta in Hg1.
  set (s1 := harvester.set_hc (harvester.set_mem s h)
               (harvester.set_WebTree (harvester.hc s) t)) in *.
  apply AddURL_cases in Hadd
    as [(Hp & Hr & _ & _) | [(u & Hp & Hv & -> & _ & _)
                            | [(u & _ & _ & q & _ & _ & -> & _)
                              | (u & Hp & Hv & -> & _ & _)]]];
    try congruence.
  - rewrite Hp. destruct r as [x| |]; try discriminate.
    exists s1. split; [reflexivity|]. split; [exact Hg1|].
    repeat split; auto.
  - rewrite Hp, Hv. exists s1. split; [reflexivity|]. split; [exact Hg1|].
    repeat split; auto.
  - rewrite Hp, Hv.
    destruct (Hnode _ eq_refl) as (u' & Hu' & Hl).
    assert (u' = u) by congruence. subst u'.
    change (harvester.mem s1) with h. rewrite Hl.
    cbn [node.URL]. unfold harvester.FetchPage.
    change (harvester.clock s1) with (harvester.clock s).
    set (s2 := harvester.tick (harvester.emit s1 _)).
    assert (Hg2 : Spec.good s2) by exact Hg1.
    destruct (crawler.FetchPage (harvester.clock s) (url_String u))
      as [doc|e].
    2:{ eexists. split; [reflexivity|]. split; [exact Hg2|].
        repeat split; auto. cbn. now rewrite <- app_assoc. }
    destruct (assign_Title_good s2 (length (harvester.mem s)) _
                (crawler.ExtractTitle doc) Hg2 Hl)
      as (s3 & -> & Hg3 & Hl3 & Hhc3 & Htr3 & Hck3).
    destruct (extractor.ExtractContent doc) as [c doc'] eqn:Hc.
    cbn [fst]. destruct c as [content|e].
    2:{ eexists. split; [reflexivity|]. split; [exact Hg3|].
        cbn [harvester.hc harvester.emit harvester.trace].
        rewrite Hhc3, Htr3. repeat split; auto.
        cbn. now rewrite <- app_assoc. }
    destruct (SaveNodeContent_good s3 _ _ content Hg3 Hl3)
      as (r & s4 & -> & Hg4 & Hr & _ & _ & Htr4 & _ & H4a & H4b & H4c).
    rewrite Hr by (cbn; eauto).
    eexists. split; [reflexivity|]. split; [exact Hg4|].
    rewrite H4a, H4b, H4c, Htr4, Hhc3, Htr3. repeat split; auto.
Qed.

Lemma processLinkAndDownload_good s link :
  Spec.good s ->
  exists s',
    harvester.processLinkAndDownload s link = (Ok tt, s')
    /\ Spec.good s'
    /\ harvester.RootURL (harvester.hc s') = harvester.RootURL (harvester.hc s)
    /\ harvester.Debug (harvester.hc s') = harvester.Debug (harvester.hc s)
    /\ harvester.DownloadAll (harvester.hc s')
       = harvester.DownloadAll (harvester.hc s).
Proof.
  intros Hgood. unfold harvester.processLinkAndDownload.
  destruct (harvester.isParentURL (harvester.hc s) link) as [acc printed].
  destruct acc.
  - set (s1 := harvester.report _ _).
    assert (Hg1 : Spec.good s1).
    { subst s1. unfold harvester.report.
      destruct (negb _); exact Hgood. }
    assert (Hf : harvester.RootURL (harvester.hc s1)
                 = harvester.RootURL (harvester.hc s)
                 /\ harvester.Debug (harvester.hc s1)
                    = harvester.Debug (harvester.hc s)
                 /\ harvester.DownloadAll (harvester.hc s1)
                    = harvester.DownloadAll (harvester.hc s)).
    { subst s1. unfold harvester.report. destruct (negb _); auto. }
    destruct Hf as (F1 & F2 & F3).
    destruct (harvester.DownloadAll (harvester.hc s1)) eqn:Hd.
    + destruct (downloadLink_spec s1 link Hg1)
        as (s' & -> & Hg' & H1 & H2 & H3 & _).
      exists s'. rewrite H1, H2, H3, Hd. split; [reflexivity|].
      split; [exact Hg'|]. repeat split; auto.
    + exists s1. split; [reflexivity|]. split; [exact Hg1|].
      repeat split; auto. congruence.
  - eexists. split; [reflexivity|].
    unfold harvester.report_filtered.
    destruct (harvester.Debug _) eqn:Ed; [destruct (tree.IsVisited _ _)|];
      (split; [exact Hgood | repeat split; try reflexivity; exact Ed]).
Qed.

(** In a good state the loop of [Download] goes through every link. *)
Lemma range_links_good links s :
  Spec.good s ->
  harvester.range_links links s = (Ok tt, Spec.process_all links s)
  /\ Spec.good (Spec.process_all links s)
  /\ harvester.RootURL (harvester.hc (Spec.process_all links s))
     = harvester.RootURL (harvester.hc s).
Proof.
  revert s. induction links as [|link links IH]; intros s Hgood.
  - split; [reflexivity|]. split; [exact Hgood | reflexivity].
  - cbn [harvester.range_links Spec.process_all fold_left].
    destruct (processLinkAndDownload_good s link Hgood)
      as (s' & E & Hg' & H1 & _).
    rewrite E. cbn [snd].
    destruct (IH s' Hg') as (I1 & I2 & I3).
    unfold Spec.process_all in *. rewrite I1, I3. auto.
Qed.

Lemma Download_fetch_fails s e :
  crawler.FetchPage (harvester.clock s) (harvester.RootURL (harvester.hc s))
  = Failed e ->
  harvester.Download s
  = (Err (ErrWrap "failed to fetch the URL" e),
     harvester.tick
       (harvester.emit s
          [Print_downloading (harvester.RootURL (harvester.hc s));
           FetchPage_call (harvester.RootURL (harvester.hc s))])).
Proof.
  intros H. unfold harvester.Download, harvester.FetchPage. proj.
  rewrite H. unfold harvester.tick, harvester.emit. proj.
  now rewrite <- app_assoc.
Qed.

(** [Download] in a good state whose root page is fetched and has a
    body: the root is stored, and every link of the page is gone
    through; the outcome is success whatever happens to the links. *)
Lemma Download_good s doc content doc' :
  Spec.good s ->
  crawler.FetchPage (harvester.clock s) (harvester.RootURL (harvester.hc s))
  = Done doc ->
  extractor.ExtractContent doc = (Done content, doc') ->
  exists s1 links,
    crawler.ExtractLinks doc' (harvester.RootURL (harvester.hc s))
    = Done links
    /\ Spec.good s1
    /\ harvester.Download s = (Ok tt, Spec.process_all links s1)
    /\ harvester.trace s1
       = harvester.trace s
         ++ [Print_downloading (harvester.RootURL (harvester.hc s));
             FetchPage_call (harvester.RootURL (harvester.hc s));
             Print_found_links (length links)].
Proof.
  intros Hgood Hf Hc.
  pose proof Hgood as ((rn & ru & Hroot & Hrn & Hu & Hp) & _).
  unfold harvester.Download, harvester.FetchPage. proj. rewrite Hf, Hroot.
  set (s0 := harvester.tick (harvester.emit (harvester.emit s _) _)).
  assert (Hg0 : Spec.good s0) by exact Hgood.
  destruct (assign_Title_good s0 0%nat rn (crawler.ExtractTitle doc)
              Hg0 Hrn)
    as (s2 & -> & Hg2 & Hl2 & Hhc2 & Htr2 & _).
  rewrite Hc.
  destruct (SaveNodeContent_good s2 _ _ content Hg2 Hl2)
    as (r & s3 & -> & Hg3 & Hr & _ & Hm3 & Htr3 & Ht3 & Hr3 & _).
  rewrite Hr by (cbn; eauto). rewrite Hr3, Hhc2.
  change (harvester.RootURL (harvester.hc s0))
    with (harvester.RootURL (harvester.hc s)).
  unfold crawler.ExtractLinks. rewrite Hp.
  set (links := crawler.extractFunc ru doc').
  set (s4 := harvester.emit s3 [Print_found_links (length links)]).
  assert (Hg4 : Spec.good s4) by exact Hg3.
  destruct (range_links_good links s4 Hg4) as (-> & Hg5 & _).
  pose proof Hg5 as ((rn5 & ru5 & _ & Hrn5 & Hu5 & _) & _).
  rewrite Hrn5, Hu5.
  assert (Hci : forall st path, harvester.CreateIndexFile st path = Done tt).
  { intros st path. unfold harvester.CreateIndexFile.
    now destruct (harvester.Storage_ _). }
  rewrite Hci.
  exists s4, links. split; [reflexivity|]. split; [exact Hg4|].
  split; [reflexivity|].
  subst s4. cbn [harvester.trace harvester.emit].
  rewrite Htr3, Htr2. subst s0. cbn. now rewrite <- !app_assoc.
Qed.

(** The context of a downloader is a good state. *)
Lemma NewXMLDownloaderContext_good rootURL file baseURL md debug dl s0 :
  harvester.NewXMLDownloaderContext rootURL file baseURL md debug = Ok s0 ->
  Spec.good (harvester.set_hc s0
               (harvester.set_DownloadAll (harvester.hc s0) dl)).
Proof.
  unfold harvester.NewXMLDownloaderContext, tree.NewWebTree,
    node.NewWebNode, storage.NewXMLStorage.
  destruct (url_Parse rootURL) as [u|] eqn:Hu; [|discriminate].
  destruct (os_MkdirAll _); [|discriminate].
  intros [= <-]. unfold Spec.good. proj. split; [|split].
  - eexists _, u. repeat split; eauto.
  - intros p n Hn. destruct p; [|discriminate]. injection Hn as <-.
    constructor.
  - split; cbn.
    + intros k idx H. rewrite lookup_empty in H. discriminate.
    + intros i pg H. destruct i; discriminate.
Qed.

(** An accepted link whose page cannot be fetched, or has no content to
    extract, is reported; nothing is stored for it and
    [processLinkAndDownload] returns. *)
Lemma processLinkAndDownload_failure s link u :
  Spec.good s ->
  harvester.DownloadAll (harvester.hc s) = true ->
  fst (harvester.isParentURL (harvester.hc s) link) = true ->
  url_Parse link = Some u ->
  tree.map_get (tree.VisitedURLs (harvester.WebTree (harvester.hc s)))
               (tree.normalizeURL (Some u)) = false ->
  exists s',
    harvester.processLinkAndDownload s link = (Ok tt, s')
    /\ match crawler.FetchPage (harvester.clock s) (url_String u) with
       | Failed e =>
           harvester.Storage_ (harvester.hc s')
           = harvester.Storage_ (harvester.hc s)
           /\ exists evs,
               harvester.trace s'
               = harvester.trace s ++ evs
                 ++ [FetchPage_call (url_String u);
                     Print_failed_fetch (url_String u) e]
       | Done doc =>
           match fst (extractor.ExtractContent doc) with
           | Failed e =>
               harvester.Storage_ (harvester.hc s')
               = harvester.Storage_ (harvester.hc s)
               /\ exists evs,
                   harvester.trace s'
                   = harvester.trace s ++ evs
                     ++ [FetchPage_call (url_String u);
                         Print_failed_extract (url_String u) e]
           | Done _ => True
           end
       end.
Proof.
  intros Hgood Hd Hacc Hp Hv. unfold harvester.processLinkAndDownload.
  destruct (harvester.isParentURL (harvester.hc s) link) as [acc printed].
  cbn [fst] in Hacc. subst acc.
  set (s1 := harvester.report _ _).
  assert (H1 : Spec.good s1
               /\ harvester.DownloadAll (harvester.hc s1) = true
               /\ harvester.clock s1 = harvester.clock s
               /\ harvester.WebTree (harvester.hc s1)
                  = harvester.WebTree (harvester.hc s)
               /\ harvester.Storage_ (harvester.hc s1)
                  = harvester.Storage_ (harvester.hc s)
               /\ exists evs, harvester.trace s1 = harvester.trace s ++ evs).
  { subst s1. unfold harvester.report.
    destruct (negb _); (split; [exact Hgood|]); repeat split; auto; proj.
    - eexists. rewrite <- app_assoc. reflexivity.
    - eexists. reflexivity. }
  destruct H1 as (Hg1 & Hd1 & Hck & Ht & Hst & evs & Htr).
  rewrite Hd1.
  destruct (downloadLink_spec s1 link Hg1) as (s' & -> & _ & _ & _ & _ & H).
  exists s'. split; [reflexivity|].
  rewrite Hp, Ht, Hv, Hck in H.
  destruct (crawler.FetchPage _ _) as [doc|e].
  - destruct (fst (extractor.ExtractContent doc)); [exact I|].
    destruct H as [-> ->]. split; [exact Hst|].
    exists evs. rewrite Htr, <- app_assoc. reflexivity.
  - destruct H as [-> ->]. split; [exact Hst|].
    exists evs. rewrite Htr, <- app_assoc. reflexivity.
Qed.

End good_states.

(* ================================================================== *)
(** * The pages requested *)

Section fetch_facts.
Context {U : NetURL} {W : World}.
Implicit Types (s : harvester.State).

Lemma adds_nothing P s s' :
  Spec.fetches (harvester.trace s') = Spec.fetches (harvester.trace s) ->
  harvester.RootURL (harvester.hc s') = harvester.RootURL (harvester.hc s) ->
  harvester.Debug (harvester.hc s') = harvester.Debug (harvester.hc s) ->
  (forall k, Spec.visited_in s k = true -> Spec.visited_in s' k = true) ->
  Spec.adds P s s' [].
Proof.
  intros H1 H2 H3 H4. unfold Spec.adds. rewrite H1, app_nil_r.
  split; [reflexivity|]. split; [exact H2|]. split; [exact H3|].
  split; [exact H4|]. intros k u H. inversion H.
Qed.

Lemma assign_Title_frame s p title s' :
  harvester.assign_Title s p title = Some s' ->
  harvester.hc s' = harvester.hc s
  /\ harvester.trace s' = harvester.trace s.
Proof.
  unfold harvester.assign_Title.
  destruct (harvester.mem s !! p); [|discriminate].
  intros [= <-]. auto.
Qed.

Lemma SaveNodeContent_frame s webNode content r s' :
  harvester.SaveNodeContent s webNode content = (r, s') ->
  harvester.trace s' = harvester.trace s
  /\ harvester.WebTree (harvester.hc s') = harvester.WebTree (harvester.hc s)
  /\ harvester.RootURL (harvester.hc s') = harvester.RootURL (harvester.hc s)
  /\ harvester.Debug (harvester.hc s') = harvester.Debug (harvester.hc s).
Proof.
  unfold harvester.SaveNodeContent.
  destruct (harvester.Storage_ (harvester.hc s)).
  - intros [= <- <-]. auto.
  - destruct (storage.SaveNodeContent _ _ _ _ _). intros [= <- <-]. auto.
Qed.

(** The body of [processLinkAndDownload] requests at most one page, that
    of the link, and only after marking its canonical form, which was not
    visited. *)
Lemma downloadLink_adds s link r s' :
  harvester.downloadLink s link = (r, s') ->
  exists new, Spec.adds (fun l => l = link) s s' new /\ (length new <= 1)%nat.
Proof.
  unfold harvester.downloadLink.
  destruct (tree.FindNode _ _ _) as [parent|e|];
    try (intros [= <- <-]; exists []; split; [|simpl; lia];
         apply adds_nothing; auto; fail).
  destruct (tree.AddURL _ _ _ _) as [[pl h] t] eqn:Hadd.
  set (s1 := harvester.set_hc (harvester.set_mem s h)
               (harvester.set_WebTree (harvester.hc s) t)).
  apply AddURL_cases in Hadd
    as [(_ & Hr & _ & ->) | [(u & _ & _ & -> & _ & ->)
                            | [(u & _ & _ & q & _ & _ & -> & _ & ->)
                              | (u & Hp & Hv & -> & -> & Hh)]]].
  - destruct pl as [x|e|]; try discriminate.
    intros [= <- <-]. exists []. split; [|simpl; lia].
    apply adds_nothing; auto.
  - intros [= <- <-]. exists []. split; [|simpl; lia].
    apply adds_nothing; auto.
  - intros [= <- <-]. exists []. split; [|simpl; lia].
    apply adds_nothing; auto.
  - set (k := tree.normalizeURL (Some u)) in *.
    assert (Hmono : forall k', Spec.visited_in s k' = true ->
                               Spec.visited_in s1 k' = true).
    { intros k' Hk'. unfold Spec.visited_in, s1. cbn.
      destruct (decide (k = k')) as [<- | Hne];
        [apply map_get_insert | now rewrite map_get_insert_ne]. }
    assert (Hl : exists nd, h !! length (harvester.mem s) = Some nd
                            /\ node.URL nd = Some u).
    { destruct parent as [q|].
      - destruct Hh as (pn & Hq & ->).
        apply lookup_lt_Some in Hq. eexists. split.
        + rewrite list_lookup_insert_ne by lia.
          rewrite lookup_app_r by lia. now rewrite Nat.sub_diag.
        + reflexivity.
      - subst h. eexists. split.
        + rewrite lookup_app_r by lia. now rewrite Nat.sub_diag.
        + reflexivity. }
    destruct Hl as (nd & Hl & Hnd).
    change (harvester.mem s1) with h. rewrite Hl, Hnd.
    unfold harvester.FetchPage.
    set (s2 := harvester.tick (harvester.emit s1 _)).
    assert (Hnew : forall s3,
               Spec.fetches (harvester.trace s3)
               = Spec.fetches (harvester.trace s2) ->
               harvester.WebTree (harvester.hc s3)
               = harvester.WebTree (harvester.hc s2) ->
               harvester.RootURL (harvester.hc s3)
               = harvester.RootURL (harvester.hc s2) ->
               harvester.Debug (harvester.hc s3)
               = harvester.Debug (harvester.hc s2) ->
               Spec.adds (fun l => l = link) s s3 [(k, url_String u)]).
    { intros s3 H1 H2 H3 H4. unfold Spec.adds.
      rewrite H1, H3, H4. unfold Spec.visited_in. rewrite H2.
      split; [subst s2; cbn; now rewrite fetches_app|].
      split; [reflexivity|]. split; [reflexivity|].
      split; [exact Hmono|].
      intros k' u' Hin. apply list_elem_of_singleton in Hin.
      injection Hin as -> ->.
      split; [exact Hv|]. split; [cbn; apply map_get_insert|].
      exists link, u. auto. }
    destruct (crawler.FetchPage _ _) as [doc|e].
    2:{ intros [= <- <-]. exists [(k, url_String u)]. split; [|simpl; lia].
        apply Hnew; auto. cbn. rewrite !fetches_app. cbn.
        now rewrite app_nil_r. }
    destruct (harvester.assign_Title s2 _ _) as [s3|] eqn:Ht.
    2:{ intros [= <- <-]. exists [(k, url_String u)]. split; [|simpl; lia]. apply Hnew; auto. }
    apply assign_Title_frame in Ht as [Hhc3 Htr3].
    destruct (extractor.ExtractContent doc) as [c doc'].
    destruct c as [content|e].
    2:{ intros [= <- <-]. exists [(k, url_String u)]. split; [|simpl; lia].
        apply Hnew; cbn; rewrite ?Hhc3, ?Htr3; auto.
        rewrite fetches_app. cbn. now rewrite app_nil_r. }
    destruct (harvester.SaveNodeContent s3 _ _) as [r4 s4] eqn:Hs.
    apply SaveNodeContent_frame in Hs as (Htr4 & Ht4 & Hr4 & Hd4).
    assert (H4 : Spec.adds (fun l => l = link) s s4 [(k, url_String u)]).
    { apply Hnew; rewrite ?Htr4, ?Ht4, ?Hr4, ?Hd4, ?Hhc3, ?Htr3; auto. }
    destruct r4 as [x|e|]; intros [= <- <-]; exists [(k, url_String u)];
      (split; [|simpl; lia]); try exact H4.
    apply Hnew; cbn [harvester.trace harvester.emit harvester.hc];
      rewrite ?fetches_app, ?Htr4, ?Ht4, ?Hr4, ?Hd4, ?Hhc3, ?Htr3;
      cbn [Spec.fetches]; rewrite ?app_nil_r; auto.
Qed.

Lemma adds_from P P' s0 s s' new :
  Spec.fetches (harvester.trace s) = Spec.fetches (harvester.trace s0) ->
  harvester.WebTree (harvester.hc s) = harvester.WebTree (harvester.hc s0) ->
  harvester.RootURL (harvester.hc s) = harvester.RootURL (harvester.hc s0) ->
  harvester.Debug (harvester.hc s) = harvester.Debug (harvester.hc s0) ->
  (forall l, P l -> P' l) ->
  Spec.adds P s s' new -> Spec.adds P' s0 s' new.
Proof.
  intros H1 H2 H3 H4 HP (A1 & A2 & A3 & A4 & A5). unfold Spec.adds.
  rewrite A1, A2, A3, H1, H3, H4. unfold Spec.visited_in in *.
  rewrite <- H2.
  split; [reflexivity|]. split; [reflexivity|]. split; [reflexivity|].
  split; [exact A4|].
  intros k u Hin. destruct (A5 k u Hin) as (B1 & B2 & l & pu & B3 & B4).
  split; [exact B1|]. split; [exact B2|]. exists l, pu. split; auto.
Qed.

Lemma report_frame s cleanLink :
  let s' := harvester.report s cleanLink in
  Spec.fetches (harvester.trace s') = Spec.fetches (harvester.trace s)
  /\ harvester.WebTree (harvester.hc s') = harvester.WebTree (harvester.hc s)
  /\ harvester.RootURL (harvester.hc s') = harvester.RootURL (harvester.hc s)
  /\ harvester.Debug (harvester.hc s') = harvester.Debug (harvester.hc s).
Proof.
  cbv zeta. unfold harvester.report. destruct (negb _); [|auto].
  cbn. rewrite fetches_app. cbn. rewrite app_nil_r. auto.
Qed.

Lemma report_filtered_frame s link :
  let s' := harvester.report_filtered s link in
  Spec.fetches (harvester.trace s') = Spec.fetches (harvester.trace s)
  /\ harvester.WebTree (harvester.hc s') = harvester.WebTree (harvester.hc s)
  /\ harvester.RootURL (harvester.hc s') = harvester.RootURL (harvester.hc s)
  /\ harvester.Debug (harvester.hc s') = harvester.Debug (harvester.hc s).
Proof.
  cbv zeta. unfold harvester.report_filtered.
  destruct (harvester.Debug _) eqn:Ed; [destruct (tree.IsVisited _ _)|];
    cbn; rewrite ?fetches_app; cbn; rewrite ?app_nil_r, ?Ed; auto.
Qed.

(** [processLinkAndDownload] requests at most one page, that of the
    link, and only when the link is accepted and its canonical form was
    not visited. *)
Lemma processLinkAndDownload_adds s link r s' :
  harvester.processLinkAndDownload s link = (r, s') ->
  exists new,
    Spec.adds (fun l => l = link
                        /\ fst (harvester.isParentURL (harvester.hc s) l)
                           = true)
              s s' new
    /\ (length new <= 1)%nat.
Proof.
  unfold harvester.processLinkAndDownload.
  pose proof (isParentURL_prints (harvester.hc s) link) as [_ Hf].
  destruct (harvester.isParentURL (harvester.hc s) link)
    as [acc printed] eqn:Hacc.
  cbn [snd] in Hf.
  assert (He : Spec.fetches (harvester.trace (harvester.emit s printed))
               = Spec.fetches (harvester.trace s)).
  { cbn. now rewrite fetches_app, Hf, app_nil_r. }
  destruct acc.
  - destruct (report_frame (harvester.emit s printed)
                (harvester.removeFragment
                   (harvester.hc (harvester.emit s printed)) link))
      as (R1 & R2 & R3 & R4).
    cbv zeta in *. set (s1 := harvester.report _ _) in *.
    destruct (harvester.DownloadAll (harvester.hc s1)).
    + intros Hd.
      destruct (downloadLink_adds s1 link r s' Hd) as (new & Ha & Hl).
      exists new. split; [|exact Hl].
      eapply (adds_from _ _ s s1 s' new); [| | | | |exact Ha].
      * rewrite R1. exact He.
      * exact R2.
      * exact R3.
      * exact R4.
      * intros l ->. split; [reflexivity|]. now rewrite Hacc.
    + intros [= <- <-]. exists []. split; [|simpl; lia].
      apply adds_nothing.
      * rewrite R1. exact He.
      * exact R3.
      * exact R4.
      * intros k. unfold Spec.visited_in. now rewrite R2.
  - intros [= <- <-]. exists []. split; [|simpl; lia].
    destruct (report_filtered_frame (harvester.emit s printed) link)
      as (R1 & R2 & R3 & R4).
    cbv zeta in *.
    apply adds_nothing.
    + rewrite R1. exact He.
    + exact R3.
    + exact R4.
    + intros k. unfold Spec.visited_in. now rewrite R2.
Qed.

Lemma adds_app P s s1 s2 new1 new2 :
  Spec.adds P s s1 new1 -> Spec.adds P s1 s2 new2 ->
  Spec.adds P s s2 (new1 ++ new2).
Proof.
  intros (A1 & A2 & A3 & A4 & A5) (B1 & B2 & B3 & B4 & B5).
  unfold Spec.adds. rewrite B1, A1, B2, A2, B3, A3, map_app, app_assoc.
  split; [reflexivity|]. split; [reflexivity|]. split; [reflexivity|].
  split; [auto|].
  intros k u Hin. apply elem_of_app in Hin as [Hin | Hin].
  - destruct (A5 k u Hin) as (C1 & C2 & C3). auto.
  - destruct (B5 k u Hin) as (C1 & C2 & C3). split; [|auto].
    destruct (Spec.visited_in s k) eqn:E; [|reflexivity].
    rewrite (A4 k E) in C1. discriminate.
Qed.

(** The loop of [Download] requests at most one page per canonical form
    not yet visited, and only pages of accepted links of the list. *)
Lemma range_links_adds links s r s' :
  harvester.range_links links s = (r, s') ->
  exists new,
    Spec.adds (fun l => l ∈ links
                        /\ fst (harvester.isParentURL (harvester.hc s) l)
                           = true)
              s s' new
    /\ NoDup (List.map fst new).
Proof.
  revert s. induction links as [|link links IH]; intros s.
  - intros [= <- <-]. exists []. split; [|constructor].
    apply adds_nothing; auto.
  - cbn [harvester.range_links].
    destruct (harvester.processLinkAndDownload s link) as [r1 s1] eqn:E1.
    destruct (processLinkAndDownload_adds s link r1 s1 E1)
      as (new1 & A1 & L1).
    assert (A1' : Spec.adds
                    (fun l => l ∈ link :: links
                              /\ fst (harvester.isParentURL
                                        (harvester.hc s) l) = true)
                    s s1 new1).
    { eapply adds_from; [reflexivity..| |exact A1].
      intros l [-> H]. split; [left|exact H]. }
    assert (N1 : NoDup (List.map fst new1)).
    { destruct new1 as [|x [|y new1]]; simpl in *; try lia.
      - constructor.
      - constructor; [apply not_elem_of_nil | constructor]. }
    destruct r1 as [x|e|];
      try (intros [= <- <-]; exists new1; split; [exact A1'|exact N1]).
    intros Hr. destruct (IH s1 Hr) as (new2 & A2 & N2).
    exists (new1 ++ new2). split.
    + apply (adds_app _ s s1 s' new1 new2 A1').
      destruct A1 as (_ & R & D & _).
      eapply adds_from; [reflexivity..| |exact A2].
      intros l [Hin H]. split; [now right|].
      now rewrite <- (isParentURL_ext (harvester.hc s1) (harvester.hc s)).
    + rewrite map_app. apply NoDup_app. split; [exact N1|].
      split; [|exact N2].
      intros k Hk1 Hk2.
      change (List.map fst new1) with (fst <$> new1) in Hk1.
      change (List.map fst new2) with (fst <$> new2) in Hk2.
      apply list_elem_of_fmap in Hk1 as ([k1 u1] & -> & Hk1).
      apply list_elem_of_fmap in Hk2 as ([k2 u2] & Heq & Hk2).
      cbn in Heq. subst k2.
      destruct A1 as (_ & _ & _ & _ & A5).
      destruct A2 as (_ & _ & _ & _ & B5).
      destruct (A5 _ _ Hk1) as (_ & V1 & _).
      destruct (B5 _ _ Hk2) as (V2 & _). cbn in V2. congruence.
Qed.

(** [Explore] requests the root page and nothing else. *)
Lemma Explore_fetches s :
  Spec.fetches (harvester.trace (snd (harvester.Explore s)))
  = Spec.fetches (harvester.trace s) ++ [harvester.RootURL (harvester.hc s)].
Proof.
  unfold harvester.Explore, harvester.FetchPage.
  set (s1 := harvester.tick (harvester.emit s _)).
  assert (H1 : Spec.fetches (harvester.trace s1)
               = Spec.fetches (harvester.trace s)
                 ++ [harvester.RootURL (harvester.hc s)]).
  { subst s1. cbn. now rewrite fetches_app. }
  destruct (crawler.FetchPage _ _) as [doc|e]; [|exact H1].
  destruct (tree.RootNode _) as [rootNode|]; [|exact H1].
  destruct (harvester.assign_Title s1 rootNode _) as [s2|] eqn:Ht;
    [|exact H1].
  apply assign_Title_frame in Ht as [Hhc Htr].
  destruct (crawler.ExtractLinks _ _) as [links|e]; cbn [snd].
  - destruct (fold_processLink links s2) as (_ & _ & -> & _).
    now rewrite Htr.
  - now rewrite Htr.
Qed.

Lemma canonical_elem k link pu links :
  link ∈ links -> url_Parse link = Some pu ->
  k = tree.normalizeURL (Some pu) ->
  k ∈ Spec.canonicals links.
Proof.
  intros Hin Hp ->. unfold Spec.canonicals.
  apply list_elem_of_omap. exists link. split; [exact Hin|].
  unfold Spec.canonical. now rewrite Hp.
Qed.

Lemma elem_of_accepted c link links :
  link ∈ Spec.accepted c links
  <-> link ∈ links /\ fst (harvester.isParentURL c link) = true.
Proof.
  unfold Spec.accepted.
  rewrite !list_elem_of_In, List.filter_In. reflexivity.
Qed.

(** [Download] requests the root page, and then at most one page per
    canonical form of the accepted links of the root page, each the page
    of such a link. *)
Lemma Download_fetches s :
  exists fetched,
    Spec.fetches (harvester.trace (snd (harvester.Download s)))
    = Spec.fetches (harvester.trace s)
      ++ harvester.RootURL (harvester.hc s) :: fetched
    /\ (length fetched
        <= length (Spec.distinct
                     (Spec.canonicals
                        (Spec.accepted (harvester.hc s)
                                       (Spec.root_links s)))))%nat
    /\ forall x, x ∈ fetched ->
                 exists link pu,
                   link ∈ Spec.accepted (harvester.hc s) (Spec.root_links s)
                   /\ url_Parse link = Some pu /\ x = url_String pu.
Proof.
  unfold harvester.Download, harvester.FetchPage, Spec.root_links.
  set (s1 := harvester.tick (harvester.emit (harvester.emit s _) _)).
  assert (H1 : Spec.fetches (harvester.trace s1)
               = Spec.fetches (harvester.trace s)
                 ++ [harvester.RootURL (harvester.hc s)]).
  { subst s1. cbn. rewrite !fetches_app. cbn. now rewrite app_nil_r. }
  assert (Hnone : forall s' (l L : list string),
             Spec.fetches (harvester.trace s')
             = Spec.fetches (harvester.trace s1) ->
             exists fetched,
               Spec.fetches (harvester.trace s')
               = Spec.fetches (harvester.trace s)
                 ++ harvester.RootURL (harvester.hc s) :: fetched
               /\ (length fetched <= length l)%nat
               /\ forall x, x ∈ fetched ->
                            exists link pu,
                              link ∈ L /\ url_Parse link = Some pu
                              /\ x = url_String pu).
  { intros s' l L H. exists []. rewrite H, H1. split; [reflexivity|].
    split; [simpl; lia|]. intros x Hx. inversion Hx. }
  change (harvester.clock (harvester.emit s _)) with (harvester.clock s).
  change (harvester.RootURL (harvester.hc (harvester.emit s _)))
    with (harvester.RootURL (harvester.hc s)).
  destruct (crawler.FetchPage (harvester.clock s) _) as [doc|e];
    [|now apply Hnone].
  destruct (tree.RootNode _) as [rootNode|]; [|now apply Hnone].
  destruct (harvester.assign_Title s1 rootNode _) as [s2|] eqn:Ht;
    [|now apply Hnone].
  apply assign_Title_frame in Ht as [Hhc2 Htr2].
  destruct (extractor.ExtractContent doc) as [c doc'].
  destruct c as [content|e]; [|apply Hnone; cbn [snd]; now rewrite Htr2].
  destruct (harvester.SaveNodeContent s2 _ _) as [r3 s3] eqn:Hs.
  apply SaveNodeContent_frame in Hs as (Htr3 & Ht3 & Hr3 & Hd3).
  destruct r3 as [x|e|]; try (apply Hnone; cbn [snd]; now rewrite Htr3, Htr2).
  assert (Hroot : harvester.RootURL (harvester.hc s3)
                  = harvester.RootURL (harvester.hc s))
    by (rewrite Hr3, Hhc2; reflexivity).
  assert (Hdbg : harvester.Debug (harvester.hc s3)
                 = harvester.Debug (harvester.hc s))
    by (rewrite Hd3, Hhc2; reflexivity).
  rewrite Hroot. cbn [snd].
  destruct (crawler.ExtractLinks doc' _) as [links|e];
    [|apply Hnone; cbn [snd]; now rewrite Htr3, Htr2].
  set (s4 := harvester.emit s3 _).
  destruct (harvester.range_links links s4) as [r5 s5] eqn:Hrange.
  destruct (range_links_adds links s4 r5 s5 Hrange)
    as (new & (A1 & A2 & A3 & A4 & A5) & Hnd).
  assert (H4 : Spec.fetches (harvester.trace s4)
               = Spec.fetches (harvester.trace s)
                 ++ [harvester.RootURL (harvester.hc s)]).
  { subst s4. cbn. rewrite fetches_app, Htr3, Htr2, H1. cbn.
    now rewrite app_nil_r. }
  assert (Hacc : forall k u, (k, u) ∈ new ->
             exists link pu,
               link ∈ Spec.accepted (harvester.hc s) links
               /\ url_Parse link = Some pu
               /\ k = tree.normalizeURL (Some pu) /\ u = url_String pu).
  { intros k u Hin.
    destruct (A5 k u Hin) as (_ & _ & link & pu & [Hl Ha] & Hp & Hk & Hu).
    exists link, pu. split; [|auto].
    apply elem_of_accepted. split; [exact Hl|].
    rewrite <- Ha. f_equal.
    apply isParentURL_ext; subst s4; cbn; congruence. }
  assert (Hfinal : forall s',
             Spec.fetches (harvester.trace s')
             = Spec.fetches (harvester.trace s5) ->
             exists fetched,
               Spec.fetches (harvester.trace s')
               = Spec.fetches (harvester.trace s)
                 ++ harvester.RootURL (harvester.hc s) :: fetched
               /\ (length fetched
                   <= length (Spec.distinct
                                (Spec.canonicals
                                   (Spec.accepted (harvester.hc s) links))))%nat
               /\ forall x, x ∈ fetched ->
                            exists link pu,
                              link ∈ Spec.accepted (harvester.hc s) links
                              /\ url_Parse link = Some pu
                              /\ x = url_String pu).
  { intros s' H. exists (List.map snd new).
    rewrite H, A1, H4, <- app_assoc. split; [reflexivity|]. split.
    - rewrite length_map, <- (length_map fst).
      apply NoDup_length_distinct; [exact Hnd|].
      intros k Hk. change (List.map fst new) with (fst <$> new) in Hk.
      apply list_elem_of_fmap in Hk as ([k' u] & -> & Hin).
      destruct (Hacc _ _ Hin) as (link & pu & Hl & Hp & Hk & _).
      eapply canonical_elem; eauto.
    - intros y Hy. change (List.map snd new) with (snd <$> new) in Hy.
      apply list_elem_of_fmap in Hy as ([k u] & -> & Hin).
      destruct (Hacc _ _ Hin) as (link & pu & Hl & Hp & _ & Hu).
      exists link, pu. auto. }
  destruct r5 as [x5|e5|]; try (apply Hfinal; reflexivity).
  destruct (_ !! rootNode) as [root|]; [|apply Hfinal; reflexivity].
  destruct (node.URL root) as [u|]; [|apply Hfinal; reflexivity].
  destruct (harvester.CreateIndexFile s5 _); [apply Hfinal; reflexivity|].
  cbn [snd].
  destruct (harvester.Debug (harvester.hc s5)); apply Hfinal; [|reflexivity].
  cbn. rewrite fetches_app. cbn. now rewrite app_nil_r.
Qed.

Lemma length_omap_le {A B} (f : A -> option B) (l : list A) :
  (length (omap f l) <= length l)%nat.
Proof.
  induction l as [|x l IH]; [reflexivity|]. cbn.
  destruct (f x); cbn; lia.
Qed.

(** There are no more distinct canonical forms than distinct links. *)
Lemma length_distinct_canonicals links :
  (length (Spec.distinct (Spec.canonicals links))
   <= length (Spec.distinct links))%nat.
Proof.
  etransitivity; [|apply (length_omap_le Spec.canonical)].
  apply submseteq_length, NoDup_submseteq; [apply NoDup_distinct|].
  intros k Hk. apply (proj1 (elem_of_distinct _ _)) in Hk.
  unfold Spec.canonicals in Hk.
  apply list_elem_of_omap in Hk as (link & Hl & Hc).
  apply list_elem_of_omap. exists link. split; [|exact Hc].
  now apply elem_of_distinct.
Qed.

End fetch_facts.

(* ================================================================== *)
(** * The link classifier *)

Section classifier.
Context {U : NetURL} {W : World}.

Lemma topicKeyword_no_slash :
  Strings.IndexByte harvester.topicKeyword "/" = false.
Proof. reflexivity. Qed.

Lemma isParentURL_answer (c : harvester.HarvesterContext) (link : string) :
  fst (harvester.isParentURL c link) =
  match url_Parse (harvester.RootURL c), url_Parse link with
  | Some root, Some candidate =>
      let currentPath := Strings.TrimRight (url.Path root) "/" in
      String.eqb (url.Host root) (url.Host candidate)
      && Spec.has_separator currentPath
      && (String.eqb (Strings.TrimRight (url.Path candidate) "/")
                     (Spec.parent_path currentPath)
          || Strings.Contains (Spec.parent_path currentPath)
                              harvester.topicKeyword
             && Strings.Contains (url.Path candidate)
                                 harvester.topicKeyword)
  | _, _ => false
  end.
Proof.
  unfold harvester.isParentURL, Spec.has_separator, Spec.parent_path.
  destruct (url_Parse (harvester.RootURL c)) as [root|]; [|reflexivity].
  destruct (url_Parse link) as [candidate|]; [|reflexivity].
  cbv zeta.
  destruct (String.eqb (url.Host root) (url.Host candidate));
    [|reflexivity].
  rewrite LastIndex_none.
  rewrite (Contains_TrimRight harvester.topicKeyword (url.Path candidate)
             topicKeyword_no_slash).
  cbn [negb andb].
  destruct (Strings.Contains (Strings.TrimRight (url.Path root) "/") "/");
    [|reflexivity].
  cbn [negb andb].
  destruct (String.eqb _ _); [reflexivity|].
  cbn [orb].
  destruct (_ && _); reflexivity.
Qed.

End classifier.

(** C2, as amended: [isParentURL] accepts a candidate if and only if both
    URLs parse, the hosts are equal, the root path stripped of its trailing
    slashes has a separator, and either the candidate's path stripped of its
    trailing slashes is the parent-path of the stripped root path, or that
    parent-path and the candidate's path both contain the topic keyword.  A
    root or a candidate that does not parse is therefore rejected. *)
Theorem C2_isParentURL_accepts {U : NetURL} {W : World}
        (c : harvester.HarvesterContext) (link : string) :
  fst (harvester.isParentURL c link) = true <->
  exists root candidate,
    url_Parse (harvester.RootURL c) = Some root
    /\ url_Parse link = Some candidate
    /\ url.Host root = url.Host candidate
    /\ Spec.has_separator (Strings.TrimRight (url.Path root) "/") = true
    /\ (Strings.TrimRight (url.Path candidate) "/"
        = Spec.parent_path (Strings.TrimRight (url.Path root) "/")
        \/ (Strings.Contains
              (Spec.parent_path (Strings.TrimRight (url.Path root) "/"))
              harvester.topicKeyword = true
            /\ Strings.Contains (url.Path candidate) harvester.topicKeyword
               = true)).
Proof.
  rewrite isParentURL_answer. split.
  - destruct (url_Parse (harvester.RootURL c)) as [root|]; [|discriminate].
    destruct (url_Parse link) as [candidate|]; [|discriminate].
    cbv zeta. intros H.
    apply andb_true_iff in H as [H H3].
    apply andb_true_iff in H as [H1 H2].
    exists root, candidate. repeat split; try assumption.
    + now apply String.eqb_eq.
    + apply orb_true_iff in H3 as [H3 | H3].
      * left. now apply String.eqb_eq.
      * right. now apply andb_true_iff.
  - intros (root & candidate & -> & -> & Hh & Hs & Hp). cbv zeta.
    rewrite Hs. apply String.eqb_eq in Hh. rewrite Hh. cbn [andb].
    destruct Hp as [Hp | [Hp1 Hp2]].
    + apply String.eqb_eq in Hp. now rewrite Hp.
    + rewrite Hp1, Hp2. now rewrite orb_true_r.
Qed.

Section C2_concrete.
#[local] Existing Instance plain.net_url.

(** C2 as stated fails: with the root
    [https://x.test/docs/guide/page/] the parent-path of the root path is
    [/docs/guide/page], which the candidate
    [https://x.test/docs/guide/page] matches, but [isParentURL] strips the
    root path first and rejects the candidate. *)
Lemma C2_counterexample :
  Spec.accepts "https://x.test/docs/guide/page/"
               "https://x.test/docs/guide/page" = true
  /\ harvester.NewExplorerContext "https://x.test/docs/guide/page/" 2 false
     = Ok (Examples.explorer "https://x.test/docs/guide/page/" 2 false)
  /\ fst (harvester.isParentURL
            (harvester.hc
               (Examples.explorer "https://x.test/docs/guide/page/" 2 false))
            "https://x.test/docs/guide/page") = false.
Proof. repeat split; vm_compute; reflexivity. Qed.

End C2_concrete.

(* ================================================================== *)
(** * The properties of the site tree *)


Section C1_concrete.
#[local] Existing Instance plain.net_url.


End C1_concrete.

Section concrete_tree.
#[local] Existing Instance plain.net_url.

(** The tree of the examples is built via [NewWebTree] and [AddURL]. *)
Lemma docs_tree_built : Spec.built Examples.docs_heap Examples.docs_tree.
Proof.
  eapply Spec.built_add with (h := Examples.root_heap Examples.docs_root)
                             (t := Examples.root_tree 2)
                             (urlStr := Examples.docs_child)
                             (parent := Some 0%nat)
                             (r := Ok (Some 1%nat)).
  - eapply Spec.built_new with (rootURL := Examples.docs_root)
                               (maxDepth := 2).
    vm_compute. reflexivity.
  - vm_compute. lia.
  - vm_compute. reflexivity.
Qed.

End concrete_tree.

(** C5: in a tree built via [NewWebTree] and [AddURL] the root has depth 0;
    every node made with a parent has the depth of its parent plus 1 (in the
    arithmetic of [int], which is the sum itself as long as the nodes can be
    counted by an [int]); and every child of a node has that node as its
    parent, so the equation holds along every path from the root. *)
Theorem C5_depth_invariant {U : NetURL} (h : node.heap) (t : tree.WebTree) :
  Spec.built h t ->
  (exists r rn, tree.RootNode t = Some r /\ h !! r = Some rn
                /\ node.Depth rn = 0)
  /\ (forall p n q,
         h !! p = Some n -> node.Parent n = Some q ->
         exists pn, h !! q = Some pn
                    /\ node.Depth n = int_add (node.Depth pn) 1
                    /\ (Z.of_nat (length h) <= 2 ^ 63 ->
                        node.Depth n = node.Depth pn + 1))
  /\ (forall q pn c,
         h !! q = Some pn -> c ∈ node.Children pn ->
         exists n, h !! c = Some n /\ node.Parent n = Some q).
Proof.
  intros Hb. destruct (built_wf h t Hb) as (Hwf & Hroot & rn & Hrn & Hpar).
  split; [|split].
  - exists 0%nat, rn. repeat split; auto.
    destruct (Hwf _ _ Hrn) as (H1 & _). now rewrite Hpar in H1.
  - intros p n q Hn Hq. destruct (Hwf _ _ Hn) as (H1 & _).
    rewrite Hq in H1. destruct H1 as (Hlt & pn & Hpn & Hd & _).
    exists pn. repeat split; auto. intros Hlen.
    destruct (Hwf _ _ Hpn) as (_ & H2 & _).
    pose proof (lookup_lt_Some _ _ _ Hn).
    rewrite Hd. apply int_add_small; lia.
  - intros q pn c Hpn Hc. destruct (Hwf _ _ Hpn) as (_ & _ & H3).
    rewrite Forall_forall in H3. destruct (H3 c Hc) as (_ & cn & Hcn & Hp).
    eauto.
Qed.

Section C5_concrete.
#[local] Existing Instance plain.net_url.

Lemma C5_witness :
  Spec.built Examples.docs_heap Examples.docs_tree
  /\ exists r rn, tree.RootNode Examples.docs_tree = Some r
                  /\ Examples.docs_heap !! r = Some rn
                  /\ node.Depth rn = 0.
Proof.
  split; [exact docs_tree_built|].
  exact (proj1 (C5_depth_invariant _ _ docs_tree_built)).
Defined.

End C5_concrete.

(** C8, as amended: in a tree built via [NewWebTree] and [AddURL],
    [FindNode] returns nil for a URL that does not parse, and otherwise the
    first node, in the depth-first order from the root, whose URL rendered
    without its fragment equals the target rendered without its fragment
    (trailing slashes of the path are kept and compared), or nil when there
    is none. *)
Theorem C8_FindNode_first_same_page {U : NetURL}
        (h : node.heap) (t : tree.WebTree) :
  Spec.built h t ->
  (forall urlStr, url_Parse urlStr = None -> tree.FindNode h t urlStr = Ok None)
  /\ exists l,
      Spec.preorder h 0%nat l
      /\ tree.RootNode t = Some 0%nat
      /\ forall urlStr target,
          url_Parse urlStr = Some target ->
          tree.FindNode h t urlStr
          = Ok (Spec.first_match h (fun n => tree.same_page n target) l).
Proof.
  intros Hb. split; [intros; now apply FindNode_unparsable|].
  destruct (built_wf h t Hb) as (Hwf & Hroot & rn & Hrn & _).
  destruct (preorder_exists h Hwf (length h) 0%nat) as [l Hl];
    [lia | eapply lookup_lt_Some; eauto |].
  exists l. repeat split; auto.
  intros urlStr target Hp. now apply FindNode_first.
Qed.

Section C8_concrete.
#[local] Existing Instance plain.net_url.

Lemma C8_witness :
  Spec.built Examples.docs_heap Examples.docs_tree
  /\ forall urlStr,
      url_Parse urlStr = None ->
      tree.FindNode Examples.docs_heap Examples.docs_tree urlStr = Ok None.
Proof.
  split; [exact docs_tree_built|].
  exact (proj1 (C8_FindNode_first_same_page _ _ docs_tree_built)).
Defined.

(** C8 as stated fails: the tree has the child [https://x.test/docs/a/];
    the target [https://x.test/docs/a] has the same canonical form, and
    the child is the first node of the depth-first order with that
    canonical form, but [FindNode] compares the URLs with their trailing
    slashes and returns nil. *)
Lemma C8_counterexample :
  Spec.preorder Examples.docs_heap 0%nat [0%nat; 1%nat]
  /\ (exists target,
         url_Parse "https://x.test/docs/a" = Some target
         /\ Spec.first_match Examples.docs_heap (Spec.same_canonical target)
                             [0%nat; 1%nat] = Some 1%nat)
  /\ tree.FindNode Examples.docs_heap Examples.docs_tree
                   "https://x.test/docs/a" = Ok None.
Proof.
  split; [|split].
  - eapply (Spec.preorder_node _ 0%nat _ [1%nat]); [vm_compute; reflexivity|].
    apply (Spec.preorder_cons _ 1%nat [] [1%nat] []); [|constructor].
    eapply (Spec.preorder_node _ 1%nat _ []); [vm_compute; reflexivity|].
    constructor.
  - eexists. split; vm_compute; reflexivity.
  - vm_compute. reflexivity.
Qed.

End C8_concrete.

(* ================================================================== *)
(** * The properties of the document store *)

(** C3, as amended: the store holds at most one record per URL string, the
    key being the URL of the node as [URL.String] renders it, fragment and
    trailing slash included; [SaveNodeContent] inserts the record of that
    key or replaces it in place, so after two successful calls for the same
    URL string there is exactly one record with it, holding the content of
    the second call, and the second call adds no record. *)
Theorem C3_one_record_per_URL_string {U : NetURL} {W : World}
        (s : storage.XMLStorage) :
  Spec.saved s ->
  NoDup (List.map storage.URL (Spec.records s))
  /\ forall h1 now1 n1 c1 s1 h2 now2 n2 c2 s2,
      storage.SaveNodeContent h1 now1 s n1 c1 = (Ok tt, s1) ->
      storage.SaveNodeContent h2 now2 s1 n2 c2 = (Ok tt, s2) ->
      Spec.node_url h2 n2 = Spec.node_url h1 n1 ->
      exists key pg,
        Spec.node_url h1 n1 = Some key
        /\ Spec.records_of s2 key = [pg]
        /\ storage.Content pg = c2
        /\ length (Spec.records s2) = length (Spec.records s1).
Proof.
  intros Hs. split; [apply store_ok_NoDup, saved_store_ok, Hs|].
  intros h1 now1 n1 c1 s1 h2 now2 n2 c2 s2 H1 H2 Hkey.
  pose proof (Spec.saved_save _ _ _ _ _ _ _ Hs H1) as Hs1.
  pose proof (Spec.saved_save _ _ _ _ _ _ _ Hs1 H2) as Hs2.
  apply save_record in H1 as (key & i1 & pg1 & Hk1 & _ & _ & _ & [x Hx] & _).
  destruct (save_record _ _ _ _ _ _ H2)
    as (key2 & i2 & pg2 & Hk2 & Hl2 & Hu2 & Hc2 & _ & Hlen).
  assert (Hk : key2 = key) by congruence.
  rewrite Hk in Hlen, Hu2. rewrite Hx in Hlen.
  exists key, pg2. repeat split; auto.
  unfold Spec.records_of. rewrite <- Hu2.
  eapply filter_URL_unique; [|exact Hl2].
  apply store_ok_NoDup, saved_store_ok, Hs2.
Qed.

Section C3_concrete.
#[local] Existing Instance plain.net_url.
#[local] Existing Instance Examples.up.

Lemma store0_saved : Spec.saved Examples.store0.
Proof.
  apply (Spec.saved_new 0%nat "docs.xml" Examples.docs_root).
  reflexivity.
Qed.

Lemma store2_saved : Spec.saved Examples.store2.
Proof.
  eapply Spec.saved_save;
    [eapply Spec.saved_save; [exact store0_saved|]|];
    unfold Examples.store2, Examples.store1; apply surjective_pairing.
Qed.

Lemma C3_witness :
  Spec.saved Examples.store2
  /\ NoDup (List.map storage.URL
              (Spec.records (Examples.store2))).
Proof.
  split; [exact store2_saved|].
  exact (proj1 (C3_one_record_per_URL_string _ store2_saved)).
Defined.

(** C3 as stated fails: the root [https://x.test/docs] and its child
    [https://x.test/docs/] have the same canonical form, and saving both
    leaves two records. *)
Lemma C3_counterexample :
  Spec.saved Examples.store2
  /\ List.map storage.URL
       (Spec.records (Examples.store2))
     = ["https://x.test/docs"; "https://x.test/docs/"]
  /\ Spec.canonical "https://x.test/docs"
     = Spec.canonical "https://x.test/docs/"
  /\ Spec.canonical "https://x.test/docs" = Some "https://x.test/docs".
Proof.
  split; [exact store2_saved|]. repeat split; vm_compute; reflexivity.
Qed.

End C3_concrete.

(* ================================================================== *)
(** * The properties of the orchestrator *)

(** C4, as amended: when the root page is fetched, [Explore] prints
    exactly one report line per distinct accepted link after its fragment
    is removed, in the order of first occurrence; accepted links that
    differ in the fragment only share a line, and accepted links that differ
    in a trailing slash of the path have a line each. *)
Theorem C4_Explore_reports {U : NetURL} {W : World}
        (rootURL : string) (maxDepth : Z) (debug : bool)
        (s0 : harvester.State) (doc : html.Node) (links : list string) :
  harvester.NewExplorerContext rootURL maxDepth debug = Ok s0 ->
  crawler.FetchPage 0 rootURL = Done doc ->
  crawler.ExtractLinks doc rootURL = Done links ->
  let reports :=
    List.map (harvester.removeFragment (harvester.hc s0))
             (Spec.accepted (harvester.hc s0) links) in
  let printed := Spec.hrefs (harvester.trace (snd (harvester.Explore s0))) in
  fst (harvester.Explore s0) = Ok tt
  /\ printed = Spec.distinct reports
  /\ NoDup printed
  /\ forall x, x ∈ printed <-> x ∈ reports.
Proof.
  intros Hnew Hf Hl. cbv zeta.
  apply NewExplorerContext_Ok in Hnew as (u & Hu & _ & ->).
  destruct (Explore_fresh rootURL maxDepth debug u doc links Hu Hf Hl)
    as (s1 & -> & Hhc & Htr).
  cbn [fst snd].
  destruct (fold_processLink links s1) as (_ & _ & _ & Hh).
  assert (Hp : Spec.hrefs
                 (harvester.trace (fold_left harvester.processLink links s1))
               = Spec.distinct
                   (List.map
                      (harvester.removeFragment
                         (harvester.hc
                            (Examples.explorer rootURL maxDepth debug)))
                      (Spec.accepted
                         (harvester.hc
                            (Examples.explorer rootURL maxDepth debug))
                         links))).
  { rewrite Hh, Htr, Hhc. cbn [Spec.hrefs app].
    exact (unprinted_empty _). }
  rewrite Hp. repeat split.
  - apply NoDup_distinct.
  - apply elem_of_distinct.
  - apply elem_of_distinct.
Qed.

Section C4_concrete.
#[local] Existing Instance plain.net_url.
#[local] Existing Instance Examples.up.

Lemma C4_witness :
  harvester.NewExplorerContext Examples.site_root 2 false
  = Ok (Examples.explorer Examples.site_root 2 false)
  /\ crawler.FetchPage 0 Examples.site_root
     = Done (Examples.page "Page" Examples.site_links)
  /\ crawler.ExtractLinks (Examples.page "Page" Examples.site_links)
                          Examples.site_root
     = Done Examples.site_links
  /\ fst (harvester.Explore (Examples.explorer Examples.site_root 2 false))
     = Ok tt.
Proof.
  assert (H1 : harvester.NewExplorerContext Examples.site_root 2 false
               = Ok (Examples.explorer Examples.site_root 2 false))
    by (vm_compute; reflexivity).
  assert (H2 : crawler.FetchPage 0 Examples.site_root
               = Done (Examples.page "Page" Examples.site_links))
    by (vm_compute; reflexivity).
  assert (H3 : crawler.ExtractLinks
                 (Examples.page "Page" Examples.site_links)
                 Examples.site_root
               = Done Examples.site_links)
    by (vm_compute; reflexivity).
  split; [exact H1 | split; [exact H2 | split; [exact H3|]]].
  exact (proj1 (C4_Explore_reports _ _ _ _ _ _ H1 H2 H3)).
Defined.

(** C4 as stated fails: on the site of the scenario the three accepted
    links have one canonical form, [https://x.test/docs/guide], and
    [Explore] prints two report lines, one for the link without and one
    for the link with the trailing slash. *)
Lemma C4_counterexample :
  harvester.NewExplorerContext Examples.site_root 2 false
  = Ok (Examples.explorer Examples.site_root 2 false)
  /\ Spec.accepted
       (harvester.hc (Examples.explorer Examples.site_root 2 false))
       Examples.site_links
     = ["https://x.test/docs/guide"; "https://x.test/docs/guide/";
        "https://x.test/docs/guide#top"]
  /\ Spec.distinct
       (Spec.canonicals
          (Spec.accepted
             (harvester.hc (Examples.explorer Examples.site_root 2 false))
             Examples.site_links))
     = ["https://x.test/docs/guide"]
  /\ Spec.hrefs
       (harvester.trace
          (snd (harvester.Explore
                  (Examples.explorer Examples.site_root 2 false))))
     = ["https://x.test/docs/guide"; "https://x.test/docs/guide/"].
Proof. repeat split; vm_compute; reflexivity. Qed.

End C4_concrete.

(** C6: [Download] returns an error when the root page cannot be fetched,
    and then nothing but the announcement and the request has happened: no
    link is gone through, the store, the tree and the files are as before.
    When the root page is fetched and has content, [Download] returns
    success and has gone through every link of the page, whatever happened
    to the links: in each state of the loop, an accepted link whose page
    cannot be fetched or has no content to extract is reported, nothing is
    stored for it, and the loop goes on with the remaining links. *)
Theorem C6_Download_failure_policy {U : NetURL} {W : World}
        (s : harvester.State) :
  (forall e,
      crawler.FetchPage (harvester.clock s)
                        (harvester.RootURL (harvester.hc s)) = Failed e ->
      let s' := snd (harvester.Download s) in
      fst (harvester.Download s) = Err (ErrWrap "failed to fetch the URL" e)
      /\ harvester.hc s' = harvester.hc s
      /\ harvester.mem s' = harvester.mem s
      /\ harvester.files s' = harvester.files s
      /\ harvester.trace s'
         = harvester.trace s
           ++ [Print_downloading (harvester.RootURL (harvester.hc s));
               FetchPage_call (harvester.RootURL (harvester.hc s))])
  /\ (Spec.good s ->
      forall doc content doc',
        crawler.FetchPage (harvester.clock s)
                          (harvester.RootURL (harvester.hc s)) = Done doc ->
        extractor.ExtractContent doc = (Done content, doc') ->
        exists s1 links,
          crawler.ExtractLinks doc' (harvester.RootURL (harvester.hc s))
          = Done links
          /\ Spec.good s1
          /\ harvester.Download s = (Ok tt, Spec.process_all links s1))
  /\ (Spec.good s ->
      forall links,
        harvester.range_links links s = (Ok tt, Spec.process_all links s)
        /\ Spec.good (Spec.process_all links s))
  /\ (Spec.good s ->
      harvester.DownloadAll (harvester.hc s) = true ->
      forall link u,
        fst (harvester.isParentURL (harvester.hc s) link) = true ->
        url_Parse link = Some u ->
        tree.map_get (tree.VisitedURLs (harvester.WebTree (harvester.hc s)))
                     (tree.normalizeURL (Some u)) = false ->
        exists s',
          harvester.processLinkAndDownload s link = (Ok tt, s')
          /\ match crawler.FetchPage (harvester.clock s) (url_String u) with
             | Failed e =>
                 harvester.Storage_ (harvester.hc s')
                 = harvester.Storage_ (harvester.hc s)
                 /\ exists evs,
                     harvester.trace s'
                     = harvester.trace s ++ evs
                       ++ [FetchPage_call (url_String u);
                           Print_failed_fetch (url_String u) e]
             | Done doc =>
                 match fst (extractor.ExtractContent doc) with
                 | Failed e =>
                     harvester.Storage_ (harvester.hc s')
                     = harvester.Storage_ (harvester.hc s)
                     /\ exists evs,
                         harvester.trace s'
                         = harvester.trace s ++ evs
                           ++ [FetchPage_call (url_String u);
                               Print_failed_extract (url_String u) e]
                 | Done _ => True
                 end
             end).
Proof.
  split; [|split; [|split]].
  - intros e He. cbv zeta. rewrite (Download_fetch_fails s e He).
    cbn [fst snd]. repeat split; reflexivity.
  - intros Hgood doc content doc' Hf Hc.
    destruct (Download_good s doc content doc' Hgood Hf Hc)
      as (s1 & links & Hl & Hg1 & Hd & _).
    eauto.
  - intros Hgood links.
    destruct (range_links_good links s Hgood) as (H1 & H2 & _). auto.
  - intros Hgood Hd link u Hacc Hp Hv.
    now apply processLinkAndDownload_failure.
Qed.

Section C6_concrete.
#[local] Existing Instance plain.net_url.
#[local] Existing Instance Examples.parent_down.

Lemma downloader_good :
  Spec.good (Examples.downloader Examples.site_root 2 false).
Proof.
  apply (NewXMLDownloaderContext_good
           Examples.site_root "docs.xml" Examples.site_root 2 false true
           (harvester.set_hc
              (Examples.downloader Examples.site_root 2 false)
              (harvester.set_DownloadAll
                 (harvester.hc
                    (Examples.downloader Examples.site_root 2 false))
                 false))).
  vm_compute. reflexivity.
Qed.

(** The run of the scenario in a world where the accepted parent page
    is not served: the download succeeds and the failure is reported. *)
Lemma C6_witness :
  Spec.good (Examples.downloader Examples.site_root 2 false)
  /\ fst (harvester.Download (Examples.downloader Examples.site_root 2 false))
     = Ok tt
  /\ harvester.trace
       (snd (harvester.Download
               (Examples.downloader Examples.site_root 2 false)))
     = [Print_downloading Examples.site_root;
        FetchPage_call Examples.site_root;
        Print_found_links 5;
        Print_href "https://x.test/docs/guide";
        FetchPage_call "https://x.test/docs/guide";
        Print_failed_fetch "https://x.test/docs/guide"
          (ErrWrap "failed to fetch the URL" (ErrMsg "connection refused"));
        Print_href "https://x.test/docs/guide/"].
Proof.
  split; [exact downloader_good|]. split; [|vm_compute; reflexivity].
  assert (Hf : crawler.FetchPage
                 (harvester.clock
                    (Examples.downloader Examples.site_root 2 false))
                 (harvester.RootURL
                    (harvester.hc
                       (Examples.downloader Examples.site_root 2 false)))
               = Done (Examples.page "Page" Examples.site_links))
    by (vm_compute; reflexivity).
  assert (Hc : extractor.ExtractContent
                 (Examples.page "Page" Examples.site_links)
               = (Done "body", Examples.page "Page" Examples.site_links))
    by (vm_compute; reflexivity).
  destruct (proj1 (proj2 (C6_Download_failure_policy
                            (Examples.downloader Examples.site_root 2 false)))
              downloader_good _ _ _ Hf Hc)
    as (s1 & links & _ & _ & Hd).
  rewrite Hd. reflexivity.
Defined.

End C6_concrete.

(** C7: expansion is single-level.  From any state, so whatever the
    maximum depth, [Explore] requests the root page and no other; [Download]
    requests the root page and then at most one page per distinct accepted
    link of the root page (at most one per canonical form of them), and
    every page requested after the root is that of an accepted link found
    on the root page: the links of the other pages are never looked at. *)
Theorem C7_single_level {U : NetURL} {W : World} (s : harvester.State) :
  Spec.fetches (harvester.trace (snd (harvester.Explore s)))
  = Spec.fetches (harvester.trace s) ++ [harvester.RootURL (harvester.hc s)]
  /\ exists fetched,
      Spec.fetches (harvester.trace (snd (harvester.Download s)))
      = Spec.fetches (harvester.trace s)
        ++ harvester.RootURL (harvester.hc s) :: fetched
      /\ (length fetched
          <= length (Spec.distinct
                       (Spec.canonicals
                          (Spec.accepted (harvester.hc s)
                                         (Spec.root_links s)))))%nat
      /\ (length fetched
          <= length (Spec.distinct
                       (Spec.accepted (harvester.hc s)
                                      (Spec.root_links s))))%nat
      /\ forall x, x ∈ fetched ->
                   exists link pu,
                     link ∈ Spec.accepted (harvester.hc s) (Spec.root_links s)
                     /\ url_Parse link = Some pu /\ x = url_String pu.
Proof.
  split; [apply Explore_fetches|].
  destruct (Download_fetches s) as (fetched & H1 & H2 & H3).
  exists fetched. split; [exact H1|]. split; [exact H2|]. split; [|exact H3].
  etransitivity; [exact H2|]. apply length_distinct_canonicals.
Qed.

(** C10: the maximum depth has no effect on what can be observed.  For
    every root URL, world and debug flag, and any two values of the maximum
    depth, a run of [Explore] and a run of [Download] end with the same
    outcome, the same events (lines printed and pages requested, in order),
    the same store, files, nodes, printed URLs and visited set. *)
Theorem C10_MaxDepth_no_effect {U : NetURL} {W : World}
        (rootURL xmlFilePath baseURL : string) (debug downloadAll : bool)
        (maxDepth1 maxDepth2 : Z) :
  Spec.observe_run (Spec.explore_run rootURL maxDepth1 debug)
  = Spec.observe_run (Spec.explore_run rootURL maxDepth2 debug)
  /\ Spec.observe_run
       (Spec.download_run rootURL xmlFilePath baseURL maxDepth1 debug
                          downloadAll)
     = Spec.observe_run
         (Spec.download_run rootURL xmlFilePath baseURL maxDepth2 debug
                            downloadAll).
Proof.
  split.
  - rewrite (explore_run_MaxDepth rootURL maxDepth1),
      (explore_run_MaxDepth rootURL maxDepth2). reflexivity.
  - rewrite (download_run_MaxDepth rootURL xmlFilePath baseURL maxDepth1),
      (download_run_MaxDepth rootURL xmlFilePath baseURL maxDepth2).
    reflexivity.
Qed.


(* ================================================================== *)
(** * The store under concurrent calls: the invariant *)

Section concurrent_store.

Lemma alter_const {A : Type} (f : A -> A) (y : A) (i : nat) (l : list A) :
  (forall x, f x = y) -> alter f i l = <[i := y]> l.
Proof.
  intros Hf. revert i. induction l as [|a l IH]; intros [|i]; cbn; auto.
  - now rewrite Hf.
  - f_equal. apply IH.
Qed.

Lemma alter_alter {A : Type} (f g h : A -> A) (i : nat) (l : list A) :
  (forall x, f (g x) = h x) -> alter f i (alter g i l) = alter h i l.
Proof.
  intros Hf. revert i. induction l as [|a l IH]; intros [|i]; cbn; auto.
  - now rewrite Hf.
  - f_equal. apply IH.
Qed.

Lemma alter_same {A : Type} (f : A -> A) (i : nat) (l : list A) :
  (forall x, f x = x) -> alter f i l = l.
Proof.
  intros Hf. revert i. induction l as [|a l IH]; intros [|i]; cbn; auto.
  - now rewrite Hf.
  - f_equal. apply IH.
Qed.

Lemma assigned_none (new old : storage.XMLPage) :
  Concurrent.assigned 0 new old = old.
Proof. now destruct old. Qed.

Lemma assigned_all (new old : storage.XMLPage) :
  Concurrent.assigned Concurrent.fields new old = new.
Proof. now destruct new. Qed.

Lemma assigned_next (k : nat) (new old : storage.XMLPage) :
  (k < Concurrent.fields)%nat ->
  Concurrent.assign_field k new (Concurrent.assigned k new old)
  = Concurrent.assigned (S k) new old.
Proof.
  unfold Concurrent.fields. intros Hk.
  do 6 (destruct k as [|k]; [reflexivity|]). lia.
Qed.

Lemma run_app (log : list storage.XMLPage) (page : storage.XMLPage) :
  Concurrent.run (log ++ [page])
  = match Concurrent.run log with
    | Some d => Concurrent.upsert d page
    | None => None
    end.
Proof. unfold Concurrent.run. now rewrite fold_left_app. Qed.

Lemma upsert_records (d d' : Concurrent.document) (page r : storage.XMLPage) :
  Concurrent.upsert d page = Some d' ->
  r ∈ fst d' -> r ∈ fst d \/ r = page.
Proof.
  unfold Concurrent.upsert, storage.store_page. intros Hu Hr.
  destruct (snd d !! storage.URL page) as [idx|].
  - destruct (_ && _); [|discriminate]. injection Hu as <-. cbn in Hr.
    apply list_elem_of_lookup in Hr as [j Hj].
    apply list_lookup_insert_Some in Hj as [(_ & -> & _)|[_ Hj]]; auto.
    left. eapply list_elem_of_lookup_2, Hj.
  - injection Hu as <-. cbn in Hr.
    apply elem_of_app in Hr as [Hr|Hr]; auto.
    apply list_elem_of_singleton in Hr. auto.
Qed.

Lemma run_records (log : list storage.XMLPage) :
  forall d r, Concurrent.run log = Some d -> r ∈ fst d -> r ∈ log.
Proof.
  induction log as [|page log IH] using rev_ind; intros d r Hrun Hr.
  - injection Hrun as <-. exact Hr.
  - rewrite run_app in Hrun.
    destruct (Concurrent.run log) as [d0|] eqn:E0; [|discriminate].
    apply elem_of_app.
    destruct (upsert_records _ _ _ _ Hrun Hr) as [H| ->].
    + left. eapply IH; eauto.
    + right. apply list_elem_of_singleton. reflexivity.
Qed.


Lemma holder (d : Concurrent.document) (c : Concurrent.config) (i : nat)
      (g : Concurrent.goroutine) :
  Concurrent.locked d c ->
  Concurrent.goroutines c !! i = Some g ->
  Concurrent.at_ g <> Concurrent.Idle ->
  Concurrent.mutex c = Some i
  /\ Concurrent.holds (Concurrent.at_ g) d (Concurrent.Pages c)
                      (Concurrent.pagesByURL c)
  /\ Concurrent.quiet c i.
Proof.
  unfold Concurrent.locked. intros Hl Hg Hn.
  destruct (Concurrent.mutex c) as [j|].
  - destruct Hl as [(g' & Hg' & Hh) Hq]. destruct (decide (i = j)) as [->|Hij].
    + rewrite Hg in Hg'. injection Hg' as <-. auto.
    + exfalso. apply Hn. eapply Hq; eauto.
  - destruct Hl as [Hall _]. exfalso. eauto.
Qed.

Lemma locked_goto (d : Concurrent.document) (i : nat) (p : Concurrent.pc)
      (rest : list Concurrent.call) (g : Concurrent.goroutine)
      (gs : list Concurrent.goroutine) pages index w :
  gs !! i = Some g ->
  (forall j g', j <> i -> gs !! j = Some g' ->
                Concurrent.at_ g' = Concurrent.Idle) ->
  Concurrent.holds p d pages index ->
  Concurrent.locked d
    (Concurrent.mkConfig (Some i) pages index w
                         (<[i := Concurrent.mkGoroutine p rest]> gs)).
Proof.
  intros Hg Hq Hh. split; cbn.
  - exists (Concurrent.mkGoroutine p rest). split; [|exact Hh].
    apply list_lookup_insert_eq. eapply lookup_lt_Some, Hg.
  - intros j g' Hj. cbn. rewrite list_lookup_insert_ne by auto. eauto.
Qed.

Lemma locked_release (i : nat) (rest : list Concurrent.call)
      (g : Concurrent.goroutine) (gs : list Concurrent.goroutine)
      pages index w :
  gs !! i = Some g ->
  (forall j g', j <> i -> gs !! j = Some g' ->
                Concurrent.at_ g' = Concurrent.Idle) ->
  Concurrent.locked (pages, index)
    (Concurrent.mkConfig None pages index w
                         (<[i := Concurrent.mkGoroutine Concurrent.Idle rest]>
                            gs)).
Proof.
  intros Hg Hq. split; cbn; [|reflexivity]. intros j g' Hj.
  apply list_lookup_insert_Some in Hj as [(_ & <- & _)|[Hij Hj]]; eauto.
Qed.

Lemma sourced_goto (programs : list (list Concurrent.call)) (i : nat)
      (g g' : Concurrent.goroutine) (gs : list Concurrent.goroutine)
      m pages index w m' pages' index' w' :
  Concurrent.sourced programs (Concurrent.mkConfig m pages index w gs) ->
  gs !! i = Some g ->
  (forall page, page ∈ Concurrent.pending g' -> page ∈ Concurrent.pending g) ->
  Concurrent.sourced programs
    (Concurrent.mkConfig m' pages' index' w' (<[i := g']> gs)).
Proof.
  intros Hs Hg Hsub j g'' page Hj Hp. cbn in Hj.
  apply list_lookup_insert_Some in Hj as [(_ & <- & _)|[Hij Hj]].
  - eapply (Hs i g); eauto.
  - eapply (Hs j g''); eauto.
Qed.

Lemma flushed_app (log : list storage.XMLPage) (page : storage.XMLPage)
      (c : Concurrent.config) :
  Concurrent.flushed log c -> Concurrent.flushed (log ++ [page]) c.
Proof.
  intros Hf doc Hdoc. destruct (Hf doc Hdoc) as (n & d & Hn & Hrun & ->).
  exists n, d. rewrite length_app, take_app_le by lia. auto with lia.
Qed.

Lemma inv_init (programs : list (list Concurrent.call)) :
  Concurrent.inv programs [] ([], ∅) (Concurrent.init programs).
Proof.
  split.
  - reflexivity.
  - intros page Hp. inversion Hp.
  - intros i g page Hg Hp. cbn in Hg.
    change (List.map ?f ?l) with (f <$> l) in Hg.
    rewrite list_lookup_fmap in Hg.
    destruct (programs !! i) as [calls|] eqn:Hc; [|discriminate].
    injection Hg as <-. unfold Concurrent.pending in Hp. cbn in Hp.
    apply list_elem_of_In, in_flat_map. exists calls. split.
    + apply list_elem_of_In. eapply list_elem_of_lookup_2, Hc.
    + now apply list_elem_of_In.
  - split; cbn; [|reflexivity]. intros j g Hg.
    change (List.map ?f ?l) with (f <$> l) in Hg.
    rewrite list_lookup_fmap in Hg.
    destruct (programs !! j); [|discriminate]. now injection Hg as <-.
  - intros doc Hdoc. inversion Hdoc.
Qed.

Ltac hold :=
  match goal with
  | Hlock : Concurrent.locked ?d ?c,
    Hg : Concurrent.goroutines ?c !! ?i = Some ?g,
    Hp : Concurrent.at_ ?g = _ |- _ =>
      let Hm := fresh "Hm" in
      let Hh := fresh "Hh" in
      let Hq := fresh "Hq" in
      destruct (holder d c i g Hlock Hg) as (Hm & Hh & Hq);
      [rewrite Hp; discriminate|];
      rewrite Hp in Hh; destruct c as [m pages index w gs];
      unfold Concurrent.Unlock, Concurrent.quiet in *;
      cbn in *; subst m
  end.

Ltac src :=
  match goal with
  | Hp : Concurrent.at_ ?g = _ |- Concurrent.sourced _ _ =>
      eapply sourced_goto; eauto; unfold Concurrent.pending; rewrite Hp;
      cbn; intros ? ?; auto; now right
  end.

Lemma inv_next (programs : list (list Concurrent.call))
      (log : list storage.XMLPage) (d : Concurrent.document)
      (c c' : Concurrent.config) (i : nat) (fail : bool) :
  Concurrent.inv programs log d c ->
  Concurrent.next i fail c = Some c' ->
  exists log' d', Concurrent.inv programs log' d' c'.
Proof.
  intros [Hrun Hlog Hsrc Hlock Hfl] Hstep.
  unfold Concurrent.next, Concurrent.next_with in Hstep.
  destruct (Concurrent.goroutines c !! i) as [g|] eqn:Hg; [|discriminate].
  destruct (Concurrent.at_ g) as [|page|page idx k|page| |buf|buf|] eqn:Hp.
  - (* Lock *)
    destruct (Concurrent.todo g) as [|call rest] eqn:Ht; [discriminate|].
    unfold Concurrent.Lock in Hstep. unfold Concurrent.locked in Hlock.
    destruct c as [m pages index w gs]. cbn in *.
    destruct m; [discriminate|]. injection Hstep as <-.
    destruct Hlock as [Hidle Hd]. exists log, d. split; auto.
    + eapply sourced_goto; eauto. intros pg Hpg.
      unfold Concurrent.pending in *. rewrite Hp, Ht. cbn in *.
      destruct call; cbn in *; auto.
    + apply (locked_goto d i _ _ g); eauto.
      destruct call; cbn; auto.
  - (* the lookup in pagesByURL *)
    hold. destruct Hh.
    match type of Hstep with
    | match ?t with _ => _ end = _ => destruct t as [idx|] eqn:Hi
    end; injection Hstep as <-; exists log, (pages, index); split; auto.
    + src.
    + apply (locked_goto _ i _ _ g); auto. cbn.
      repeat split; auto; try lia.
      symmetry. apply alter_same, assigned_none.
    + src.
    + apply (locked_goto _ i _ _ g); auto. cbn. auto.
  - (* one field of Pages[idx] = page *)
    hold. destruct Hh as (-> & Hi & Hk & Hr & ->).
    assert (Hpage : page ∈ Concurrent.pages_of programs).
    { apply (Hsrc i g); auto. unfold Concurrent.pending. rewrite Hp.
      apply elem_of_app. left. now apply list_elem_of_singleton. }
    destruct (k <=? 5)%nat eqn:Hlt.
    + apply Nat.leb_le in Hlt. unfold Concurrent.store_field in Hstep.
      destruct (_ && _) eqn:Hin; [|discriminate]. injection Hstep as <-.
      rewrite length_alter in Hin.
      exists log, d; split; auto.
      * src.
      * apply (locked_goto _ i _ _ g); auto. cbn.
        apply andb_true_iff in Hin.
        unfold Concurrent.fields, Concurrent.in_range.
        split; [reflexivity|]. split; [exact Hi|]. split; [lia|].
        split; [lia|]. apply alter_alter. intros x. apply assigned_next.
        unfold Concurrent.fields. lia.
    + apply Nat.leb_gt in Hlt. injection Hstep as <-.
      assert (k = Concurrent.fields) as ->
          by (unfold Concurrent.fields in *; lia).
      destruct Hr as [Hr1 Hr2]; [unfold Concurrent.fields; lia|].
      rewrite (alter_const _ page) by apply assigned_all.
      exists (log ++ [page]), (<[Z.to_nat idx := page]> (fst d), snd d).
      split.
      * rewrite run_app, Hrun. unfold Concurrent.upsert, storage.store_page.
        rewrite Hi.
        replace ((0 <=? idx) && (idx <? Z.of_nat (length (fst d))))
          with true by (symmetry; apply andb_true_iff; lia).
        reflexivity.
      * intros pg Hpg. apply elem_of_app in Hpg as [Hpg|Hpg]; auto.
        apply list_elem_of_singleton in Hpg. now subst pg.
      * src.
      * apply (locked_goto _ i _ _ g); auto. reflexivity.
      * now apply flushed_app.
  - (* the assignment to pagesByURL after the append *)
    hold. destruct Hh as (-> & Hi & ->). injection Hstep as <-.
    assert (Hpage : page ∈ Concurrent.pages_of programs).
    { apply (Hsrc i g); auto. unfold Concurrent.pending. rewrite Hp.
      apply elem_of_app. left. now apply list_elem_of_singleton. }
    exists (log ++ [page]),
      (fst d ++ [page],
       <[storage.URL page := Z.of_nat (length (fst d ++ [page])) - 1]>
         (snd d)).
    split.
    + rewrite run_app, Hrun. unfold Concurrent.upsert. now rewrite Hi.
    + intros pg Hpg. apply elem_of_app in Hpg as [Hpg|Hpg]; auto.
      apply list_elem_of_singleton in Hpg. now subst pg.
    + src.
    + apply (locked_goto _ i _ _ g); auto. reflexivity.
    + now apply flushed_app.
  - (* Unlock, deferred by SaveNodeContent *)
    hold. destruct Hh. injection Hstep as <-.
    exists log, (pages, index); split; auto.
    + src.
    + apply (locked_release i _ g); auto.
  - (* one record of the serialization *)
    hold. destruct Hh as [<- Hbuf].
    destruct fail; [|destruct (pages !! length buf) as [pg|] eqn:Hpg];
      injection Hstep as <-; exists log, (pages, index); split; auto.
    + src.
    + apply (locked_goto _ i _ _ g); auto. reflexivity.
    + src.
    + apply (locked_goto _ i _ _ g); auto. split; auto.
      rewrite length_app. cbn. rewrite Nat.add_1_r.
      erewrite take_S_r by eauto. congruence.
    + src.
    + apply (locked_goto _ i _ _ g); auto. split; auto.
      rewrite Hbuf. apply take_ge. now apply lookup_ge_None.
  - (* os.WriteFile *)
    hold. destruct Hh as [<- ->].
    destruct fail; injection Hstep as <-; exists log, (pages, index);
      split; auto.
    + src.
    + apply (locked_goto _ i _ _ g); auto. reflexivity.
    + src.
    + apply (locked_goto _ i _ _ g); auto. reflexivity.
    + intros doc Hdoc. cbn in Hdoc.
      apply elem_of_cons in Hdoc as [->|Hdoc]; [|now apply Hfl].
      exists (length log), (pages, index). rewrite firstn_all. auto.
  - (* Unlock, deferred by SaveToFile *)
    hold. destruct Hh. injection Hstep as <-.
    exists log, (pages, index); split; auto.
    + src.
    + apply (locked_release i _ g); auto.
Qed.


Lemma inv_exec (programs : list (list Concurrent.call))
      (schedule : list (nat * bool)) :
  forall log d c c',
    Concurrent.inv programs log d c ->
    Concurrent.exec schedule c = Some c' ->
    exists log' d', Concurrent.inv programs log' d' c'.
Proof.
  induction schedule as [|[i fail] schedule IH]; intros log d c c' Hinv Hex.
  - injection Hex as <-. eauto.
  - cbn in Hex.
    destruct (Concurrent.next_with Concurrent.Lock Concurrent.Unlock i fail c)
      as [c1|] eqn:Hstep; [|discriminate].
    destruct (inv_next _ _ _ _ _ _ _ Hinv Hstep) as (log1 & d1 & Hinv1).
    eapply IH; eauto.
Qed.

Lemma locked_exclusive (d : Concurrent.document) (c : Concurrent.config) :
  Concurrent.locked d c -> Concurrent.exclusive c.
Proof.
  intros Hlock i j gi gj Hi Hj Hni Hnj.
  destruct (holder _ _ _ _ Hlock Hi Hni) as [Hmi _].
  destruct (holder _ _ _ _ Hlock Hj Hnj) as [Hmj _]. congruence.
Qed.

(** The upsert of the runs is the one of [storage.SaveNodeContent]. *)
Lemma SaveNodeContent_upsert {U : NetURL} {W : World} h now s webNode
      content s' :
  storage.SaveNodeContent h now s webNode content = (Ok tt, s') ->
  exists page,
    storage.Content page = content
    /\ Concurrent.upsert (storage.Pages (storage.Document s),
                          storage.pagesByURL (storage.Document s)) page
       = Some (storage.Pages (storage.Document s'),
               storage.pagesByURL (storage.Document s')).
Proof.
  intros Hs. apply SaveNodeContent_cases in Hs
    as [[Hr _]|(p & n & u & links & _ & _ & _ & _ & _ & Hd)];
    [discriminate|]. cbv zeta in Hd.
  exists (storage.mkXMLPage (url_String u) (node.Title n) (url.Path u)
                            (time_Now now) content links).
  split; [reflexivity|].
  unfold Concurrent.upsert, storage.store_page. cbn [fst snd storage.URL].
  destruct (storage.pagesByURL (storage.Document s) !! url_String u)
    as [idx|].
  - destruct Hd as [Hr ->].
    replace ((0 <=? idx) && _) with true
      by (symmetry; apply andb_true_iff; lia).
    reflexivity.
  - subst s'. reflexivity.
Qed.

End concurrent_store.

(** Without the mutex a flush writes a record that no call saved; with
    the mutex the same schedule is no run, the flush waits. *)
Lemma unguarded_flush_torn :
  option_map Concurrent.written
             (Concurrent.exec_unguarded Race.raced
                                        (Concurrent.init Race.programs))
  = Some [[Race.torn]]
  /\ ~ Race.torn ∈ Concurrent.pages_of Race.programs
  /\ Concurrent.exec Race.raced (Concurrent.init Race.programs) = None.
Proof.
  split; [vm_compute; reflexivity|]. split; [|vm_compute; reflexivity].
  intros H. apply list_elem_of_In in H. cbn in H.
  destruct H as [H|[H|[]]]; discriminate.
Qed.

(** C9. In every run of goroutines that call [SaveNodeContent] and
    [SaveToFile] on one store, whatever the schedule, at most one
    goroutine is between [Lock] and [Unlock], and there is a sequence of
    whole upserts, each of a record that a call saves, such that every
    content written to the file is the document after the first [n] of
    them: every record of a flush is, field for field, a record that a
    call saved. *)
Theorem C9_flush_sees_whole_upserts (programs : list (list Concurrent.call))
        (schedule : list (nat * bool)) (c : Concurrent.config) :
  Concurrent.exec schedule (Concurrent.init programs) = Some c ->
  Concurrent.exclusive c
  /\ exists log,
      (forall page, page ∈ log -> page ∈ Concurrent.pages_of programs)
      /\ forall doc,
          doc ∈ Concurrent.written c ->
          (exists n d, Concurrent.run (take n log) = Some d /\ doc = fst d)
          /\ forall record,
              record ∈ doc -> record ∈ Concurrent.pages_of programs.
Proof.
  intros Hex.
  destruct (inv_exec _ _ _ _ _ _ (inv_init programs) Hex)
    as (log & d & [Hrun Hlog Hsrc Hlock Hfl]).
  split; [eapply locked_exclusive, Hlock|].
  exists log. split; [exact Hlog|]. intros doc Hdoc.
  destruct (Hfl doc Hdoc) as (n & d' & Hn & Hrun' & ->).
  split; [eauto|]. intros record Hrec. apply Hlog.
  eapply (subseteq_take n), run_records; eauto.
Qed.

Lemma C9_witness :
  Concurrent.exec Race.schedule (Concurrent.init Race.programs)
  = Some Race.final
  /\ Concurrent.exclusive Race.final
  /\ exists log,
      (forall page, page ∈ log -> page ∈ Concurrent.pages_of Race.programs)
      /\ forall doc,
          doc ∈ Concurrent.written Race.final ->
          (exists n d, Concurrent.run (take n log) = Some d /\ doc = fst d)
          /\ forall record,
              record ∈ doc -> record ∈ Concurrent.pages_of Race.programs.
Proof.
  assert (H : Concurrent.exec Race.schedule (Concurrent.init Race.programs)
              = Some Race.final) by (vm_compute; reflexivity).
  split; [exact H|].
  exact (C9_flush_sees_whole_upserts Race.programs Race.schedule Race.final H).
Defined.


(* ================================================================== *)
(** * The path helpers of package [node] *)

Section path_helpers.

Lemma substring_0_S a s n :
  String.substring 0 (S n) (String a s) = String a (String.substring 0 n s).
Proof. reflexivity. Qed.

Lemma substring_0_all s : String.substring 0 (String.length s) s = s.
Proof. induction s as [|a s IH]; cbn; [reflexivity|]. now rewrite IH. Qed.

Lemma trimRight_end_le s c n : (node.trimRight_end s c n <= n)%nat.
Proof.
  induction n as [|n IH]; cbn; [lia|].
  destruct (String.get n s) as [a|]; [|lia].
  destruct (Ascii.eqb a c); lia.
Qed.

Lemma get_lt s n : (n < String.length s)%nat -> exists a, String.get n s = Some a.
Proof.
  revert n. induction s as [|b s IH]; intros n Hn; cbn in Hn; [lia|].
  destruct n as [|n]; cbn; eauto. apply IH. lia.
Qed.

Lemma trimRight_end_cons a s c n :
  (n <= String.length s)%nat ->
  node.trimRight_end (String a s) c (S n)
  = match node.trimRight_end s c n with
    | O => if Ascii.eqb a c then O else 1%nat
    | S k => S (S k)
    end.
Proof.
  induction n as [|n IH]; intros Hn.
  - cbn. destruct (Ascii.eqb a c); reflexivity.
  - destruct (get_lt s n) as [b Hb]; [lia|].
    change (node.trimRight_end (String a s) c (S (S n)))
      with (match String.get n s with
            | Some b => if Ascii.eqb b c
                        then node.trimRight_end (String a s) c (S n)
                        else S (S n)
            | None => S (S n)
            end).
    cbn [node.trimRight_end]. rewrite Hb.
    destruct (Ascii.eqb b c); [apply IH; lia|reflexivity].
Qed.

Lemma trimRight_substring s c :
  node.trimRight s c
  = String.substring 0 (node.trimRight_end s c (String.length s)) s.
Proof.
  unfold node.trimRight. destruct s; reflexivity.
Qed.

Lemma substring_0_empty s n :
  (n <= String.length s)%nat -> String.substring 0 n s = "" -> n = O.
Proof. destruct n, s; cbn; intros; try lia; discriminate. Qed.

Lemma trimRight_TrimRight s c :
  node.trimRight s c = Strings.TrimRight s (String c "").
Proof.
  rewrite trimRight_substring.
  induction s as [|a s IH]; [reflexivity|].
  cbn [String.length Strings.TrimRight]. rewrite trimRight_end_cons by lia.
  rewrite <- IH. pose proof (trimRight_end_le s c (String.length s)) as Hle.
  destruct (node.trimRight_end s c (String.length s)) as [|k] eqn:E.
  - cbn [String.substring]. destruct s; cbn [Strings.IndexByte];
      rewrite orb_false_r, Ascii.eqb_sym;
      destruct (Ascii.eqb c a); reflexivity.
  - rewrite substring_0_S.
    destruct (String.substring 0 (S k) s) eqn:E2; [|reflexivity].
    apply substring_0_empty in E2; [discriminate|lia].
Qed.


Lemma ends_in_cons a s c :
  s <> "" -> Props.ends_in (String a s) c = Props.ends_in s c.
Proof. destruct s; [congruence|reflexivity]. Qed.

Lemma TrimRight_byte s c :
  Props.ends_in (Strings.TrimRight s (String c "")) c = false
  /\ exists k, s = Strings.TrimRight s (String c "") +:+ Props.copies c k.
Proof.
  induction s as [|a s [IH1 [k IH2]]]; [split; [reflexivity|now exists O]|].
  cbn [Strings.TrimRight].
  destruct (Strings.TrimRight s (String c "")) as [|b r] eqn:E.
  - cbn [Strings.IndexByte]. rewrite orb_false_r, Ascii.eqb_sym.
    destruct (Ascii.eqb a c) eqn:Eac.
    + apply Ascii.eqb_eq in Eac as ->. split; [reflexivity|].
      exists (S k). cbn. now rewrite IH2 at 1.
    + split; [cbn; exact Eac|]. exists k. cbn. now rewrite IH2 at 1.
  - split; [rewrite ends_in_cons by discriminate; exact IH1|].
    exists k. cbn. now rewrite IH2 at 1.
Qed.

Lemma trimLeft_spec s c :
  Props.starts_with (node.trimLeft s c) c = false
  /\ exists k, s = Props.copies c k +:+ node.trimLeft s c.
Proof.
  induction s as [|a s [IH1 [k IH2]]]; [split; [reflexivity|now exists O]|].
  cbn [node.trimLeft]. destruct (Ascii.eqb a c) eqn:Eac.
  - apply Ascii.eqb_eq in Eac as ->. split; [exact IH1|].
    exists (S k). cbn. now rewrite IH2 at 1.
  - split; [exact Eac|]. now exists O.
Qed.

Lemma substring_prefix p s :
  String.eqb (String.substring 0 (String.length p) s) p = true
  <-> exists rest, s = p +:+ rest.
Proof.
  revert s. induction p as [|b p IH]; intros s.
  - cbn. destruct s; cbn; split; eauto.
  - destruct s as [|a s]; cbn [String.length String.substring].
    + split; [discriminate|]. intros [rest H]. discriminate.
    + cbn [String.eqb]. destruct (Ascii.eqb a b) eqn:Eab.
      * apply Ascii.eqb_eq in Eab as ->. rewrite IH. split.
        -- intros [rest ->]. now exists rest.
        -- intros [rest [= ->]]. now exists rest.
      * split; [discriminate|]. intros [rest [= -> _]].
        now rewrite Ascii.eqb_refl in Eab.
Qed.

Lemma length_append_string (a b : string) :
  String.length (a +:+ b) = (String.length a + String.length b)%nat.
Proof. induction a as [|x a IH]; simpl; [reflexivity|now f_equal]. Qed.

Lemma slice_from_append p rest :
  node.slice_from (p +:+ rest) (String.length p) = rest.
Proof.
  unfold node.slice_from. rewrite length_append_string.
  replace (String.length p + String.length rest - String.length p)%nat
    with (String.length rest) by lia.
  induction p as [|b p IH]; cbn; [apply substring_0_all|exact IH].
Qed.

Lemma lastSlash_cons a s n :
  (n <= String.length s)%nat ->
  node.lastSlash (String a s) (S n)
  = let r := node.lastSlash s n in
    if 0 <=? r then r + 1 else if Ascii.eqb a "/" then 0 else -1.
Proof.
  induction n as [|n IH]; intros Hn.
  - cbn. destruct (Ascii.eqb a "/"); reflexivity.
  - destruct (get_lt s n) as [b Hb]; [lia|].
    change (node.lastSlash (String a s) (S (S n)))
      with (match String.get n s with
            | Some b => if Ascii.eqb b "/" then Z.of_nat (S n)
                        else node.lastSlash (String a s) (S n)
            | None => node.lastSlash (String a s) (S n)
            end).
    cbn [node.lastSlash]. rewrite Hb.
    destruct (Ascii.eqb b "/"); [|apply IH; lia].
    cbv zeta. replace (0 <=? Z.of_nat n) with true
      by (symmetry; apply Z.leb_le; lia). lia.
Qed.

Lemma lastSlash_spec s :
  let r := node.lastSlash s (String.length s) in
  (r = -1 /\ Strings.IndexByte s "/" = false)
  \/ (0 <= r /\ Strings.IndexByte s "/" = true
      /\ exists seg, Strings.IndexByte seg "/" = false
                     /\ s = Strings.slice_to s r +:+ "/" +:+ seg).
Proof.
  induction s as [|a s IH]; [left; auto|].
  cbn [String.length]. rewrite lastSlash_cons by lia. cbv zeta in *.
  cbn [Strings.IndexByte].
  destruct IH as [[-> Hn]|(Hr & Hc & seg & Hseg & Hs)].
  - cbn [Z.leb]. change (0 <=? -1) with false. cbv iota.
    destruct (Ascii.eqb a "/") eqn:Ea.
    + apply Ascii.eqb_eq in Ea as ->. right. split; [lia|].
      split; [reflexivity|]. exists s. split; [exact Hn|reflexivity].
    + left. rewrite Hn. auto.
  - replace (0 <=? node.lastSlash s (String.length s)) with true
      by (symmetry; apply Z.leb_le; lia).
    right. split; [lia|]. split; [rewrite Hc; apply orb_true_r|].
    exists seg. split; [exact Hseg|].
    unfold Strings.slice_to in *.
    replace (Z.to_nat (node.lastSlash s (String.length s) + 1))
      with (S (Z.to_nat (node.lastSlash s (String.length s)))) by lia.
    rewrite substring_0_S. rewrite Hs at 1. reflexivity.
Qed.


Lemma count_slashes_bounds s :
  0 <= node.count_slashes s <= Z.of_nat (String.length s).
Proof.
  induction s as [|a s IH]; cbn [node.count_slashes String.length]; [lia|].
  destruct (Ascii.eqb a "/"); lia.
Qed.

Lemma count_slashes_get s i :
  String.get i s = Some "/"%char -> 1 <= node.count_slashes s.
Proof.
  revert i. induction s as [|a s IH]; intros i H; [discriminate|].
  cbn [node.count_slashes]. pose proof (count_slashes_bounds s).
  destruct i as [|i]; cbn in H.
  - injection H as ->. rewrite Ascii.eqb_refl. lia.
  - specialize (IH i H). destruct (Ascii.eqb a "/"); lia.
Qed.

Lemma count_slashes_last s a :
  String.get (String.length s - 1) s = Some a ->
  Ascii.eqb a "/" = false ->
  node.count_slashes s < Z.of_nat (String.length s).
Proof.
  induction s as [|b s IH]; [discriminate|].
  cbn [String.length node.count_slashes]. intros Hg Ha.
  pose proof (count_slashes_bounds s).
  destruct s as [|b' s].
  - cbn in Hg. injection Hg as ->. rewrite Ha. cbn. lia.
  - replace (S (String.length (String b' s)) - 1)%nat
      with (S (String.length (String b' s) - 1)) in Hg by (cbn; lia).
    cbn [String.get] in Hg. specialize (IH Hg Ha).
    destruct (Ascii.eqb b "/"); lia.
Qed.

Lemma countPathSegments_zero s :
  node.countPathSegments s = 0 <-> s = "".
Proof.
  unfold node.countPathSegments. destruct s as [|a s]; [tauto|].
  rewrite (proj2 (String.eqb_neq _ _)) by discriminate.
  split; [|discriminate]. intros H. exfalso.
  pose proof (count_slashes_bounds (String a s)).
  destruct (get_lt (String a s) (String.length (String a s) - 1))
    as [b Hb]; [cbn; lia|].
  rewrite Hb in H. destruct (Ascii.eqb b "/") eqn:Eb.
  - apply Ascii.eqb_eq in Eb as ->. apply count_slashes_get in Hb.
    rewrite andb_false_r in H. lia.
  - destruct (0 <? _)%nat eqn:El; cbn [andb negb] in H; [lia|].
    apply Nat.ltb_ge in El. cbn in El. lia.
Qed.

Lemma ends_in_copies p c k :
  Props.ends_in (p +:+ Props.copies c (S k)) c = true.
Proof.
  induction p as [|a p IH].
  - induction k as [|k IHk]; cbn; [apply Ascii.eqb_refl|exact IHk].
  - change (String a p +:+ Props.copies c (S k))
      with (String a (p +:+ Props.copies c (S k))).
    rewrite ends_in_cons; [exact IH|]. intros H.
    apply (f_equal String.length) in H.
    rewrite length_append_string in H. cbn in H. lia.
Qed.

Lemma append_empty_r (s : string) : s +:+ "" = s.
Proof.
  induction s as [|a s IH]; [reflexivity|].
  change (String a s +:+ "") with (String a (s +:+ "")). now f_equal.
Qed.

(** A trimmed path is under a prefix with nothing but slashes after it
    only when it is the prefix. *)
Lemma prefixed_no_segment t p :
  Props.ends_in t "/" = false ->
  node.isPathPrefixed t p
  && (node.countPathSegments
        (node.trimLeftSlash (node.slice_from t (String.length p))) =? 0)
  = String.eqb t p.
Proof.
  intros Ht. destruct (String.eqb t p) eqn:E.
  - apply String.eqb_eq in E as ->. unfold node.isPathPrefixed.
    assert (H : node.slice_from p (String.length p) = "").
    { rewrite <- (append_empty_r p) at 1. apply slice_from_append. }
    rewrite H. cbn [node.trimLeftSlash node.trimLeft].
    destruct (String.eqb p ""); [reflexivity|].
    rewrite Nat.ltb_irrefl, substring_0_all, String.eqb_refl. reflexivity.
  - apply andb_false_iff.
    destruct (node.isPathPrefixed t p) eqn:Hp; [right|now left].
    assert (exists rest, t = p +:+ rest) as [rest ->].
    { unfold node.isPathPrefixed in Hp.
      destruct (String.eqb p "") eqn:Ee.
      - apply String.eqb_eq in Ee as ->. now exists t.
      - destruct (_ <? _)%nat; [discriminate|].
        now apply substring_prefix. }
    rewrite slice_from_append. apply Z.eqb_neq. intros H.
    apply countPathSegments_zero in H.
    destruct (trimLeft_spec rest "/") as [_ [k Hk]].
    unfold node.trimLeftSlash in H. rewrite H, append_empty_r in Hk.
    subst rest. destruct k as [|k].
    + cbn in E. rewrite append_empty_r, String.eqb_refl in E. discriminate.
    + rewrite ends_in_copies in Ht. discriminate.
Qed.

End path_helpers.

(** X1. [trimRight] removes the trailing run of [c] and nothing else: the
    string is the result followed by copies of [c], the result does not
    end in [c]; it is what [strings.TrimRight] gives for the cutset
    [c]. *)
Theorem trimRight_trailing_run (s : string) (c : ascii) :
  node.trimRight s c = Strings.TrimRight s (String c "")
  /\ Props.ends_in (node.trimRight s c) c = false
  /\ exists k, s = node.trimRight s c +:+ Props.copies c k.
Proof.
  rewrite trimRight_TrimRight. split; [reflexivity|]. apply TrimRight_byte.
Qed.

(** X2. [trimLeft] removes the leading run of [c] and nothing else. *)
Theorem trimLeft_leading_run (s : string) (c : ascii) :
  Props.starts_with (node.trimLeft s c) c = false
  /\ exists k, s = Props.copies c k +:+ node.trimLeft s c.
Proof. apply trimLeft_spec. Qed.

(** X3. [isPathPrefixed] holds exactly when the path is the prefix
    followed by some text; the empty prefix is a prefix of every path. *)
Theorem isPathPrefixed_prefix (path prefix : string) :
  node.isPathPrefixed path prefix = true
  <-> exists rest, path = prefix +:+ rest.
Proof.
  unfold node.isPathPrefixed. destruct (String.eqb prefix "") eqn:Ee.
  - apply String.eqb_eq in Ee as ->. split; [now exists path|auto].
  - destruct (String.length path <? String.length prefix)%nat eqn:El.
    + apply Nat.ltb_lt in El. split; [discriminate|]. intros [rest ->].
      rewrite length_append_string in El. lia.
    + apply substring_prefix.
Qed.

(** X4. [getParentPath] cuts the path at its last [/]: the path is the
    result, a [/] and a segment without [/].  A path without [/] has the
    parent path [/]. *)
Theorem getParentPath_last_segment (path : string) :
  if Strings.IndexByte path "/"
  then exists seg,
      Strings.IndexByte seg "/" = false
      /\ path = node.getParentPath path +:+ "/" +:+ seg
  else node.getParentPath path = "/".
Proof.
  unfold node.getParentPath. cbv zeta.
  destruct (lastSlash_spec path) as [[Hr Hn]|(Hr & Hc & seg & Hseg & Hs)].
  - rewrite Hn, Hr. reflexivity.
  - rewrite Hc. replace (_ <? 0) with false by (symmetry; apply Z.ltb_ge; lia).
    now exists seg.
Qed.

(** X5. [countPathSegments] is 0 for the empty path only, and never more
    than the length of the path. *)
Theorem countPathSegments_range (path : string) :
  (node.countPathSegments path = 0 <-> path = "")
  /\ 0 <= node.countPathSegments path <= Z.of_nat (String.length path).
Proof.
  split; [apply countPathSegments_zero|].
  unfold node.countPathSegments. pose proof (count_slashes_bounds path).
  destruct (String.eqb path ""); [lia|].
  destruct (0 <? String.length path)%nat eqn:El; cbn [andb]; [|lia].
  apply Nat.ltb_lt in El.
  destruct (get_lt path (String.length path - 1)) as [b Hb]; [lia|].
  rewrite Hb. destruct (Ascii.eqb b "/") eqn:Eb; cbn [negb]; [lia|].
  pose proof (count_slashes_last _ _ Hb Eb). lia.
Qed.

(** X6. [IsSameOrNextLevel] holds exactly when both URLs are there, the
    hosts are equal, and the path of the other URL, without its trailing
    slashes, is the path of the node without its trailing slashes or the
    parent path of that: never for a path one segment below the node. *)
Theorem IsSameOrNextLevel_same_or_parent (n : node.WebNode)
        (other : option url.URL) :
  node.IsSameOrNextLevel n other = true
  <-> exists nURL o,
      node.URL n = Some nURL /\ other = Some o
      /\ url.Host nURL = url.Host o
      /\ (node.trimRightSlash (url.Path o)
          = node.getParentPath (node.trimRightSlash (url.Path nURL))
          \/ node.trimRightSlash (url.Path o)
             = node.trimRightSlash (url.Path nURL)).
Proof.
  unfold node.IsSameOrNextLevel.
  destruct (node.URL n) as [nURL|];
    [|split; [discriminate|intros (? & ? & [=] & _)]].
  destruct other as [o|];
    [|split; [discriminate|intros (? & ? & _ & [=] & _)]].
  cbv zeta.
  assert (Ht : Props.ends_in (node.trimRightSlash (url.Path o)) "/" = false).
  { unfold node.trimRightSlash. rewrite trimRight_TrimRight.
    apply TrimRight_byte. }
  rewrite (prefixed_no_segment _ _ Ht).
  destruct (String.eqb (url.Host nURL) (url.Host o)) eqn:Eh; cbn [negb].
  - apply String.eqb_eq in Eh.
    destruct (String.eqb _ (node.getParentPath _)) eqn:E1.
    + apply String.eqb_eq in E1. split; [|reflexivity].
      intros _. exists nURL, o. auto.
    + pose proof (prefixed_no_segment
                    _ (node.trimRightSlash (url.Path nURL)) Ht) as H2.
      destruct (node.isPathPrefixed _ (node.trimRightSlash (url.Path nURL)))
        eqn:Hp; cbn [andb] in H2.
      * rewrite H2. split.
        -- intros E2. apply String.eqb_eq in E2. exists nURL, o. auto.
        -- intros (? & ? & [= <-] & [= <-] & _ & [H|H]).
           ++ apply String.eqb_neq in E1. contradiction.
           ++ now apply String.eqb_eq.
      * split; [discriminate|].
        intros (? & ? & [= <-] & [= <-] & _ & [H|H]).
        -- apply String.eqb_neq in E1. contradiction.
        -- symmetry in H2. apply String.eqb_neq in H2. contradiction.
  - split; [discriminate|]. intros (? & ? & [= <-] & [= <-] & H & _).
    apply String.eqb_neq in Eh. contradiction.
Qed.


(* ================================================================== *)
(** * The tree: what is visited, and how it is printed *)

Section tree_extra.
Context {U : NetURL}.

Lemma IsVisited_canonical (t : tree.WebTree) (urlStr : string) :
  tree.IsVisited t urlStr
  = match Spec.canonical urlStr with
    | Some k => tree.map_get (tree.VisitedURLs t) k
    | None => false
    end.
Proof.
  unfold tree.IsVisited, Spec.canonical.
  destruct (url_Parse urlStr); reflexivity.
Qed.

(** With fuel for the nodes made after [p], [printNode] writes the lines
    of the nodes under [p] in depth-first order, when it is called with
    the depth of [p]. *)
Lemma printNode_preorder h :
  Spec.wf_heap h -> Z.of_nat (length h) <= 2 ^ 62 ->
  forall fuel p n l,
    (length h - p <= fuel)%nat -> h !! p = Some n ->
    Spec.preorder h p l ->
    tree.printNode fuel h (Some p) (node.Depth n)
    = Ok (List.map (Props.tree_line h) l).
Proof.
  intros Hwf Hsmall.
  induction fuel as [|fuel IH]; intros p n l Hk Hn Hpre.
  { apply lookup_lt_Some in Hn. lia. }
  assert (Hp : (p < length h)%nat) by (eapply lookup_lt_Some; eauto).
  inversion Hpre as [p' n' ls Hn' Hls]; subst p' l.
  assert (n' = n) by congruence. subst n'.
  destruct (Hwf p n Hn) as (_ & Hd & Hc).
  specialize (Hd ltac:(lia)).
  cbn [tree.printNode List.map]. rewrite Hn.
  unfold Strings.Repeat.
  replace ((node.Depth n <? 0) || _) with false
    by (symmetry; apply orb_false_iff; split;
        [apply Z.ltb_ge; lia | apply Z.leb_gt; cbn [String.length]; lia]).
  assert (Hline : Props.tree_line h p
                  = match node.URL n with
                    | Some u =>
                        String.concat ""
                          [String.concat ""
                             (repeat "  " (Z.to_nat (node.Depth n)));
                           "- "; url_String u]
                    | None =>
                        String.append
                          (String.concat ""
                             (repeat "  " (Z.to_nat (node.Depth n))))
                          "- [Invalid URL]"
                    end).
  { unfold Props.tree_line. rewrite Hn.
    destruct (node.URL n); reflexivity. }
  rewrite Hline.
  assert (Hrange :
    (fix range (cs : list node.ptr) : result (list string) :=
       match cs with
       | [] => Ok []
       | child :: cs' =>
           match tree.printNode fuel h (Some child)
                                (int_add (node.Depth n) 1) with
           | Ok ls0 =>
               match range cs' with
               | Ok ls' => Ok (ls0 ++ ls')
               | r => r
               end
           | r => r
           end
       end) (node.Children n) = Ok (List.map (Props.tree_line h) ls)).
  { clear Hpre Hline. revert Hc Hls.
    generalize (node.Children n) as cs. intros cs Hc Hls. revert Hc.
    induction Hls as [|c cs l ls' Hl Hls IHls]; intros Hc; [reflexivity|].
    inversion Hc as [|c' cs' (Hlt & cn & Hcn & Hpar) Hc']; subst c' cs'.
    destruct (Hwf c cn Hcn) as (Hparent & _ & _). rewrite Hpar in Hparent.
    destruct Hparent as (_ & pn & Hpn & Hdepth & _).
    assert (pn = n) by congruence. subst pn.
    pose proof (IH c cn l ltac:(lia) Hcn Hl) as Hc1.
    rewrite Hdepth in Hc1. cbv beta iota fix. rewrite Hc1.
    rewrite (IHls Hc'). now rewrite map_app. }
  rewrite Hrange. reflexivity.
Qed.


End tree_extra.

(** X7. [Print] writes one line for each node under the root, in
    depth-first order, indented by two spaces for each level of the
    depth of the node; it does not panic on a tree built via
    [NewWebTree] and [AddURL]. *)
Theorem Print_depth_first {U : NetURL} (h : node.heap) (t : tree.WebTree) :
  Spec.built h t -> Z.of_nat (length h) <= 2 ^ 62 ->
  exists l,
    Spec.preorder h 0%nat l
    /\ tree.Print h t = Ok (List.map (Props.tree_line h) l).
Proof.
  intros Hb Hsmall.
  destruct (built_wf h t Hb) as (Hwf & Hroot & rn & Hrn & Hpar).
  assert (Hlt : (0 < length h)%nat) by (eapply lookup_lt_Some; eauto).
  destruct (preorder_exists h Hwf (length h) 0%nat ltac:(lia) Hlt) as [l Hl].
  exists l. split; [exact Hl|].
  unfold tree.Print. rewrite Hroot.
  destruct (Hwf _ _ Hrn) as (Hd & _ & _). rewrite Hpar in Hd.
  rewrite <- Hd. apply printNode_preorder; auto. lia.
Qed.

Section Print_concrete.
#[local] Existing Instance plain.net_url.

Lemma Print_depth_first_witness :
  Spec.built Examples.docs_heap Examples.docs_tree
  /\ exists l,
      Spec.preorder Examples.docs_heap 0%nat l
      /\ tree.Print Examples.docs_heap Examples.docs_tree
         = Ok (List.map (Props.tree_line Examples.docs_heap) l).
Proof.
  split; [exact docs_tree_built|].
  apply (Print_depth_first _ _ docs_tree_built). vm_compute. discriminate.
Defined.

End Print_concrete.

(** X8. After [AddURL] has returned without error, [IsVisited] holds of
    every URL with the canonical form of the URL added, and is as before
    for every URL with another canonical form or that does not parse. *)
Theorem AddURL_IsVisited {U : NetURL} (h : node.heap) (t : tree.WebTree)
        (urlStr : string) (parent r : option node.ptr) (h' : node.heap)
        (t' : tree.WebTree) :
  tree.AddURL h t urlStr parent = (Ok r, h', t') ->
  forall urlStr',
    tree.IsVisited t' urlStr'
    = if decide (Spec.canonical urlStr' = Spec.canonical urlStr)
      then true else tree.IsVisited t urlStr'.
Proof.
  intros Hadd urlStr'. rewrite !IsVisited_canonical.
  apply AddURL_cases in Hadd
    as [(_ & He & _) | [(u & Hp & Hv & _ & _ & ->)
         | [(u & _ & _ & q & _ & _ & Hr & _)
           | (u & Hp & Hv & _ & -> & _)]]];
    [discriminate| | discriminate |];
    assert (Hc : Spec.canonical urlStr = Some (tree.normalizeURL (Some u)))
      by (unfold Spec.canonical; now rewrite Hp);
    destruct (decide _) as [E|E]; rewrite Hc in E.
  - now rewrite E.
  - reflexivity.
  - rewrite E. cbn [tree.VisitedURLs tree.set_VisitedURLs].
    apply map_get_insert.
  - destruct (Spec.canonical urlStr') as [k|]; [|reflexivity].
    cbn [tree.VisitedURLs tree.set_VisitedURLs].
    apply map_get_insert_ne. intros H. apply E. now rewrite H.
Qed.

Section IsVisited_concrete.
#[local] Existing Instance plain.net_url.

Lemma AddURL_IsVisited_witness :
  tree.IsVisited Examples.docs_tree "https://x.test/docs/a#top" = true
  /\ tree.IsVisited Examples.docs_tree Examples.docs_root = false.
Proof.
  assert (H : tree.AddURL (Examples.root_heap Examples.docs_root)
                          (Examples.root_tree 2)
                          Examples.docs_child (Some 0%nat)
              = (Ok (Some 1%nat), Examples.docs_heap, Examples.docs_tree))
    by (vm_compute; reflexivity).
  split.
  - rewrite (AddURL_IsVisited _ _ _ _ _ _ _ H). vm_compute. reflexivity.
  - rewrite (AddURL_IsVisited _ _ _ _ _ _ _ H). vm_compute. reflexivity.
Defined.

End IsVisited_concrete.

(** X9. [NewWebTree] does not mark the root URL visited: in the new tree
    [IsVisited] holds of no URL, and [AddURL] of the root URL under the
    root makes a second node for it, a child of the root at depth 1. *)
Theorem NewWebTree_root_unvisited {U : NetURL} (rootURL : string)
        (maxDepth : Z) (t : tree.WebTree) (h : node.heap) :
  tree.NewWebTree [] rootURL maxDepth = (Ok t, h) ->
  (forall urlStr, tree.IsVisited t urlStr = false)
  /\ exists u h' t',
      url_Parse rootURL = Some u
      /\ tree.AddURL h t rootURL (tree.RootNode t) = (Ok (Some 1%nat), h', t')
      /\ h' = [node.mkWebNode (Some u) "" "text/html" [1%nat] None 0 ∅;
               node.mkWebNode (Some u) "" "text/html" [] (Some 0%nat)
                              (int_add 0 1) ∅].
Proof.
  unfold tree.NewWebTree, node.NewWebNode.
  destruct (url_Parse rootURL) as [u|] eqn:Hp; [|discriminate].
  intros [= <- <-]. split.
  - intros urlStr. unfold tree.IsVisited.
    destruct (url_Parse urlStr); reflexivity.
  - exists u. unfold tree.AddURL, node.NewWebNode. rewrite Hp. cbn.
    eexists _, _. split; [reflexivity|]. split; reflexivity.
Qed.

Section NewWebTree_concrete.
#[local] Existing Instance plain.net_url.

Lemma NewWebTree_root_unvisited_witness :
  tree.IsVisited (Examples.root_tree 2) Examples.docs_root = false.
Proof.
  assert (H : tree.NewWebTree [] Examples.docs_root 2
              = (Ok (Examples.root_tree 2),
                 Examples.root_heap Examples.docs_root))
    by (vm_compute; reflexivity).
  exact (proj1 (NewWebTree_root_unvisited _ _ _ _ H) Examples.docs_root).
Defined.

End NewWebTree_concrete.


(* ================================================================== *)
(** * The parsed document: search, removal, links and title *)

Section documents.

(** Induction on a document: a property holds of a node when it holds of
    its children. *)
Lemma Node_induction (P : html.Node -> Prop) :
  (forall ty data attrs cs,
      Forall P cs -> P (html.mkNode ty data attrs cs)) ->
  forall n, P n.
Proof.
  intros H. fix IH 1. intros [ty data attrs cs]. apply H.
  induction cs as [|c cs IHcs]; constructor; [apply IH|exact IHcs].
Qed.

Lemma head_app_list {A} (l1 l2 : list A) :
  head (l1 ++ l2) = match head l1 with Some x => Some x | None => head l2 end.
Proof. destruct l1; reflexivity. Qed.

Lemma findNode_head (n : html.Node) (tagName : string) :
  extractor.findNode n tagName = head (extractor.findNodes n tagName).
Proof.
  induction n as [ty data attrs cs IH] using Node_induction.
  cbn [extractor.findNode extractor.findNodes].
  destruct (html.is_element _ tagName); [reflexivity|].
  cbn [app]. induction IH as [|c cs Hc _ IHcs]; [reflexivity|].
  cbn [flat_map]. rewrite head_app_list, <- Hc.
  destruct (extractor.findNode c tagName); [reflexivity|exact IHcs].
Qed.

Lemma findNodes_subtree (n x : html.Node) (tagName : string) :
  x ∈ extractor.findNodes n tagName
  <-> x ∈ Props.subtree n /\ html.is_element x tagName = true.
Proof.
  revert x. induction n as [ty data attrs cs IH] using Node_induction.
  intros x. unfold Props.subtree.
  cbn [extractor.findNodes Props.descendants].
  rewrite elem_of_app, elem_of_cons.
  assert (Hcs : x ∈ flat_map (fun c => extractor.findNodes c tagName) cs
                <-> x ∈ flat_map (fun c => c :: Props.descendants c) cs
                    /\ html.is_element x tagName = true).
  { induction IH as [|c cs Hc _ IHcs]; cbn [flat_map].
    - split; [intros H; inversion H|intros [H _]; inversion H].
    - rewrite !elem_of_app, IHcs, (Hc x). unfold Props.subtree. tauto. }
  rewrite Hcs.
  destruct (html.is_element (html.mkNode ty data attrs cs) tagName) eqn:E.
  - rewrite list_elem_of_singleton. split.
    + intros [->|[H1 H2]]; auto.
    + intros [[->|H1] H2]; auto.
  - split.
    + intros [H|[H1 H2]]; [inversion H|auto].
    + intros [[->|H1] H2]; [congruence|auto].
Qed.


Lemma removeNodes_root (n : html.Node) (tagNames : list string) :
  html.Type_ (extractor.removeNodes n tagNames) = html.Type_ n
  /\ html.Data (extractor.removeNodes n tagNames) = html.Data n
  /\ html.Attr (extractor.removeNodes n tagNames) = html.Attr n.
Proof. destruct n. auto. Qed.

Lemma removable_removeNodes (tags tags' : list string) (n : html.Node) :
  extractor.removable tags (extractor.removeNodes n tags')
  = extractor.removable tags n.
Proof. destruct n. reflexivity. Qed.

Lemma is_element_removeNodes (n : html.Node) (tags : list string) tag :
  html.is_element (extractor.removeNodes n tags) tag = html.is_element n tag.
Proof. destruct n. reflexivity. Qed.

Lemma removeNodes_clean (n : html.Node) (tags : list string) :
  Forall (fun d => extractor.removable tags d = false)
         (Props.descendants (extractor.removeNodes n tags)).
Proof.
  induction n as [ty data attrs cs IH] using Node_induction.
  cbn [extractor.removeNodes Props.descendants].
  induction IH as [|c cs Hc _ IHcs]; [constructor|].
  cbn [List.map List.filter].
  destruct (negb (extractor.removable tags (extractor.removeNodes c tags)))
    eqn:E; [|exact IHcs].
  cbn [flat_map]. apply Forall_app. split; [|exact IHcs].
  constructor; [now apply negb_true_iff|exact Hc].
Qed.

Lemma removeNodes_idempotent (n : html.Node) (tags : list string) :
  extractor.removeNodes (extractor.removeNodes n tags) tags
  = extractor.removeNodes n tags.
Proof.
  induction n as [ty data attrs cs IH] using Node_induction.
  cbn [extractor.removeNodes]. f_equal.
  induction IH as [|c cs Hc _ IHcs]; [reflexivity|].
  cbn [List.map List.filter].
  destruct (negb (extractor.removable tags (extractor.removeNodes c tags)))
    eqn:E; [|exact IHcs].
  cbn [List.map List.filter]. rewrite Hc, E. now f_equal.
Qed.

Section links.
Context {U : NetURL}.

Lemma extractFunc_removeNodes (baseURL : url.URL) (n : html.Node)
      (tags : list string) :
  crawler.extractFunc baseURL (extractor.removeNodes n tags)
  `sublist_of` crawler.extractFunc baseURL n.
Proof.
  induction n as [ty data attrs cs IH] using Node_induction.
  cbn [extractor.removeNodes crawler.extractFunc].
  apply sublist_app; [reflexivity|].
  induction IH as [|c cs Hc _ IHcs]; [reflexivity|].
  cbn [List.map List.filter flat_map].
  destruct (negb (extractor.removable tags (extractor.removeNodes c tags))).
  - cbn [flat_map]. now apply sublist_app.
  - now apply sublist_inserts_l.
Qed.

Lemma is_element_children ty data attrs cs cs' tag :
  html.is_element (html.mkNode ty data attrs cs) tag
  = html.is_element (html.mkNode ty data attrs cs') tag.
Proof. reflexivity. Qed.

Lemma findNode_cons ty data attrs c cs tag :
  html.is_element (html.mkNode ty data attrs cs) tag = false ->
  extractor.findNode (html.mkNode ty data attrs (c :: cs)) tag
  = match extractor.findNode c tag with
    | Some found => Some found
    | None => extractor.findNode (html.mkNode ty data attrs cs) tag
    end.
Proof.
  intros E. cbn [extractor.findNode].
  rewrite (is_element_children _ _ _ (c :: cs) cs), E. reflexivity.
Qed.

Lemma update_found_cons ty data attrs c cs tag f :
  html.is_element (html.mkNode ty data attrs cs) tag = false ->
  extractor.update_found (html.mkNode ty data attrs (c :: cs)) tag f
  = match extractor.update_found c tag f with
    | Some c' => Some (html.mkNode ty data attrs (c' :: cs))
    | None =>
        option_map
          (fun n => html.mkNode ty data attrs (c :: html.children n))
          (extractor.update_found (html.mkNode ty data attrs cs) tag f)
    end.
Proof.
  intros E. cbn [extractor.update_found].
  rewrite (is_element_children _ _ _ (c :: cs) cs), E.
  destruct (extractor.update_found c tag f); [reflexivity|].
  match goal with
  | |- context [option_map (cons c) ?r] => destruct r
  end; reflexivity.
Qed.

Lemma update_found_children ty data attrs cs tag f n' :
  html.is_element (html.mkNode ty data attrs cs) tag = false ->
  extractor.update_found (html.mkNode ty data attrs cs) tag f = Some n' ->
  n' = html.mkNode ty data attrs (html.children n').
Proof.
  intros E. cbn [extractor.update_found]. rewrite E.
  match goal with
  | |- option_map _ ?r = _ -> _ => destruct r
  end; [|discriminate]. intros [= <-]. reflexivity.
Qed.

(** The function applied by [update_found] is applied to the node that
    [findNode] returns, and the links of the document shrink as those of
    that node do. *)
Lemma update_found_findNode (n : html.Node) (tag : string)
      (f : html.Node -> html.Node) :
  (forall b, html.is_element (f b) tag = html.is_element b tag) ->
  match extractor.findNode n tag with
  | Some b =>
      exists n',
        extractor.update_found n tag f = Some n'
        /\ extractor.findNode n' tag = Some (f b)
        /\ (f b = b -> n' = n)
        /\ forall baseURL,
            crawler.extractFunc baseURL (f b)
            `sublist_of` crawler.extractFunc baseURL b ->
            crawler.extractFunc baseURL n'
            `sublist_of` crawler.extractFunc baseURL n
  | None => extractor.update_found n tag f = None
  end.
Proof.
  intros Hf. induction n as [ty data attrs cs IH] using Node_induction.
  destruct (html.is_element (html.mkNode ty data attrs cs) tag) eqn:E.
  { cbn [extractor.findNode extractor.update_found]. rewrite E.
    eexists. split; [reflexivity|]. split; [|split; [auto|auto]].
    destruct (f (html.mkNode ty data attrs cs)) as [ty' d' a' cs'] eqn:Ef.
    cbn [extractor.findNode]. rewrite <- Ef, Hf, E. reflexivity. }
  induction IH as [|c cs Hc _ IHcs].
  { cbn [extractor.findNode extractor.update_found]. rewrite E. reflexivity. }
  rewrite (is_element_children _ _ _ (c :: cs) cs) in E.
  specialize (IHcs E).
  rewrite findNode_cons, update_found_cons by exact E.
  destruct (extractor.findNode c tag) as [b|] eqn:Ec.
  - destruct Hc as (c' & -> & Hfind & Hsame & Hsub).
    eexists. split; [reflexivity|]. split; [|split].
    + rewrite findNode_cons by exact E. now rewrite Hfind.
    + intros Hb. now rewrite (Hsame Hb).
    + intros baseURL Hb. cbn [crawler.extractFunc flat_map].
      apply sublist_app; [reflexivity|].
      apply sublist_app; [now apply Hsub|reflexivity].
  - rewrite Hc.
    destruct (extractor.findNode (html.mkNode ty data attrs cs) tag) as [b|].
    + destruct IHcs as (n' & Hup & Hfind & Hsame & Hsub).
      pose proof (update_found_children _ _ _ _ _ _ _ E Hup) as Hn'.
      rewrite Hup. cbn [option_map].
      eexists. split; [reflexivity|]. split; [|split].
      * rewrite findNode_cons by exact E. rewrite Ec.
        rewrite <- Hn'. exact Hfind.
      * intros Hb. specialize (Hsame Hb). subst n'. reflexivity.
      * intros baseURL Hb. specialize (Hsub baseURL Hb).
        rewrite Hn' in Hsub. cbn [crawler.extractFunc flat_map] in Hsub |- *.
        apply sublist_app; [reflexivity|].
        apply sublist_app; [reflexivity|].
        eapply sublist_app_inv_l. exact Hsub.
    + rewrite IHcs. reflexivity.
Qed.


Lemma first_href_one (baseURL : url.URL) (attrs : list html.Attribute) :
  (length (crawler.first_href baseURL attrs) <= 1)%nat
  /\ Forall (fun link =>
               exists attr hrefURL,
                 attr ∈ attrs /\ html.Key attr = "href"
                 /\ url_Parse (html.Val attr) = Some hrefURL
                 /\ link = url_String (url_ResolveReference baseURL hrefURL))
            (crawler.first_href baseURL attrs).
Proof.
  induction attrs as [|attr attrs [IH1 IH2]]; [split; [cbn; lia|constructor]|].
  assert (Hrest : Forall (fun link =>
               exists attr0 hrefURL,
                 attr0 ∈ attr :: attrs /\ html.Key attr0 = "href"
                 /\ url_Parse (html.Val attr0) = Some hrefURL
                 /\ link = url_String (url_ResolveReference baseURL hrefURL))
            (crawler.first_href baseURL attrs)).
  { eapply Forall_impl; [exact IH2|]. cbv beta.
    intros link (a & hu & Ha & Hk & Hp & ->). exists a, hu.
    split; [now right|auto]. }
  cbn [crawler.first_href].
  destruct (String.eqb (html.Key attr) "href") eqn:Ek; [|auto].
  destruct (url_Parse (html.Val attr)) as [hrefURL|] eqn:Ep; [|auto].
  split; [cbn; lia|]. constructor; [|constructor].
  exists attr, hrefURL. apply String.eqb_eq in Ek.
  split; [now left|auto].
Qed.

Lemma extractFunc_anchors (baseURL : url.URL) (n : html.Node) :
  (length (crawler.extractFunc baseURL n)
   <= length (extractor.findNodes n "a"))%nat
  /\ Forall (fun link =>
               exists a attr hrefURL,
                 a ∈ extractor.findNodes n "a"
                 /\ attr ∈ html.Attr a /\ html.Key attr = "href"
                 /\ url_Parse (html.Val attr) = Some hrefURL
                 /\ link = url_String (url_ResolveReference baseURL hrefURL))
            (crawler.extractFunc baseURL n).
Proof.
  induction n as [ty data attrs cs IH] using Node_induction.
  cbn [crawler.extractFunc extractor.findNodes].
  unfold html.is_element. cbn [html.Type_ html.Data].
  assert (Hcs :
    (length (flat_map (crawler.extractFunc baseURL) cs)
     <= length (flat_map (fun c => extractor.findNodes c "a") cs))%nat
    /\ Forall (fun link =>
                 exists a attr hrefURL,
                   a ∈ flat_map (fun c => extractor.findNodes c "a") cs
                   /\ attr ∈ html.Attr a /\ html.Key attr = "href"
                   /\ url_Parse (html.Val attr) = Some hrefURL
                   /\ link = url_String
                               (url_ResolveReference baseURL hrefURL))
              (flat_map (crawler.extractFunc baseURL) cs)).
  { induction IH as [|c cs [Hc1 Hc2] _ [IH1 IH2]];
      [split; [cbn; lia|constructor]|].
    cbn [flat_map]. rewrite !length_app. split; [lia|].
    apply Forall_app. split.
    - eapply Forall_impl; [exact Hc2|]. cbv beta.
      intros link (a & attr & hu & Ha & H). exists a, attr, hu.
      split; [apply elem_of_app; now left|exact H].
    - eapply Forall_impl; [exact IH2|]. cbv beta.
      intros link (a & attr & hu & Ha & H). exists a, attr, hu.
      split; [apply elem_of_app; now right|exact H]. }
  destruct Hcs as [Hcs1 Hcs2].
  destruct (first_href_one baseURL attrs) as [Hf1 Hf2].
  destruct (html.NodeType_eqb ty html.ElementNode && String.eqb data "a").
  - rewrite !length_app. split; [cbn [length]; lia|].
    apply Forall_app. split.
    + eapply Forall_impl; [exact Hf2|]. cbv beta.
      intros link (attr & hu & Ha & H).
      exists (html.mkNode ty data attrs cs), attr, hu.
      split; [now left|]. split; [exact Ha|exact H].
    + eapply Forall_impl; [exact Hcs2|]. cbv beta.
      intros link (a & attr & hu & Ha & H). exists a, attr, hu.
      split; [now right|exact H].
  - cbn [app]. split; [exact Hcs1|exact Hcs2].
Qed.

End links.

Lemma extractTitleFunc_title (n : html.Node) :
  crawler.extractTitleFunc n = ""
  \/ exists el c rest,
      el ∈ extractor.findNodes n "title"
      /\ html.children el = c :: rest
      /\ html.Type_ c = html.TextNode
      /\ html.Data c = crawler.extractTitleFunc n.
Proof.
  induction n as [ty data attrs cs IH] using Node_induction.
  cbn [crawler.extractTitleFunc extractor.findNodes].
  unfold html.is_element. cbn [html.Type_ html.Data]. cbv zeta.
  assert (Hcs : forall own,
    let t := (fix range (cs : list html.Node) : string :=
                match cs with
                | [] => ""
                | child :: cs' =>
                    let title := crawler.extractTitleFunc child in
                    if negb (String.eqb title "") then title else range cs'
                end) cs in
    t = ""
    \/ exists el c rest,
        el ∈ own ++ flat_map (fun c => extractor.findNodes c "title") cs
        /\ html.children el = c :: rest
        /\ html.Type_ c = html.TextNode
        /\ html.Data c = t).
  { intros own. cbv zeta.
    induction IH as [|c cs Hc _ IHcs]; [now left|].
    cbv beta iota fix zeta.
    destruct (negb (String.eqb (crawler.extractTitleFunc c) "")) eqn:En.
    - destruct Hc as [Hc|(el & x & rest & Hel & H)].
      + rewrite Hc in En. discriminate.
      + right. exists el, x, rest. split; [|exact H].
        cbn [flat_map]. rewrite !elem_of_app. auto.
    - destruct IHcs as [H|(el & x & rest & Hel & H)]; [now left|].
      right. exists el, x, rest. split; [|exact H].
      cbn [flat_map]. apply elem_of_app in Hel.
      apply elem_of_app. destruct Hel as [Hel|Hel]; [now left|].
      right. apply elem_of_app. now right. }
  destruct (html.NodeType_eqb ty html.ElementNode && String.eqb data "title")
    eqn:E; [|apply (Hcs [])].
  destruct cs as [|c cs]; [apply (Hcs [_])|].
  destruct (html.NodeType_eqb (html.Type_ c) html.TextNode) eqn:Et;
    [|apply (Hcs [_])].
  right. exists (html.mkNode ty data attrs (c :: cs)), c, cs.
  split; [now left|]. split; [reflexivity|]. split; [|reflexivity].
  destruct (html.Type_ c); try discriminate. reflexivity.
Qed.

End documents.

(** X10. [removeNodes] leaves no element with one of the tags anywhere
    below the node, keeps the node itself whatever its tag, and a second
    call changes nothing. *)
Theorem removeNodes_removes_all (n : html.Node) (tagNames : list string) :
  Forall (fun d => extractor.removable tagNames d = false)
         (Props.descendants (extractor.removeNodes n tagNames))
  /\ extractor.removeNodes (extractor.removeNodes n tagNames) tagNames
     = extractor.removeNodes n tagNames
  /\ html.Type_ (extractor.removeNodes n tagNames) = html.Type_ n
  /\ html.Data (extractor.removeNodes n tagNames) = html.Data n
  /\ html.Attr (extractor.removeNodes n tagNames) = html.Attr n.
Proof.
  split; [apply removeNodes_clean|].
  split; [apply removeNodes_idempotent|apply removeNodes_root].
Qed.

(** X11. [findNodes] returns the elements with the tag among the node and
    the nodes below it, and [findNode] returns the first of them, or nil
    when there is none. *)
Theorem findNode_first_of_findNodes (n : html.Node) (tagName : string) :
  extractor.findNode n tagName = head (extractor.findNodes n tagName)
  /\ forall x,
      x ∈ extractor.findNodes n tagName
      <-> x ∈ Props.subtree n /\ html.is_element x tagName = true.
Proof.
  split; [apply findNode_head|]. intros x. apply findNodes_subtree.
Qed.

(** X12. [ExtractContent] fails exactly when the document has no [body]
    element.  Otherwise the content is the rendering of the first [body]
    without the unwanted elements, that [body] is left in the document
    without them, and a second call returns the same content and changes
    nothing more. *)
Theorem ExtractContent_body {W : World} (doc : html.Node) :
  match extractor.findNodes doc "body" with
  | [] =>
      extractor.ExtractContent doc
      = (Failed (ErrMsg "no body tag found in HTML"), doc)
  | body :: _ =>
      exists doc',
        extractor.ExtractContent doc
        = (Done (extractor.renderNode
                   (extractor.removeNodes body extractor.unwanted)), doc')
        /\ extractor.findNode doc' "body"
           = Some (extractor.removeNodes body extractor.unwanted)
        /\ extractor.ExtractContent doc'
           = (Done (extractor.renderNode
                      (extractor.removeNodes body extractor.unwanted)), doc')
  end.
Proof.
  unfold extractor.ExtractContent.
  pose proof (findNode_head doc "body") as Hh.
  pose proof (update_found_findNode (U := plain.net_url) doc "body"
                (fun b => extractor.removeNodes b extractor.unwanted)
                (fun b => is_element_removeNodes b _ _)) as Hu.
  destruct (extractor.findNodes doc "body") as [|body rest];
    cbn [head] in Hh; rewrite Hh in Hu |- *; [reflexivity|].
  destruct Hu as (doc' & Hup & Hfind & _ & _). rewrite Hup. cbn [default].
  exists doc'. split; [reflexivity|]. split; [exact Hfind|].
  rewrite Hfind, removeNodes_idempotent.
  pose proof (update_found_findNode (U := plain.net_url) doc' "body"
                (fun b => extractor.removeNodes b extractor.unwanted)
                (fun b => is_element_removeNodes b _ _)) as Hu'.
  rewrite Hfind in Hu'. destruct Hu' as (doc'' & Hup' & _ & Hsame & _).
  rewrite Hup'. cbn [default]. rewrite Hsame; [reflexivity|].
  apply removeNodes_idempotent.
Qed.

(** X13. The links found on a page after [ExtractContent] has run on it,
    as [Download] finds them, are a subsequence of the links found on the
    page as it was fetched, as [Explore] finds them: links that occur
    only in the removed elements are not seen by [Download]. *)
Theorem ExtractContent_drops_links {U : NetURL} {W : World}
        (doc : html.Node) (baseURLStr : string) :
  match crawler.ExtractLinks doc baseURLStr with
  | Done links =>
      exists links',
        crawler.ExtractLinks (snd (extractor.ExtractContent doc)) baseURLStr
        = Done links'
        /\ links' `sublist_of` links
  | Failed e =>
      crawler.ExtractLinks (snd (extractor.ExtractContent doc)) baseURLStr
      = Failed e
  end.
Proof.
  unfold crawler.ExtractLinks.
  destruct (url_Parse baseURLStr) as [baseURL|]; [|reflexivity].
  eexists. split; [reflexivity|].
  unfold extractor.ExtractContent.
  pose proof (update_found_findNode doc "body"
                (fun b => extractor.removeNodes b extractor.unwanted)
                (fun b => is_element_removeNodes b _ _)) as Hu.
  destruct (extractor.findNode doc "body") as [body|]; [|reflexivity].
  destruct Hu as (doc' & -> & _ & _ & Hsub). cbn [snd default].
  apply Hsub, extractFunc_removeNodes.
Qed.

(** X14. [ExtractLinks] fails exactly when the base URL does not parse.
    Otherwise it returns at most one link for each [a] element of the
    document, and every link is the reference of an [href] attribute of
    an [a] element, resolved against the base URL. *)
Theorem ExtractLinks_anchors {U : NetURL} {W : World} (doc : html.Node)
        (baseURLStr : string) :
  match crawler.ExtractLinks doc baseURLStr with
  | Done links =>
      exists baseURL,
        url_Parse baseURLStr = Some baseURL
        /\ (length links <= length (extractor.findNodes doc "a"))%nat
        /\ Forall (fun link =>
                     exists a attr hrefURL,
                       a ∈ extractor.findNodes doc "a"
                       /\ attr ∈ html.Attr a /\ html.Key attr = "href"
                       /\ url_Parse (html.Val attr) = Some hrefURL
                       /\ link = url_String
                                   (url_ResolveReference baseURL hrefURL))
                  links
  | Failed _ => url_Parse baseURLStr = None
  end.
Proof.
  unfold crawler.ExtractLinks.
  destruct (url_Parse baseURLStr) as [baseURL|]; [|reflexivity].
  exists baseURL. split; [reflexivity|]. apply extractFunc_anchors.
Qed.

(** X15. The title that [ExtractTitle] returns is empty, or it is the text
    of a text node that is the first child of a [title] element of the
    document. *)
Theorem ExtractTitle_of_title_element (doc : html.Node) :
  crawler.ExtractTitle doc = ""
  \/ exists el c rest,
      el ∈ extractor.findNodes doc "title"
      /\ html.children el = c :: rest
      /\ html.Type_ c = html.TextNode
      /\ html.Data c = crawler.ExtractTitle doc.
Proof. apply extractTitleFunc_title. Qed.


(* ================================================================== *)
(** * Metadata and Markdown *)

Section metadata.

Lemma ReplaceAll_absent (s old' new : string) (c : ascii) :
  Strings.IndexByte s c = false ->
  Strings.ReplaceAll s (String c old') new = s.
Proof.
  unfold Strings.ReplaceAll. induction s as [|a s IH]; [reflexivity|].
  cbn [Strings.IndexByte Strings.ReplaceAll_from Strings.HasPrefix].
  intros H. apply orb_false_iff in H as [Ha Hs]. rewrite Ha. cbn [andb].
  now rewrite IH.
Qed.

Lemma replacements_tags :
  Forall (fun r => exists old', fst r = String "<" old')
         extractor.replacements.
Proof. repeat constructor; eexists; reflexivity. Qed.

Lemma metadata_fold (P : string -> string -> Prop)
      (metas : list html.Node) (metadata : gmap string string) :
  map_Forall P metadata ->
  Forall (fun meta =>
            forall name content,
              extractor.meta_entry (html.Attr meta) = (name, content) ->
              name <> "" -> content <> "" -> P name content) metas ->
  map_Forall P
    (fold_left
       (fun (metadata : gmap string string) (meta : html.Node) =>
          let '(name, content) := extractor.meta_entry (html.Attr meta) in
          if negb (String.eqb name "") && negb (String.eqb content "")
          then <[name := content]> metadata
          else metadata)
       metas metadata).
Proof.
  intros Hm Hf. revert metadata Hm.
  induction Hf as [|meta metas Hmeta _ IH]; intros metadata Hm; [exact Hm|].
  cbn [fold_left]. apply IH.
  destruct (extractor.meta_entry (html.Attr meta)) as [name content] eqn:E.
  destruct (String.eqb name "") eqn:En; [exact Hm|].
  destruct (String.eqb content "") eqn:Ec; [exact Hm|].
  cbn [negb andb]. apply map_Forall_insert_2; [|exact Hm].
  apply String.eqb_neq in En, Ec. now apply Hmeta.
Qed.

End metadata.

(** X16. [ConvertToMarkdown] returns a text without [<] as it is. *)
Theorem ConvertToMarkdown_plain_text (htmlContent : string) :
  Strings.IndexByte htmlContent "<" = false ->
  extractor.ConvertToMarkdown htmlContent = htmlContent.
Proof.
  intros H. unfold extractor.ConvertToMarkdown.
  induction replacements_tags as [|[old new] rs [old' Hold] _ IH];
    [reflexivity|].
  cbn [fold_left fst snd] in *. subst old.
  now rewrite ReplaceAll_absent.
Qed.

Lemma ConvertToMarkdown_plain_text_witness :
  extractor.ConvertToMarkdown "a > b, no tags" = "a > b, no tags".
Proof.
  apply ConvertToMarkdown_plain_text. vm_compute. reflexivity.
Defined.

(** X17. Every entry of the map of [ExtractMetadata] comes from the
    document: it is the name and the content of a [meta] element, both
    non-empty, or it is the key [title] with the data of the first child
    of the first [title] element. *)
Theorem ExtractMetadata_entries (doc : html.Node) :
  map_Forall
    (fun key value =>
       (exists meta,
           meta ∈ extractor.findNodes doc "meta"
           /\ extractor.meta_entry (html.Attr meta) = (key, value)
           /\ key <> "" /\ value <> "")
       \/ (key = "title"
           /\ exists titleNode c rest,
               extractor.findNode doc "title" = Some titleNode
               /\ html.children titleNode = c :: rest
               /\ value = html.Data c))
    (extractor.ExtractMetadata doc).
Proof.
  unfold extractor.ExtractMetadata. cbv zeta. apply metadata_fold.
  - destruct (extractor.findNode doc "title") as [titleNode|];
      [|apply map_Forall_empty].
    destruct (html.children titleNode) as [|c rest] eqn:Ec;
      [apply map_Forall_empty|].
    apply map_Forall_insert_2; [|apply map_Forall_empty].
    right. split; [reflexivity|]. exists titleNode, c, rest. auto.
  - apply Forall_forall. intros meta Hmeta name content E Hn Hc.
    left. exists meta. split; [exact Hmeta|auto].
Qed.


(* ================================================================== *)
(** * What the orchestrator leaves on disk *)

Section disk.
Context {U : NetURL} {W : World}.
Implicit Types (s : harvester.State).

Lemma same_disk_refl s : Props.same_disk s s.
Proof. split; reflexivity. Qed.

Lemma same_disk_trans s1 s2 s3 :
  Props.same_disk s1 s2 -> Props.same_disk s2 s3 -> Props.same_disk s1 s3.
Proof. intros [H1 H2] [H3 H4]. split; congruence. Qed.

Lemma same_disk_emit s es : Props.same_disk s (harvester.emit s es).
Proof. split; reflexivity. Qed.

Lemma same_disk_tick s : Props.same_disk s (harvester.tick s).
Proof. split; reflexivity. Qed.

Lemma same_disk_FetchPage s urlStr :
  Props.same_disk s (snd (harvester.FetchPage s urlStr)).
Proof. split; reflexivity. Qed.

Lemma same_disk_assign_Title s p title s' :
  harvester.assign_Title s p title = Some s' -> Props.same_disk s s'.
Proof.
  unfold harvester.assign_Title. destruct (harvester.mem s !! p);
    [|discriminate]. intros [= <-]. split; reflexivity.
Qed.


Lemma same_disk_report s cleanLink :
  Props.same_disk s (harvester.report s cleanLink).
Proof.
  unfold harvester.report. destruct (negb _); split; reflexivity.
Qed.

Lemma same_disk_report_filtered s link :
  Props.same_disk s (harvester.report_filtered s link).
Proof.
  unfold harvester.report_filtered.
  destruct (harvester.Debug _); [destruct (tree.IsVisited _ _)|];
    split; reflexivity.
Qed.

Lemma same_disk_processLink s link :
  Props.same_disk s (harvester.processLink s link).
Proof.
  unfold harvester.processLink.
  destruct (harvester.isParentURL (harvester.hc s) link) as [[] printed].
  - eapply same_disk_trans; [apply (same_disk_emit s printed)|].
    apply same_disk_report.
  - eapply same_disk_trans; [apply (same_disk_emit s printed)|].
    apply same_disk_report_filtered.
Qed.

Lemma same_disk_fold_processLink links s :
  Props.same_disk s (fold_left harvester.processLink links s).
Proof.
  revert s. induction links as [|link links IH]; intros s;
    [apply same_disk_refl|].
  cbn [fold_left]. eapply same_disk_trans; [apply same_disk_processLink|].
  apply IH.
Qed.

Lemma same_disk_Explore s : Props.same_disk s (snd (harvester.Explore s)).
Proof.
  unfold harvester.Explore.
  pose proof (same_disk_FetchPage s (harvester.RootURL (harvester.hc s)))
    as H0.
  destruct (harvester.FetchPage s _) as [[doc|e] s1]; cbn [snd] in *;
    [|exact H0].
  destruct (tree.RootNode _); [|exact H0].
  destruct (harvester.assign_Title s1 _ _) as [s2|] eqn:Ea; [|exact H0].
  apply same_disk_assign_Title in Ea.
  destruct (crawler.ExtractLinks _ _); cbn [snd].
  - eapply same_disk_trans; [exact H0|].
    eapply same_disk_trans; [exact Ea|]. apply same_disk_fold_processLink.
  - exact (same_disk_trans _ _ _ H0 Ea).
Qed.






Lemma duplicated_app tr1 tr2 :
  Props.duplicated (tr1 ++ tr2) = Props.duplicated tr1 ++ Props.duplicated tr2.
Proof.
  induction tr1 as [|e tr1 IH]; [reflexivity|].
  destruct e; cbn; rewrite ?IH; reflexivity.
Qed.

Lemma isParentURL_no_duplicated c link :
  Props.duplicated (snd (harvester.isParentURL c link)) = [].
Proof.
  unfold harvester.isParentURL. repeat (case_match; simpl; auto).
Qed.

(** [processLink] changes neither the tree nor the arena, and reports no
    duplicate while nothing is marked visited. *)
Lemma processLink_tree s link :
  let s' := harvester.processLink s link in
  harvester.WebTree (harvester.hc s') = harvester.WebTree (harvester.hc s)
  /\ harvester.mem s' = harvester.mem s
  /\ (tree.VisitedURLs (harvester.WebTree (harvester.hc s)) = ∅ ->
      Props.duplicated (harvester.trace s')
      = Props.duplicated (harvester.trace s)).
Proof.
  cbv zeta. unfold harvester.processLink.
  pose proof (isParentURL_no_duplicated (harvester.hc s) link) as Hd.
  destruct (harvester.isParentURL (harvester.hc s) link) as [[] printed];
    cbn [snd] in Hd.
  - unfold harvester.report. destruct (negb _); cbn;
      (split; [reflexivity|split; [reflexivity|]]); intros _;
      rewrite ?duplicated_app, Hd; cbn; now rewrite ?app_nil_r.
  - unfold harvester.report_filtered. cbn [harvester.hc harvester.emit].
    destruct (harvester.Debug _).
    + split; [destruct (tree.IsVisited _ _); reflexivity|].
      split; [destruct (tree.IsVisited _ _); reflexivity|].
      intros Hv.
      assert (Hn : tree.IsVisited
                     (harvester.WebTree (harvester.hc s)) link = false).
      { unfold tree.IsVisited, tree.map_get. rewrite Hv.
        destruct (url_Parse link); [now rewrite lookup_empty|reflexivity]. }
      rewrite Hn. cbn. rewrite !duplicated_app, Hd.
      cbn. now rewrite ?app_nil_r.
    + cbn. split; [reflexivity|split; [reflexivity|]]. intros _.
      rewrite duplicated_app, Hd. now rewrite app_nil_r.
Qed.

Lemma fold_processLink_tree links s :
  let s' := fold_left harvester.processLink links s in
  harvester.WebTree (harvester.hc s') = harvester.WebTree (harvester.hc s)
  /\ harvester.mem s' = harvester.mem s
  /\ (tree.VisitedURLs (harvester.WebTree (harvester.hc s)) = ∅ ->
      Props.duplicated (harvester.trace s')
      = Props.duplicated (harvester.trace s)).
Proof.
  cbv zeta. revert s. induction links as [|link links IH]; intros s;
    [auto|].
  cbn [fold_left].
  destruct (IH (harvester.processLink s link)) as (I1 & I2 & I3).
  destruct (processLink_tree s link) as (E1 & E2 & E3).
  rewrite I1, I2, E1, E2. split; [reflexivity|]. split; [reflexivity|].
  intros Hv. rewrite I3, E3; auto. now rewrite E1.
Qed.

End disk.

(** X18. [Explore] adds no node to the tree and marks no URL visited, and
    it writes no file; from a new context it therefore reports no
    rejected link as a duplicate. *)
Theorem Explore_marks_nothing {U : NetURL} {W : World}
        (rootURL : string) (maxDepth : Z) (debug : bool)
        (s0 : harvester.State) :
  harvester.NewExplorerContext rootURL maxDepth debug = Ok s0 ->
  let s' := snd (harvester.Explore s0) in
  harvester.WebTree (harvester.hc s') = harvester.WebTree (harvester.hc s0)
  /\ tree.VisitedURLs (harvester.WebTree (harvester.hc s')) = ∅
  /\ length (harvester.mem s') = 1%nat
  /\ harvester.files s' = ∅
  /\ Props.duplicated (harvester.trace s') = [].
Proof.
  intros Hnew. apply NewExplorerContext_Ok in Hnew as (u & Hu & Hheap & ->).
  cbv zeta.
  pose proof (same_disk_Explore (Examples.explorer rootURL maxDepth debug))
    as [Hfiles _].
  assert (Htree :
    harvester.WebTree
      (harvester.hc
         (snd (harvester.Explore (Examples.explorer rootURL maxDepth debug))))
    = Examples.root_tree maxDepth
    /\ length (harvester.mem
         (snd (harvester.Explore (Examples.explorer rootURL maxDepth debug))))
       = 1%nat
    /\ Props.duplicated (harvester.trace
         (snd (harvester.Explore (Examples.explorer rootURL maxDepth debug))))
       = []).
  { unfold harvester.Explore, harvester.FetchPage, harvester.assign_Title.
    cbn [Examples.explorer harvester.hc harvester.RootURL harvester.clock
         harvester.tick harvester.emit harvester.WebTree tree.RootNode
         Examples.root_tree harvester.mem harvester.trace harvester.files
         harvester.set_mem].
    rewrite Hheap.
    destruct (crawler.FetchPage 0 rootURL) as [doc|e];
      [|cbn; rewrite ?Hheap; auto].
    cbn [lookup list_lookup].
    cbn [harvester.hc harvester.set_mem harvester.tick harvester.emit
         harvester.RootURL harvester.mem harvester.trace harvester.clock
         harvester.files].
    destruct (crawler.ExtractLinks doc _) as [links|e];
      [|cbn; rewrite ?Hheap; auto].
    cbn [snd].
    match goal with
    | |- context [fold_left harvester.processLink links ?s] =>
        destruct (fold_processLink_tree links s) as (H1 & H2 & H3)
    end.
    rewrite H1, H2, H3 by reflexivity. cbn. auto. }
  destruct Htree as (Ht & Hm & Hd). rewrite Ht, Hfiles.
  repeat split; auto.
Qed.

Section Explore_concrete.
#[local] Existing Instance plain.net_url.
#[local] Existing Instance Examples.up.

Lemma Explore_marks_nothing_witness :
  harvester.NewExplorerContext Examples.site_root 2 true
  = Ok (Examples.explorer Examples.site_root 2 true)
  /\ Props.duplicated
       (harvester.trace
          (snd (harvester.Explore (Examples.explorer Examples.site_root 2
                                                     true)))) = [].
Proof.
  assert (H : harvester.NewExplorerContext Examples.site_root 2 true
              = Ok (Examples.explorer Examples.site_root 2 true))
    by (vm_compute; reflexivity).
  split; [exact H|].
  apply (Explore_marks_nothing _ _ _ _ H).
Defined.

End Explore_concrete.


(* ================================================================== *)
(** * Domains, and the command line *)

Section command_line.
Context {U : NetURL} {W : World}.

Lemma getDomain_Host (urlStr : string) :
  main.getDomain urlStr
  = match url_Parse urlStr with
    | Some u => url.Host u
    | None => ""
    end.
Proof.
  unfold main.getDomain, tree.NewWebTree, node.NewWebNode.
  destruct (url_Parse urlStr); reflexivity.
Qed.



End command_line.

(** X19. [IsSameDomain] is symmetric and transitive, it holds of a URL and
    itself exactly when the URL parses, and it holds of two URLs exactly
    when both parse and [getDomain] gives the same host for them. *)
Theorem IsSameDomain_equivalence {U : NetURL} {W : World}
        (url1 url2 url3 : string) :
  crawler.IsSameDomain url1 url2 = crawler.IsSameDomain url2 url1
  /\ (crawler.IsSameDomain url1 url2 = true ->
      crawler.IsSameDomain url2 url3 = true ->
      crawler.IsSameDomain url1 url3 = true)
  /\ (crawler.IsSameDomain url1 url1 = true <-> url_Parse url1 <> None)
  /\ (crawler.IsSameDomain url1 url2 = true
      <-> url_Parse url1 <> None /\ url_Parse url2 <> None
          /\ main.getDomain url1 = main.getDomain url2).
Proof.
  rewrite !getDomain_Host. unfold crawler.IsSameDomain.
  destruct (url_Parse url1) as [u1|], (url_Parse url2) as [u2|],
    (url_Parse url3) as [u3|].
  all: split; [try reflexivity; apply String.eqb_sym|].
  all: split; [try discriminate; intros H1 H2;
               apply String.eqb_eq in H1, H2; apply String.eqb_eq;
               congruence|].
  all: split;
    [rewrite ?String.eqb_refl; split; [discriminate|congruence]|].
  all: split;
    [try discriminate; intros H; apply String.eqb_eq in H;
     repeat split; try discriminate; exact H
    |intros (H1 & H2 & H3); try congruence; now apply String.eqb_eq].
Qed.

(** X20. A link that [isParentURL] accepts is in the domain of the root
    URL. *)
Theorem isParentURL_same_domain {U : NetURL} {W : World}
        (c : harvester.HarvesterContext) (link : string) :
  fst (harvester.isParentURL c link) = true ->
  crawler.IsSameDomain (harvester.RootURL c) link = true.
Proof.
  unfold harvester.isParentURL, crawler.IsSameDomain.
  destruct (url_Parse (harvester.RootURL c)) as [r|]; [|discriminate].
  destruct (url_Parse link) as [l|]; [|discriminate].
  destruct (String.eqb (url.Host r) (url.Host l)); [reflexivity|discriminate].
Qed.

Section domain_concrete.
#[local] Existing Instance plain.net_url.
#[local] Existing Instance Examples.up.

Lemma isParentURL_same_domain_witness :
  crawler.IsSameDomain Examples.site_root "https://x.test/docs/guide" = true.
Proof.
  apply (isParentURL_same_domain
           (harvester.hc (Examples.explorer Examples.site_root 2 false))
           "https://x.test/docs/guide").
  vm_compute. reflexivity.
Defined.

End domain_concrete.


(** X22. The flag [xml-output] changes nothing but the first line printed:
    the contexts that [main] leaves, with the files written, are the
    same for every value of the flag. *)
Theorem xml_output_ignored {U : NetURL} {W : World} (exploreOnly : bool)
        (xmlOutput1 xmlOutput2 : string) (debugFlag : bool) (maxDepth : Z)
        (args : list string) :
  Props.final_state
    (main.main exploreOnly xmlOutput1 debugFlag maxDepth args)
  = Props.final_state
      (main.main exploreOnly xmlOutput2 debugFlag maxDepth args)
  /\ option_map (@tail main.line)
       (match main.main exploreOnly xmlOutput1 debugFlag maxDepth args with
        | Ok (lines, _) => Some lines
        | _ => None
        end)
     = option_map (@tail main.line)
         (match main.main exploreOnly xmlOutput2 debugFlag maxDepth args with
          | Ok (lines, _) => Some lines
          | _ => None
          end).
Proof.
  unfold main.main. destruct args as [|url args]; [auto|]. cbv zeta.
  destruct exploreOnly.
  - destruct (main.ExploreWebsite _ _ _) as [[lines s]| |]; auto.
  - destruct (main.DownloadWebsite _ _ _ _) as [[lines s]| |]; auto.
Qed.


(* ================================================================== *)
(** * The store: its index and the order of its records *)

(** X23. In every store made by [NewXMLStorage] and changed by
    [SaveNodeContent] the index and the records agree: [pagesByURL] maps
    a URL to [i] exactly when [Pages[i]] has that URL.  The assignment
    [Pages[idx] = page] is therefore in range, and saving a node of an
    arena whose child pointers are in the arena does not panic. *)
Theorem pagesByURL_agrees {U : NetURL} {W : World} (s : storage.XMLStorage) :
  Spec.saved s ->
  (forall urlStr i,
      storage.pagesByURL (storage.Document s) !! urlStr = Some (Z.of_nat i)
      <-> exists pg,
          storage.Pages (storage.Document s) !! i = Some pg
          /\ storage.URL pg = urlStr)
  /\ (forall urlStr idx,
         storage.pagesByURL (storage.Document s) !! urlStr = Some idx ->
         0 <= idx < Z.of_nat (length (storage.Pages (storage.Document s))))
  /\ forall h now p n content,
      Spec.pointers_ok h -> h !! p = Some n ->
      fst (storage.SaveNodeContent h now s (Some p) content) <> Fault.
Proof.
  intros Hs. pose proof (saved_store_ok s Hs) as Hok.
  pose proof Hok as [Hidx Hpg]. split; [|split].
  - intros urlStr i. split.
    + intros Hi. destruct (Hidx _ _ Hi) as (_ & pg & Hl & Hu).
      rewrite Nat2Z.id in Hl. eauto.
    + intros (pg & Hl & <-). now apply Hpg.
  - intros urlStr idx Hi. destruct (Hidx _ _ Hi) as (H0 & pg & Hl & _).
    apply lookup_lt_Some in Hl. lia.
  - intros h now p n content Hptr Hn.
    destruct (storage_SaveNodeContent_good h now s p n content Hptr Hn Hok)
      as (r & s' & -> & _ & Hsome & Hnone). cbn [fst].
    destruct (node.URL n) as [u|] eqn:Eu.
    + rewrite Hsome by eauto. discriminate.
    + destruct (Hnone eq_refl) as [He _]. destruct r; discriminate.
Qed.

(** X24. [SaveNodeContent] keeps the records in the order in which their
    URLs were first saved: saving a URL again replaces its record where
    it is, saving a new URL appends its record. *)
Theorem SaveNodeContent_keeps_order {U : NetURL} {W : World}
        (s : storage.XMLStorage) (h : node.heap) (now : nat)
        (webNode : option node.ptr) (content : string)
        (s' : storage.XMLStorage) :
  Spec.saved s ->
  storage.SaveNodeContent h now s webNode content = (Ok tt, s') ->
  exists key,
    Spec.node_url h webNode = Some key
    /\ List.map storage.URL (Spec.records s')
       = if decide (key ∈ List.map storage.URL (Spec.records s))
         then List.map storage.URL (Spec.records s)
         else List.map storage.URL (Spec.records s) ++ [key].
Proof.
  intros Hs Hsave. pose proof (saved_store_ok s Hs) as [Hidx Hpg].
  apply SaveNodeContent_cases in Hsave
    as [[Hr _]|(p & n & u & links & -> & Hn & Hu & _ & _ & Hd)];
    [discriminate|].
  exists (url_String u). split.
  { unfold Spec.node_url. now rewrite Hn, Hu. }
  cbv zeta in Hd. unfold Spec.records.
  destruct (storage.pagesByURL (storage.Document s) !! url_String u)
    as [idx|] eqn:Hi.
  - destruct Hd as [Hr ->]. cbn [storage.Document storage.set_Document
                                 storage.Pages].
    destruct (Hidx _ _ Hi) as (_ & pg & Hl & Hpu).
    rewrite decide_True.
    + change (List.map storage.URL ?l) with (storage.URL <$> l).
      rewrite list_fmap_insert. cbn [storage.URL].
      apply list_insert_id. rewrite list_lookup_fmap, Hl. cbn. now f_equal.
    + apply list_elem_of_fmap. exists pg. split; [auto|].
      eapply list_elem_of_lookup_2, Hl.
  - subst s'. cbn [storage.Document storage.set_Document storage.Pages].
    rewrite decide_False.
    + now rewrite map_app.
    + intros Hin. apply list_elem_of_fmap in Hin as (pg & Hpu & Hin).
      apply list_elem_of_lookup_1 in Hin as [i Hl].
      specialize (Hpg _ _ Hl). congruence.
Qed.

Section store_concrete.
#[local] Existing Instance plain.net_url.
#[local] Existing Instance Examples.up.

Lemma pagesByURL_agrees_witness :
  Spec.saved Examples.store2
  /\ forall urlStr idx,
      storage.pagesByURL (storage.Document Examples.store2) !! urlStr
      = Some idx ->
      0 <= idx
      < Z.of_nat (length (storage.Pages (storage.Document Examples.store2))).
Proof.
  split; [exact store2_saved|].
  exact (proj1 (proj2 (pagesByURL_agrees _ store2_saved))).
Defined.

Lemma SaveNodeContent_keeps_order_witness :
  List.map storage.URL (Spec.records Examples.store3)
  = ["https://x.test/docs"; "https://x.test/docs/"].
Proof.
  assert (H : storage.SaveNodeContent Examples.slash_heap 3 Examples.store2
                                      (Some 1%nat) "again"
              = (Ok tt, Examples.store3)) by (vm_compute; reflexivity).
  destruct (SaveNodeContent_keeps_order _ _ _ _ _ _ store2_saved H)
    as (key & Hkey & ->).
  assert (key = "https://x.test/docs/") as ->
      by (vm_compute in Hkey; congruence).
  vm_compute. reflexivity.
Defined.

End store_concrete.


(* ================================================================== *)
(** * The tree and the records that [Download] makes *)

Section flat_tree.
Context {U : NetURL} {W : World}.
Implicit Types (s : harvester.State).

Ltac hfields :=
  cbn [harvester.hc harvester.mem harvester.trace harvester.clock
       harvester.files harvester.WebTree harvester.Storage_
       harvester.RootURL harvester.BaseURL harvester.MaxDepth
       harvester.Debug harvester.DownloadAll harvester.PrintedURLs
       harvester.set_hc harvester.set_mem harvester.emit harvester.tick
       harvester.set_files harvester.set_WebTree harvester.set_Storage
       harvester.set_PrintedURLs harvester.set_DownloadAll
       tree.RootNode tree.MaxDepth tree.VisitedURLs tree.set_VisitedURLs
       fst snd] in *.

Lemma flat_assign_Title s p title s' :
  harvester.assign_Title s p title = Some s' ->
  Props.flat s -> Props.flat s'.
Proof.
  unfold harvester.assign_Title.
  destruct (harvester.mem s !! p) as [n|] eqn:Hn; [|discriminate].
  intros [= <-] ((rn & Hrn & Hpar & Hdep) & Hone & Hst).
  assert (Hlt : (p < length (harvester.mem s))%nat)
    by (eapply lookup_lt_Some; eauto).
  split; [|split; [|exact Hst]]; cbn [harvester.mem harvester.set_mem].
  - destruct (decide (p = 0%nat)) as [->|Hne].
    + exists (node.set_Title rn title).
      rewrite list_lookup_insert_eq by exact Hlt.
      assert (n = rn) by congruence. subst n. auto.
    + exists rn. rewrite list_lookup_insert_ne by auto. auto.
  - intros q nd Hq Hl. destruct (decide (q = p)) as [->|Hne].
    + rewrite list_lookup_insert_eq in Hl by exact Hlt.
      injection Hl as <-. exact (Hone p n Hq Hn).
    + rewrite list_lookup_insert_ne in Hl by auto. exact (Hone q nd Hq Hl).
Qed.

Lemma flat_SaveNodeContent s p n content r s' :
  harvester.SaveNodeContent s (Some p) content = (r, s') ->
  harvester.mem s !! p = Some n -> node.Children n = [] ->
  Props.flat s -> Props.flat s'.
Proof.
  unfold harvester.SaveNodeContent. intros Hsave Hn Hc (Hroot & Hone & Hst).
  destruct (harvester.Storage_ (harvester.hc s)) as [|x] eqn:Es.
  { injection Hsave as <- <-. split; [exact Hroot|]. split; [exact Hone|].
    now rewrite Es. }
  destruct (storage.SaveNodeContent _ _ x (Some p) content) as [r' x'] eqn:E.
  injection Hsave as <- <-.
  split; [exact Hroot|]. split; [exact Hone|].
  cbn [harvester.hc harvester.set_hc harvester.tick harvester.Storage_
       harvester.set_Storage Props.no_links] in *.
  apply SaveNodeContent_cases in E
    as [[_ ->]|(p' & n' & u & links & [= <-] & Hn' & _ & Hl & _ & Hd)];
    [exact Hst|].
  assert (n' = n) by congruence. subst n'.
  rewrite Hc in Hl. injection Hl as <-. cbv zeta in Hd.
  destruct (storage.pagesByURL (storage.Document x) !! url_String u).
  - destruct Hd as [_ ->]. cbn. apply Forall_insert; [exact Hst|reflexivity].
  - subst x'. cbn. apply Forall_app. split; [exact Hst|].
    constructor; [reflexivity|constructor].
Qed.

Lemma flat_report s cleanLink :
  Props.flat s -> Props.flat (harvester.report s cleanLink).
Proof. unfold harvester.report. now destruct (negb _). Qed.

Lemma flat_report_filtered s link :
  Props.flat s -> Props.flat (harvester.report_filtered s link).
Proof.
  unfold harvester.report_filtered.
  destruct (harvester.Debug _); [destruct (tree.IsVisited _ _)|]; auto.
Qed.

(** A node made under the root of a flat tree leaves the tree flat. *)
Lemma flat_AddURL s link r h t :
  Spec.good s -> Props.flat s ->
  tree.AddURL (harvester.mem s) (harvester.WebTree (harvester.hc s)) link
              (Some 0%nat) = (r, h, t) ->
  Props.flat (harvester.set_hc (harvester.set_mem s h)
                (harvester.set_WebTree (harvester.hc s) t))
  /\ forall p, r = Ok (Some p) ->
               exists nd, h !! p = Some nd /\ node.Children nd = []
                          /\ (0 < p)%nat.
Proof.
  intros Hgood Hflat Hadd.
  pose proof Hflat as ((rn & Hrn & Hpar & Hdep) & Hone & Hst).
  apply AddURL_cases in Hadd
    as [(_ & Hr & -> & ->) | [(u & _ & _ & -> & -> & ->)
                            | [(u & _ & _ & q & [= <-] & Hq & _)
                              | (u & Hu' & _ & -> & -> & pn & Hpn & ->)]]].
  - split; [|intros p ->; discriminate].
    clear - Hflat. destruct s as [[] ? ? ? ?]. exact Hflat.
  - split; [|intros p; discriminate].
    clear - Hflat. destruct s as [[] ? ? ? ?]. exact Hflat.
  - congruence.
  - assert (pn = rn) by congruence. subst pn.
    assert (Hlt : (0 < length (harvester.mem s))%nat)
      by (eapply lookup_lt_Some; eauto).
    split.
    + split; [|split; [|exact Hst]];
        cbn [harvester.mem harvester.set_mem harvester.set_hc].
      * eexists. split;
          [apply list_lookup_insert_eq; rewrite length_app; lia|].
        cbn. auto.
      * intros p nd Hp Hl. rewrite list_lookup_insert_ne in Hl by lia.
        destruct (decide (p < length (harvester.mem s))%nat) as [H|H].
        -- rewrite lookup_app_l in Hl by exact H. exact (Hone p nd Hp Hl).
        -- rewrite lookup_app_r in Hl by lia.
           destruct (p - length _)%nat; [|destruct n; discriminate].
           injection Hl as <-. cbn. rewrite Hdep. auto.
    + intros p [= <-]. eexists. split; [|split; [|exact Hlt]].
      * rewrite list_lookup_insert_ne by lia.
        rewrite lookup_app_r by lia. now rewrite Nat.sub_diag.
      * reflexivity.
Qed.


Lemma assign_Title_lookup s p title s' n :
  harvester.assign_Title s p title = Some s' ->
  harvester.mem s !! p = Some n ->
  harvester.mem s' !! p = Some (node.set_Title n title).
Proof.
  unfold harvester.assign_Title. intros H Hn. rewrite Hn in H.
  injection H as <-. cbn. apply list_lookup_insert_eq.
  eapply lookup_lt_Some; eauto.
Qed.

Lemma flat_downloadLink s link :
  Spec.good s -> Props.flat s ->
  Props.flat (snd (harvester.downloadLink s link)).
Proof.
  intros Hgood Hflat. unfold harvester.downloadLink.
  rewrite (FindNode_root s Hgood).
  destruct (tree.AddURL _ _ link (Some 0%nat)) as [[r h] t] eqn:Ea.
  destruct (flat_AddURL s link r h t Hgood Hflat Ea) as [Hf1 Hnew].
  set (s1 := harvester.set_hc _ _) in *.
  destruct r as [[p|]| |]; cbn [snd]; try exact Hf1.
  destruct (Hnew p eq_refl) as (nd & Hnd & Hc & Hp).
  change (harvester.mem s1) with h. rewrite Hnd.
  destruct (node.URL nd) as [u|]; [|exact Hf1].
  unfold harvester.FetchPage.
  set (s2 := harvester.tick _).
  assert (Hf2 : Props.flat s2) by exact Hf1.
  assert (Hn2 : harvester.mem s2 !! p = Some nd) by exact Hnd.
  destruct (crawler.FetchPage _ _) as [doc|e]; [|exact Hf2].
  destruct (harvester.assign_Title s2 p _) as [s3|] eqn:Et; [|exact Hf2].
  pose proof (flat_assign_Title _ _ _ _ Et Hf2) as Hf3.
  pose proof (assign_Title_lookup _ _ _ _ _ Et Hn2) as Hn3.
  destruct (extractor.ExtractContent doc) as [[content|e] doc'];
    [|exact Hf3].
  destruct (harvester.SaveNodeContent s3 (Some p) content) as [r s4] eqn:Es.
  pose proof (flat_SaveNodeContent _ _ _ _ _ _ Es Hn3 Hc Hf3) as Hf4.
  destruct r; exact Hf4.
Qed.

Lemma flat_processLinkAndDownload s link :
  Spec.good s -> Props.flat s ->
  Props.flat (snd (harvester.processLinkAndDownload s link)).
Proof.
  intros Hgood Hflat. unfold harvester.processLinkAndDownload.
  destruct (harvester.isParentURL (harvester.hc s) link) as [[] printed].
  - set (s1 := harvester.report _ _).
    assert (Hg1 : Spec.good s1)
      by (subst s1; unfold harvester.report; destruct (negb _);
          exact Hgood).
    assert (Hf1 : Props.flat s1)
      by (subst s1; apply flat_report; exact Hflat).
    destruct (harvester.DownloadAll _); [|exact Hf1].
    now apply flat_downloadLink.
  - cbn [snd]. apply flat_report_filtered. exact Hflat.
Qed.

Lemma flat_process_all links s :
  Spec.good s -> Props.flat s -> Props.flat (Spec.process_all links s).
Proof.
  revert s. induction links as [|link links IH]; intros s Hgood Hflat;
    [exact Hflat|].
  unfold Spec.process_all in *. cbn [fold_left].
  pose proof (flat_processLinkAndDownload s link Hgood Hflat) as Hf.
  destruct (processLinkAndDownload_good s link Hgood) as (s' & E & Hg' & _).
  rewrite E in Hf |- *. cbn [snd] in *. now apply IH.
Qed.

(** [Download] from a good, flat state whose root has no children yet
    ends in a flat state. *)
Lemma flat_Download s rn :
  Spec.good s -> Props.flat s ->
  harvester.mem s !! 0%nat = Some rn -> node.Children rn = [] ->
  Props.flat (snd (harvester.Download s)).
Proof.
  intros Hgood Hflat Hrn Hc.
  pose proof Hgood as ((rn' & ru & Hroot & Hrn' & Hu & Hp) & _).
  assert (rn' = rn) by congruence. subst rn'.
  destruct (crawler.FetchPage (harvester.clock s)
              (harvester.RootURL (harvester.hc s))) as [doc|e] eqn:Hf.
  2:{ rewrite (Download_fetch_fails s e Hf). exact Hflat. }
  destruct (extractor.ExtractContent doc) as [[content|e] doc'] eqn:He.
  - destruct (Download_good s doc content doc' Hgood Hf He)
      as (s1 & links & _ & _ & Hd & _).
    (* the state before the loop, followed step by step *)
    clear Hd. unfold harvester.Download, harvester.FetchPage. hfields.
    rewrite Hf, Hroot.
    set (s0 := harvester.tick _) in *.
    assert (Hg0 : Spec.good s0) by exact Hgood.
    assert (Hf0 : Props.flat s0) by exact Hflat.
    destruct (assign_Title_good s0 0%nat rn (crawler.ExtractTitle doc)
                Hg0 Hrn) as (s2 & Et & Hg2 & Hl2 & Hhc2 & _).
    rewrite Et, He.
    pose proof (flat_assign_Title _ _ _ _ Et Hf0) as Hf2.
    destruct (SaveNodeContent_good s2 _ _ content Hg2 Hl2)
      as (r & s3 & Es & Hg3 & Hr & _ & _ & _ & _ & Hr3 & _).
    rewrite Es.
    pose proof (flat_SaveNodeContent _ _ _ _ _ _ Es Hl2 Hc Hf2) as Hf3.
    rewrite Hr by (cbn; eauto).
    destruct (crawler.ExtractLinks doc' _) as [links'|e]; [|exact Hf3].
    set (s4 := harvester.emit s3 _) in *.
    assert (Hg4 : Spec.good s4) by exact Hg3.
    assert (Hf4 : Props.flat s4) by exact Hf3.
    destruct (range_links_good links' s4 Hg4) as (Hrl & Hg5 & _).
    rewrite Hrl.
    pose proof (flat_process_all links' s4 Hg4 Hf4) as Hf5.
    pose proof Hg5 as ((rn5 & ru5 & _ & Hrn5 & Hu5 & _) & _).
    rewrite Hrn5, Hu5.
    destruct (harvester.CreateIndexFile _ _); [exact Hf5|].
    destruct (harvester.Debug _); exact Hf5.
  - unfold harvester.Download, harvester.FetchPage. hfields.
    rewrite Hf, Hroot.
    set (s0 := harvester.tick _).
    assert (Hf0 : Props.flat s0) by exact Hflat.
    destruct (harvester.assign_Title s0 0%nat _) as [s2|] eqn:Et;
      [|exact Hf0].
    rewrite He. cbn [snd]. exact (flat_assign_Title _ _ _ _ Et Hf0).
Qed.


(** The run of [Download] from a new context ends in a flat state. *)
Lemma flat_download_run rootURL xmlFilePath baseURL maxDepth debug
      downloadAll s0 :
  harvester.NewXMLDownloaderContext rootURL xmlFilePath baseURL maxDepth debug
  = Ok s0 ->
  Props.flat
    (snd (harvester.Download
            (harvester.set_hc s0
               (harvester.set_DownloadAll (harvester.hc s0) downloadAll)))).
Proof.
  intros Hnew.
  pose proof (NewXMLDownloaderContext_good _ _ _ _ _ downloadAll _ Hnew)
    as Hgood.
  unfold harvester.NewXMLDownloaderContext, tree.NewWebTree,
    node.NewWebNode, storage.NewXMLStorage in Hnew.
  destruct (url_Parse rootURL) as [u|]; [|discriminate].
  destruct (os_MkdirAll _); [|discriminate].
  injection Hnew as <-.
  eapply flat_Download; [exact Hgood| |reflexivity|reflexivity].
  split; [|split].
  - eexists. split; [reflexivity|]. auto.
  - intros p nd Hp Hl. destruct p; [lia|discriminate].
  - constructor.
Qed.

End flat_tree.

(** X25. The tree that [Download] builds has one level below the root:
    the root is at depth 0, and every other node is a child of the root
    at depth 1 and has no children, whatever the maximum depth. *)
Theorem Download_tree_one_level {U : NetURL} {W : World}
        (rootURL xmlFilePath baseURL : string) (maxDepth : Z)
        (debug downloadAll : bool) (s0 : harvester.State) :
  harvester.NewXMLDownloaderContext rootURL xmlFilePath baseURL maxDepth debug
  = Ok s0 ->
  let s' := snd (harvester.Download
                   (harvester.set_hc s0
                      (harvester.set_DownloadAll (harvester.hc s0)
                                                 downloadAll))) in
  (exists rn, harvester.mem s' !! 0%nat = Some rn
              /\ node.Parent rn = None /\ node.Depth rn = 0)
  /\ Props.one_level (harvester.mem s').
Proof.
  intros Hnew. cbv zeta.
  destruct (flat_download_run _ _ _ _ _ downloadAll _ Hnew)
    as (Hroot & Hone & _).
  split; [exact Hroot|exact Hone].
Qed.

(** X26. Every record that [Download] stores has an empty list of links:
    a node is saved before any child is added to it. *)
Theorem Download_saves_no_links {U : NetURL} {W : World}
        (rootURL xmlFilePath baseURL : string) (maxDepth : Z)
        (debug downloadAll : bool) (s0 : harvester.State) :
  harvester.NewXMLDownloaderContext rootURL xmlFilePath baseURL maxDepth debug
  = Ok s0 ->
  Props.no_links
    (harvester.Storage_
       (harvester.hc
          (snd (harvester.Download
                  (harvester.set_hc s0
                     (harvester.set_DownloadAll (harvester.hc s0)
                                                downloadAll)))))).
Proof.
  intros Hnew.
  destruct (flat_download_run _ _ _ _ _ downloadAll _ Hnew)
    as (_ & _ & Hst).
  exact Hst.
Qed.

Section Download_concrete.
#[local] Existing Instance plain.net_url.
#[local] Existing Instance Examples.up.

Lemma Download_tree_one_level_witness :
  exists s0,
    harvester.NewXMLDownloaderContext Examples.site_root "docs.xml"
                                      Examples.site_root 2 false = Ok s0
    /\ Props.one_level
         (harvester.mem
            (snd (harvester.Download
                    (harvester.set_hc s0
                       (harvester.set_DownloadAll (harvester.hc s0)
                                                  true))))).
Proof.
  destruct (harvester.NewXMLDownloaderContext
              Examples.site_root "docs.xml" Examples.site_root 2 false)
    as [s0| |] eqn:H; [|vm_compute in H; discriminate..].
  exists s0. split; [reflexivity|].
  exact (proj2 (Download_tree_one_level _ _ _ _ _ true _ H)).
Defined.

Lemma Download_saves_no_links_witness :
  exists s0,
    harvester.NewXMLDownloaderContext Examples.site_root "docs.xml"
                                      Examples.site_root 2 false = Ok s0
    /\ Props.no_links
         (harvester.Storage_
            (harvester.hc
               (snd (harvester.Download
                       (harvester.set_hc s0
                          (harvester.set_DownloadAll (harvester.hc s0)
                                                     true)))))).
Proof.
  destruct (harvester.NewXMLDownloaderContext
              Examples.site_root "docs.xml" Examples.site_root 2 false)
    as [s0| |] eqn:H; [|vm_compute in H; discriminate..].
  exists s0. split; [reflexivity|].
  exact (Download_saves_no_links _ _ _ _ _ true _ H).
Defined.

End Download_concrete.


(* ================================================================== *)
(** * Finding what was added, and downloading without [DownloadAll] *)

Section round_trip.
Context {U : NetURL}.

Lemma preorder_head h p l : Spec.preorder h p l -> p ∈ l.
Proof. intros H. inversion H. now left. Qed.

Lemma preorder_list_children h cs ls :
  Spec.preorder_list h cs ls -> forall c, c ∈ cs -> c ∈ ls.
Proof.
  induction 1 as [|c cs l ls Hl Hls IH]; intros x Hx; [inversion Hx|].
  apply elem_of_app. apply elem_of_cons in Hx as [->|Hx].
  - left. eapply preorder_head; eauto.
  - right. now apply IH.
Qed.

Lemma first_match_elem h P l p n :
  p ∈ l -> h !! p = Some n -> P n = true ->
  exists q nq, Spec.first_match h P l = Some q
               /\ h !! q = Some nq /\ P nq = true.
Proof.
  induction l as [|x l IH]; intros Hp Hn HP; [inversion Hp|].
  cbn [Spec.first_match].
  destruct (h !! x) as [nx|] eqn:Hx.
  - destruct (P nx) eqn:HPx; [eauto|].
    apply elem_of_cons in Hp as [->|Hp]; [congruence|eauto].
  - apply elem_of_cons in Hp as [->|Hp]; [congruence|eauto].
Qed.

End round_trip.

(** X27. A URL added under the root is found: after [AddURL] has made a
    node for it, [FindNode] with the same URL returns a node of the tree
    whose URL is that URL up to the fragment. *)
Theorem AddURL_FindNode {U : NetURL} (h : node.heap) (t : tree.WebTree)
        (urlStr : string) (p : node.ptr) (h' : node.heap)
        (t' : tree.WebTree) :
  Spec.built h t ->
  tree.AddURL h t urlStr (Some 0%nat) = (Ok (Some p), h', t') ->
  exists q nq target,
    tree.FindNode h' t' urlStr = Ok (Some q)
    /\ h' !! q = Some nq
    /\ url_Parse urlStr = Some target
    /\ tree.same_page nq target = true.
Proof.
  intros Hb Hadd.
  assert (Hb' : Spec.built h' t').
  { eapply Spec.built_add; [exact Hb| |exact Hadd].
    destruct (built_wf h t Hb) as (_ & _ & rn & Hrn & _).
    cbn. eapply lookup_lt_Some; eauto. }
  destruct (built_wf h' t' Hb') as (Hwf' & Hroot' & rn' & Hrn' & _).
  assert (Hlt : (0 < length h')%nat) by (eapply lookup_lt_Some; eauto).
  destruct (preorder_exists h' Hwf' (length h') 0%nat ltac:(lia) Hlt)
    as [l Hl].
  apply AddURL_cases in Hadd
    as [(_ & He & _) | [(u & _ & _ & [=] & _)
         | [(u & _ & _ & q & _ & _ & [=] & _)
           | (u & Hp & _ & [= ->] & _ & pn & Hpn & Hh')]]];
    [discriminate|].
  rewrite (FindNode_first h' t' urlStr u l Hb' Hp Hl).
  assert (Hnew : h' !! length h
                 = Some (node.mkWebNode (Some u) "" "text/html" []
                           (Some 0%nat) (int_add (node.Depth pn) 1) ∅)).
  { subst h'. apply lookup_lt_Some in Hpn.
    rewrite list_lookup_insert_ne by lia.
    rewrite lookup_app_r by lia. now rewrite Nat.sub_diag. }
  assert (Hin : length h ∈ l).
  { inversion Hl as [p0 n0 ls Hn0 Hls]; subst. right.
    eapply preorder_list_children; [exact Hls|].
    rewrite list_lookup_insert_eq in Hn0
      by (rewrite length_app; cbn; apply lookup_lt_Some in Hpn; lia).
    injection Hn0 as <-. cbn. apply elem_of_app. right. now left. }
  destruct (first_match_elem h' (fun n => tree.same_page n u) l _ _
              Hin Hnew) as (q & nq & Hq & Hnq & Hsame);
    [apply same_page_refl; reflexivity|].
  exists q, nq, u. rewrite Hq. auto.
Qed.

Section round_trip_concrete.
#[local] Existing Instance plain.net_url.

Lemma AddURL_FindNode_witness :
  exists q nq target,
    tree.FindNode Examples.docs_heap Examples.docs_tree Examples.docs_child
    = Ok (Some q)
    /\ Examples.docs_heap !! q = Some nq
    /\ url_Parse Examples.docs_child = Some target
    /\ tree.same_page nq target = true.
Proof.
  apply (AddURL_FindNode (Examples.root_heap Examples.docs_root)
                         (Examples.root_tree 2) Examples.docs_child 1%nat).
  - eapply Spec.built_new with (rootURL := Examples.docs_root)
                               (maxDepth := 2).
    vm_compute. reflexivity.
  - vm_compute. reflexivity.
Defined.

End round_trip_concrete.

Section not_all.
Context {U : NetURL} {W : World}.
Implicit Types (s : harvester.State).

Lemma nothing_added_trans s1 s2 s3 :
  Props.nothing_added s1 s2 -> Props.nothing_added s2 s3 ->
  Props.nothing_added s1 s3.
Proof.
  intros (A1 & A2 & A3 & A4 & A5) (B1 & B2 & B3 & B4 & B5).
  repeat split; congruence.
Qed.

Lemma nothing_added_assign_Title s p title s' :
  harvester.assign_Title s p title = Some s' -> Props.nothing_added s s'.
Proof.
  unfold harvester.assign_Title. destruct (harvester.mem s !! p);
    [|discriminate]. intros [= <-]. repeat split. cbn.
  apply length_insert.
Qed.

Lemma nothing_added_SaveNodeContent s webNode content r s' :
  harvester.SaveNodeContent s webNode content = (r, s') ->
  Props.nothing_added s s'.
Proof.
  unfold harvester.SaveNodeContent.
  destruct (harvester.Storage_ (harvester.hc s)).
  - intros [= <- <-]. repeat split.
  - destruct (storage.SaveNodeContent _ _ _ _ _). intros [= <- <-].
    repeat split.
Qed.

(** Without [DownloadAll] a link is reported and nothing else. *)
Lemma processLinkAndDownload_not_all s link :
  harvester.DownloadAll (harvester.hc s) = false ->
  exists s',
    harvester.processLinkAndDownload s link = (Ok tt, s')
    /\ Props.nothing_added s s'
    /\ harvester.Storage_ (harvester.hc s')
       = harvester.Storage_ (harvester.hc s).
Proof.
  intros Hd. unfold harvester.processLinkAndDownload, Props.nothing_added.
  pose proof (isParentURL_prints (harvester.hc s) link) as [_ Hf].
  destruct (harvester.isParentURL (harvester.hc s) link) as [[] printed];
    cbn [snd] in Hf.
  - unfold harvester.report. cbn [harvester.hc harvester.emit].
    destruct (negb _); cbn; rewrite Hd; eexists; (split; [reflexivity|]);
      cbn; rewrite ?fetches_app, Hf; cbn; rewrite ?app_nil_r; auto 10.
  - eexists. split; [reflexivity|]. unfold harvester.report_filtered.
    cbn [harvester.hc harvester.emit].
    destruct (harvester.Debug _); [destruct (tree.IsVisited _ _)|];
      cbn; rewrite ?fetches_app, Hf; cbn; rewrite ?app_nil_r; auto 10.
Qed.

Lemma range_links_not_all links s :
  harvester.DownloadAll (harvester.hc s) = false ->
  exists s',
    harvester.range_links links s = (Ok tt, s')
    /\ Props.nothing_added s s'
    /\ harvester.Storage_ (harvester.hc s')
       = harvester.Storage_ (harvester.hc s).
Proof.
  revert s. induction links as [|link links IH]; intros s Hd.
  - exists s. repeat split.
  - cbn [harvester.range_links].
    destruct (processLinkAndDownload_not_all s link Hd)
      as (s1 & -> & Ha & Hs).
    assert (Hd1 : harvester.DownloadAll (harvester.hc s1) = false)
      by (destruct Ha as (_ & _ & _ & -> & _); exact Hd).
    destruct (IH s1 Hd1) as (s' & -> & Ha' & Hs').
    exists s'. split; [reflexivity|].
    split; [eapply nothing_added_trans; eauto|congruence].
Qed.

End not_all.

(** X28. With [DownloadAll] unset, as the constructors of the context
    leave it, [Download] requests the root page and no other, and adds
    no node to the tree: the accepted links are reported only. *)
Theorem Download_without_DownloadAll {U : NetURL} {W : World}
        (s : harvester.State) :
  harvester.DownloadAll (harvester.hc s) = false ->
  let s' := snd (harvester.Download s) in
  Spec.fetches (harvester.trace s')
  = Spec.fetches (harvester.trace s) ++ [harvester.RootURL (harvester.hc s)]
  /\ harvester.WebTree (harvester.hc s') = harvester.WebTree (harvester.hc s)
  /\ length (harvester.mem s') = length (harvester.mem s).
Proof.
  intros Hd. cbv zeta. unfold harvester.Download, harvester.FetchPage.
  set (s0 := harvester.tick _).
  assert (H0 : Spec.fetches (harvester.trace s0)
               = Spec.fetches (harvester.trace s)
                 ++ [harvester.RootURL (harvester.hc s)]
               /\ harvester.WebTree (harvester.hc s0)
                  = harvester.WebTree (harvester.hc s)
               /\ length (harvester.mem s0) = length (harvester.mem s)
               /\ harvester.DownloadAll (harvester.hc s0) = false).
  { subst s0. cbn. rewrite !fetches_app. cbn. rewrite app_nil_r. auto. }
  assert (Hend : forall s1, Props.nothing_added s0 s1 ->
            Spec.fetches (harvester.trace s1)
            = Spec.fetches (harvester.trace s)
              ++ [harvester.RootURL (harvester.hc s)]
            /\ harvester.WebTree (harvester.hc s1)
               = harvester.WebTree (harvester.hc s)
            /\ length (harvester.mem s1) = length (harvester.mem s)).
  { intros s1 (A1 & A2 & A3 & _). destruct H0 as (B1 & B2 & B3 & _).
    repeat split; congruence. }
  assert (Hrefl : forall x, Props.nothing_added x x) by (repeat split).
  destruct (crawler.FetchPage _ _) as [doc|e]; cbn [snd];
    [|apply Hend, Hrefl].
  destruct (tree.RootNode _) as [rootNode|]; [|apply Hend, Hrefl].
  destruct (harvester.assign_Title s0 _ _) as [s2|] eqn:Et;
    [|apply Hend, Hrefl].
  pose proof (nothing_added_assign_Title _ _ _ _ Et) as H2.
  destruct (extractor.ExtractContent doc) as [[content|e] doc'];
    [|apply Hend, H2].
  destruct (harvester.SaveNodeContent s2 _ content) as [r s3] eqn:Es.
  pose proof (nothing_added_trans _ _ _ H2
                (nothing_added_SaveNodeContent _ _ _ _ _ Es)) as H3.
  destruct r; try (apply Hend, H3).
  destruct (crawler.ExtractLinks _ _) as [links|e]; [|apply Hend, H3].
  set (s4 := harvester.emit s3 _).
  assert (H4 : Props.nothing_added s0 s4).
  { eapply nothing_added_trans; [exact H3|]. subst s4. repeat split.
    cbn. rewrite fetches_app. cbn. now rewrite app_nil_r. }
  assert (Hd4 : harvester.DownloadAll (harvester.hc s4) = false).
  { destruct H4 as (_ & _ & _ & -> & _). apply H0. }
  destruct (range_links_not_all links s4 Hd4) as (s5 & -> & H5 & _).
  pose proof (nothing_added_trans _ _ _ H4 H5) as H6.
  destruct (harvester.mem s5 !! rootNode) as [root|]; [|apply Hend, H6].
  destruct (node.URL root); [|apply Hend, H6].
  destruct (harvester.CreateIndexFile s5 _); [apply Hend, H6|].
  destruct (harvester.Debug _); [|apply Hend, H6].
  apply Hend. eapply nothing_added_trans; [exact H6|]. repeat split.
  cbn. rewrite fetches_app. cbn. now rewrite app_nil_r.
Qed.

Section not_all_concrete.
#[local] Existing Instance plain.net_url.
#[local] Existing Instance Examples.up.

Lemma Download_without_DownloadAll_witness :
  length
    (harvester.mem
       (snd (harvester.Download
               (harvester.set_hc (Examples.downloader Examples.site_root 2
                                                      false)
                  (harvester.set_DownloadAll
                     (harvester.hc (Examples.downloader Examples.site_root 2
                                                        false))
                     false)))))
  = 1%nat.
Proof.
  exact (proj2 (proj2 (Download_without_DownloadAll
                         (harvester.set_hc
                            (Examples.downloader Examples.site_root 2 false)
                            (harvester.set_DownloadAll
                               (harvester.hc
                                  (Examples.downloader Examples.site_root 2
                                                       false))
                               false))
                         eq_refl))).
Defined.

End not_all_concrete.
